(** * azurejay-server: agent loop, tool dispatch and grammar preprocessing

    A shallow embedding of
      - [src/agent/afm_executor.py]  ([run_afm_cycle]),
      - [src/agent/tools.py]         ([execute_tool] and the three handlers),
      - [src/agent/language_tool.py] ([LanguageToolAPI.check_text]),
      - [src/agent/grammar_pipe.py]  ([syntactic_check_node]),
    followed by the properties of these functions. *)

From Stdlib Require Import ZArith NArith Lia List Ascii String.
From Stdlib Require Import Sorting.Permutation Sorting.Sorted.
From stdpp Require Import base gmap sets list strings pretty.

Import ListNotations.
Local Open Scope list_scope.

(** ** Python strings

    A Python [str] is a sequence of Unicode code points; a code point is
    kept as its number. *)

Abbreviation char := N (only parsing).
Abbreviation str := (list N) (only parsing).

(** An ASCII literal of the source, as a [str]. *)
Definition lit (s : string) : str :=
  map N_of_ascii (list_ascii_of_string s).

Module PyStr.

(** [s.startswith(p)] *)
Fixpoint startswith (p s : str) : bool :=
  match p, s with
  | [], _ => true
  | _ :: _, [] => false
  | a :: p', b :: s' => N.eqb a b && startswith p' s'
  end.

(** [sub in s] *)
Fixpoint contains (sub s : str) : bool :=
  startswith sub s ||
  match s with
  | [] => false
  | _ :: s' => contains sub s'
  end.

(** [s.split(sep)] for a non-empty [sep]: the text is scanned from the
    left; at every position where [sep] starts, the piece collected so
    far is emitted and the scan resumes after the separator ([skip]
    counts the characters of the separator still to pass over). *)
Fixpoint split_from (sep : str) (skip : nat) (cur : str) (s : str)
  : list str :=
  match s with
  | [] => [rev cur]
  | c :: s' =>
      match skip with
      | S k => split_from sep k cur s'
      | O =>
          if startswith sep s
          then rev cur :: split_from sep (length sep - 1) [] s'
          else split_from sep 0 (c :: cur) s'
      end
  end.

Definition split (sep s : str) : list str := split_from sep 0 [] s.

(** [c.isspace()] for a single code point (CPython's
    [_PyUnicode_IsWhitespace]). *)
Definition isspace (c : char) : bool :=
  ((9 <=? c) && (c <=? 13) || (28 <=? c) && (c <=? 32)
   || (c =? 133) || (c =? 160) || (c =? 5760)
   || (8192 <=? c) && (c <=? 8202)
   || (c =? 8232) || (c =? 8233) || (c =? 8239) || (c =? 8287)
   || (c =? 12288))%N.

Fixpoint lstrip (s : str) : str :=
  match s with
  | [] => []
  | c :: s' => if isspace c then lstrip s' else s
  end.

Definition rstrip (s : str) : str := rev (lstrip (rev s)).

(** [s.strip()] *)
Definition strip (s : str) : str := rstrip (lstrip s).

(** [sep.join(parts)] *)
Fixpoint join (sep : str) (parts : list str) : str :=
  match parts with
  | [] => []
  | [p] => p
  | p :: ps => p ++ sep ++ join sep ps
  end.

(** [s[:i]] and [s[i:]] for a Python [int] index: a negative index counts
    from the end, and the result is clamped to the string. *)
Definition norm_index (s : str) (i : Z) : nat :=
  let n := Z.of_nat (length s) in
  Z.to_nat (Z.min n (Z.max 0 (if (i <? 0)%Z then (i + n)%Z else i))).

Definition slice_to (s : str) (i : Z) : str := firstn (norm_index s i) s.
Definition slice_from (s : str) (i : Z) : str := skipn (norm_index s i) s.

(** [str(n)] for a non-negative [int] *)
Definition of_nat (n : nat) : str := lit (pretty n).

End PyStr.

Definition nl : str := [10%N].

(** ** Exceptions and outcomes

    Every exception class modelled here derives from Python's [Exception];
    [exn_text] is what [str(e)] (and an f-string [{e}]) gives. *)

Inductive exn_class :=
| ValidationError   (* pydantic.ValidationError *)
| RequestException  (* requests.exceptions.RequestException *)
| ValueError
| IndexError
| TypeError
| IntegrityError    (* sqlalchemy.exc.IntegrityError *)
| OtherException.

Record exn := Exn { exn_class_of : exn_class; exn_text : str }.

Inductive outcome (A : Type) :=
| Returned (a : A)
| Raised (e : exn).
Arguments Returned {A} a.
Arguments Raised {A} e.

(** ** Data model *)

(** langchain messages of the transcript *)
Inductive BaseMessage :=
| SystemMessage (content : str)
| AIMessage (content : str)
| HumanMessage (content : str).

(** [src/agent/tool_schemas.py] *)
Record WebSearch := { query : str }.

Record UpdateUserProfile := {
  name : option str;
  location : option str;
  interests_to_add : option (list str)
}.

Record SaveGrammarCorrection := {
  original_text : str;
  corrected_text : str;
  explanation : str;
  improvement : str
}.

(** The dictionary [tool_params_obj.model_dump()], one shape per schema.
    The four keys the loop injects ([user_id], [store], [db_session],
    [conversation_id]) are the [Context] below. *)
Inductive ToolParams :=
| WebSearchParams (p : WebSearch)
| UpdateUserProfileParams (p : UpdateUserProfile)
| SaveGrammarCorrectionParams (p : SaveGrammarCorrection).

Record Context := { user_id : str; conversation_id : str }.

(** [src/entities]: the columns the agent reads or writes. *)
Inductive MessageRole := HUMAN | AI.

Record User := {
  first_name : str;
  user_location : option str;
  user_interests : option (list str)   (* nullable ARRAY(String) *)
}.

Record Message := {
  message_id : str;
  message_conversation_id : str;
  role : MessageRole;
  created_at : Z
}.

Record GrammarCorrection := {
  correction_message_id : str;   (* ForeignKey messages.id, unique *)
  correction_user_id : str;      (* ForeignKey users.id *)
  correction_data : SaveGrammarCorrection
}.

(** The SQLAlchemy session: the [users] table by primary key, the other
    two tables as their rows. *)
Record Session := {
  users : gmap (list N) User;
  messages : list Message;
  grammar_corrections : list GrammarCorrection
}.

(** Values the agent puts in the Redis store, and the store itself,
    keyed by namespace tuple and key. *)
Inductive StoreValue :=
| ProfileValue (pname : str) (plocation : option str)
               (pinterests : option (list str))
| CorrectionValue (data : SaveGrammarCorrection).

Abbreviation RedisStore := (gmap (list (list N) * list N) StoreValue)
  (only parsing).

(** Result of the Tavily search client: a dictionary with a [results]
    list, or anything else (kept as its [str()]). *)
Record SearchItem := {
  title : option str;
  url : option str;
  content : option str
}.

Inductive SearchResult :=
| ResultsDict (results : list SearchItem)
| OtherResult (as_str : str).

(** ** Calls that leave the process

    Each remote call is recorded as an event.  Its answer is given by an
    oracle that also receives the number of events recorded before the
    call, so that a collaborator may answer the same request differently
    at different times. *)
Inductive Event :=
| EvLlm (transcript : list BaseMessage)      (* llm.invoke(messages) *)
| EvExtract (tool_name : str) (prompt : list BaseMessage)
                                             (* extractor.invoke(...) *)
| EvHandler (tool_name : str)                (* TOOL_MAP[tool_name](...) *)
| EvSearch (q : str)                         (* web_search_instance.invoke *)
| EvUuid.                                    (* uuid.uuid4() *)

Record PromptArgs := {
  arg_syntactic_analysis : str;
  arg_semantic_analysis : str;
  arg_history : str;
  arg_user_profile : str;
  arg_user_input : str;
  arg_conversation_id : str
}.

Record Env := {
  llm_invoke : nat -> list BaseMessage -> outcome str;
  websearch_extractor : nat -> list BaseMessage -> outcome WebSearch;
  profile_extractor : nat -> list BaseMessage -> outcome UpdateUserProfile;
  grammar_extractor :
    nat -> list BaseMessage -> outcome SaveGrammarCorrection;
  web_search_instance : nat -> str -> outcome SearchResult;
  uuid4 : nat -> str;
  (** text of the database's complaint when a row breaks a constraint *)
  integrity_error_text : GrammarCorrection -> str;
  (** [MASTER_PROMPT_TEMPLATE.format(...)]: the template has the six
      placeholders and no other brace, so formatting cannot fail *)
  MASTER_PROMPT_TEMPLATE_format : PromptArgs -> str
}.

(** ** State and the monad of the agent's code *)

Record State := {
  db_session : Session;
  store : gmap (list (list N) * list N) StoreValue;
  trace : list Event
}.

Definition M (A : Type) : Type := State -> outcome A * State.

Definition ret {A} (a : A) : M A := fun st => (Returned a, st).

Definition raise {A} (e : exn) : M A := fun st => (Raised e, st).

Definition bind {A B} (m : M A) (k : A -> M B) : M B :=
  fun st =>
    match m st with
    | (Returned a, st') => k a st'
    | (Raised e, st') => (Raised e, st')
    end.

(** [try: body  except Exception as e: handler(e)] *)
Definition try_except {A} (body : M A) (handler : exn -> M A) : M A :=
  fun st =>
    match body st with
    | (Returned a, st') => (Returned a, st')
    | (Raised e, st') => handler e st'
    end.

Notation "'let*' x ':=' c 'in' k" := (bind c (fun x => k))
  (at level 10, x name, c at level 100, k at level 200).

Definition get_db : M Session := fun st => (Returned (db_session st), st).

Definition set_db (d : Session) : M unit :=
  fun st => (Returned tt,
             {| db_session := d; store := store st; trace := trace st |}).

(** [store.put(namespace, key, value)] *)
Definition store_put (ns : list str) (key : str) (v : StoreValue) : M unit :=
  fun st => (Returned tt,
             {| db_session := db_session st;
                store := <[(ns, key) := v]> (store st);
                trace := trace st |}).

(** A remote call: record the event, answer with the oracle at the
    current time. *)
Definition remote {A} (ev : Event) (oracle : nat -> outcome A) : M A :=
  fun st => (oracle (length (trace st)),
             {| db_session := db_session st; store := store st;
                trace := trace st ++ [ev] |}).

(** [xs[i]] *)
Definition index {A} (xs : list A) (i : nat) : M A :=
  match nth_error xs i with
  | Some x => ret x
  | None => raise (Exn IndexError (lit "list index out of range"))
  end.

(** ** [src/agent/tools.py] *)

Module Tools.
Section WithEnv.

Context (env : Env).

(** Python truthiness of an optional string and of an optional list *)
Definition truthy {A} (o : option (list A)) : bool :=
  match o with
  | Some (_ :: _) => true
  | _ => false
  end.

(** [list(set(current_interests) | set(interests_to_add))]: the order in
    which Python lists a set is unspecified; the model lists it in the
    order of [elements]. *)
Definition union_interests (current add : list str) : list str :=
  elements ((list_to_set current ∪ list_to_set add) : gset (list N)).

(** [db_session.commit()] of the pending change to one user row.  The
    handler runs [db_session.refresh] afterwards, which re-reads the row
    just written. *)
Definition commit_user (uid : str) (u : User) : M unit :=
  let* d := get_db in
  set_db {| users := <[uid := u]> (users d);
            messages := messages d;
            grammar_corrections := grammar_corrections d |}.

Definition update_user_profile (ctx : Context) (p : UpdateUserProfile)
  : M str :=
  try_except
    (let* d := get_db in
     match users d !! user_id ctx with
     | None =>
         ret (lit "Error: User with ID " ++ user_id ctx
              ++ lit " not found.")
     | Some user_in_db =>
         let first_name' :=
           if truthy (name p) then default [] (name p)
           else first_name user_in_db in
         let location' :=
           if truthy (location p) then location p
           else user_location user_in_db in
         let interests' :=
           if truthy (interests_to_add p)
           then Some (union_interests
                        (default [] (user_interests user_in_db))
                        (default [] (interests_to_add p)))
           else user_interests user_in_db in
         let user' := {| first_name := first_name';
                         user_location := location';
                         user_interests := interests' |} in
         let* _ := commit_user (user_id ctx) user' in
         let* _ := store_put [lit "profile"; user_id ctx] (lit "latest")
                     (ProfileValue first_name' location' interests') in
         ret (lit "User profile updated successfully.")
     end)
    (fun e =>
       (* db_session.rollback(): nothing was written *)
       ret (lit "Failed to update profile: " ++ exn_text e)).

(** [query(Message).filter(conversation_id == cid, role == HUMAN)
      .order_by(created_at.desc()).first()] *)
Definition is_human_of (cid : str) (m : Message) : bool :=
  bool_decide (message_conversation_id m = cid)
  && match role m with HUMAN => true | AI => false end.

Fixpoint latest (best : option Message) (rows : list Message)
  : option Message :=
  match rows with
  | [] => best
  | m :: rows' =>
      match best with
      | Some b =>
          if (created_at b <? created_at m)%Z then latest (Some m) rows'
          else latest best rows'
      | None => latest (Some m) rows'
      end
  end.

Definition last_human_message (d : Session) (cid : str) : option Message :=
  latest None (filter (fun m => is_human_of cid m = true) (messages d)).

(** [db_session.add(new_correction); db_session.commit()]: the table
    has [message_id] unique and [user_id] a foreign key into [users]. *)
Definition commit_correction (c : GrammarCorrection) : M unit :=
  let* d := get_db in
  if existsb (fun c' => bool_decide (correction_message_id c'
                                     = correction_message_id c))
             (grammar_corrections d)
     || negb (bool_decide (is_Some (users d !! correction_user_id c)))
  then raise (Exn IntegrityError (integrity_error_text env c))
  else set_db {| users := users d;
                 messages := messages d;
                 grammar_corrections := grammar_corrections d ++ [c] |}.

Definition save_grammar_correction (ctx : Context)
    (p : SaveGrammarCorrection) : M str :=
  try_except
    (let* d := get_db in
     match last_human_message d (conversation_id ctx) with
     | None =>
         ret (lit "Error: User message not found to link the correction.")
     | Some last =>
         let new_correction :=
           {| correction_message_id := message_id last;
              correction_user_id := user_id ctx;
              correction_data := p |} in
         let* _ := commit_correction new_correction in
         let* key := remote EvUuid (fun t => Returned (uuid4 env t)) in
         let* _ := store_put
                     [lit "corrections"; user_id ctx; conversation_id ctx]
                     key (CorrectionValue p) in
         ret (lit "Grammar correction saved successfully.")
     end)
    (fun e =>
       (* db_session.rollback(): the failed commit wrote nothing *)
       ret (lit "Failed to save correction: " ++ exn_text e)).

Definition format_item (item : SearchItem) : str :=
  lit "[" ++ default (lit "No title") (title item) ++ lit "]("
  ++ default [] (url item) ++ lit ")" ++ nl
  ++ default (lit "No content") (content item) ++ nl.

Definition execute_web_search (p : WebSearch) : M str :=
  try_except
    (let* result :=
       remote (EvSearch (query p))
              (fun t => web_search_instance env t (query p)) in
     match result with
     | ResultsDict items => ret (PyStr.join nl (map format_item items))
     | OtherResult s => ret s
     end)
    (fun e => ret (lit "Error performing search: " ++ exn_text e)).

Definition missing_argument : exn :=
  Exn TypeError (lit "missing required positional argument").

(** The call of [TOOL_MAP[tool_name]] on the unpacked dictionary: a
    handler with required parameters fails to bind when the dictionary
    lacks them; the profile handler has only optional ones and swallows
    the rest in its keyword catch-all. *)
Definition call_handler (tool_name : str) (ctx : Context)
    (params : ToolParams) : option (M str) :=
  if bool_decide (tool_name = lit "WebSearch") then
    Some match params with
         | WebSearchParams p => execute_web_search p
         | _ => raise missing_argument
         end
  else if bool_decide (tool_name = lit "UpdateUserProfile") then
    Some match params with
         | UpdateUserProfileParams p => update_user_profile ctx p
         | _ => update_user_profile ctx
                  {| name := None; location := None;
                     interests_to_add := None |}
         end
  else if bool_decide (tool_name = lit "SaveGrammarCorrection") then
    Some match params with
         | SaveGrammarCorrectionParams p => save_grammar_correction ctx p
         | _ => raise missing_argument
         end
  else None.

Definition execute_tool (tool_name : str) (ctx : Context)
    (params : ToolParams) : M str :=
  match call_handler tool_name ctx params with
  | Some handler =>
      let* _ := remote (EvHandler tool_name) (fun _ => Returned tt) in
      handler
  | None =>
      ret (lit "Error: Tool '" ++ tool_name ++ lit "' is not recognized.")
  end.

End WithEnv.
End Tools.

(** ** [src/agent/afm_executor.py] *)

Module Executor.
Section WithEnv.

Context (env : Env).

Definition FINAL_OPEN : str := lit "<final_answer>".
Definition FINAL_CLOSE : str := lit "</final_answer>".
Definition TOOL_OPEN : str := lit "<tool_call>".
Definition TOOL_CLOSE : str := lit "</tool_call>".

Definition max_turns : nat := 5.

Definition APOLOGY : str :=
  lit "I'm sorry, I couldn't process your request after several attempts.".

Definition extraction_prompt (tool_call_content : str) : str :=
  lit "Extract the parameters from this function call and return them in the correct schema format:"
  ++ nl ++ nl ++ tool_call_content ++ nl ++ nl
  ++ lit "Parse the function call and extract all parameters.".

Definition observation (body : str) : BaseMessage :=
  HumanMessage (lit "<observation>" ++ nl ++ body ++ nl
                ++ lit "</observation>").

(** An extractor followed by [model_dump()] *)
Definition dumped {A} (dump : A -> ToolParams)
    (extractor : nat -> list BaseMessage -> outcome A)
  : nat -> list BaseMessage -> outcome ToolParams :=
  fun t prompt =>
    match extractor t prompt with
    | Returned obj => Returned (dump obj)
    | Raised e => Raised e
    end.

(** The [if / elif / elif / else] that picks [extractor] and
    [tool_name]. *)
Definition select_tool (tool_call_content : str)
  : M ((nat -> list BaseMessage -> outcome ToolParams) * str) :=
  if PyStr.contains (lit "WebSearch") tool_call_content then
    ret (dumped WebSearchParams (websearch_extractor env),
         lit "WebSearch")
  else if PyStr.contains (lit "UpdateUserProfile") tool_call_content then
    ret (dumped UpdateUserProfileParams (profile_extractor env),
         lit "UpdateUserProfile")
  else if PyStr.contains (lit "SaveGrammarCorrection") tool_call_content
  then
    ret (dumped SaveGrammarCorrectionParams (grammar_extractor env),
         lit "SaveGrammarCorrection")
  else
    raise (Exn ValueError
               (lit "Tool not recognized in: " ++ tool_call_content)).

(** The [try / except ValidationError / except Exception] block of one
    turn; it gives the message appended to the transcript. *)
Definition tool_call_turn (ctx : Context) (tool_call_content : str)
  : M BaseMessage :=
  try_except
    (let* sel := select_tool tool_call_content in
     let prompt := [HumanMessage (extraction_prompt tool_call_content)] in
     let* tool_params :=
       remote (EvExtract (snd sel) prompt) (fun t => fst sel t prompt) in
     let* tool_result := Tools.execute_tool env (snd sel) ctx tool_params in
     ret (observation tool_result))
    (fun e =>
       match exn_class_of e with
       | ValidationError =>
           ret (observation (lit "Pydantic validation error: "
                             ++ exn_text e))
       | _ =>
           ret (observation (lit "Error executing tool: " ++ exn_text e))
       end).

(** [s.split(open)[1].split(close)[0].strip()] *)
Definition between (open close s : str) : M str :=
  let* after := index (PyStr.split open s) 1 in
  let* inner := index (PyStr.split close after) 0 in
  ret (PyStr.strip inner).

(** [for turn in range(n): ...] followed by the final [return]. *)
Fixpoint afm_turns (n : nat) (ctx : Context)
    (messages : list BaseMessage) : M str :=
  match n with
  | O => ret APOLOGY
  | S n' =>
      let* response_content :=
        remote (EvLlm messages) (fun t => llm_invoke env t messages) in
      let messages := messages ++ [AIMessage response_content] in
      if PyStr.contains FINAL_OPEN response_content then
        between FINAL_OPEN FINAL_CLOSE response_content
      else if PyStr.contains TOOL_OPEN response_content then
        let* tool_call_content :=
          between TOOL_OPEN TOOL_CLOSE response_content in
        let* observation_message := tool_call_turn ctx tool_call_content in
        afm_turns n' ctx (messages ++ [observation_message])
      else
        ret (PyStr.strip response_content)
  end.

Definition history_str (conversation_history : list (str * str)) : str :=
  PyStr.join nl
    (map (fun msg => fst msg ++ lit ": " ++ snd msg) conversation_history).

Definition run_afm_cycle (user_input : str)
    (conversation_history : list (str * str))
    (user_profile syntactic_analysis semantic_analysis : str)
    (ctx : Context) : M str :=
  let prompt :=
    MASTER_PROMPT_TEMPLATE_format env
      {| arg_syntactic_analysis := syntactic_analysis;
         arg_semantic_analysis := semantic_analysis;
         arg_history := history_str conversation_history;
         arg_user_profile := user_profile;
         arg_user_input := user_input;
         arg_conversation_id := conversation_id ctx |} in
  afm_turns max_turns ctx [SystemMessage prompt].

End WithEnv.
End Executor.

(** ** A scripted environment for the examples

    The primary model answers the [k]-th message of a script when the
    transcript it is shown holds [k] model turns, and [fallback] once the
    script is used up; the other collaborators are fixed. *)

Fixpoint count_ai (ms : list BaseMessage) : nat :=
  match ms with
  | [] => 0
  | AIMessage _ :: ms' => S (count_ai ms')
  | _ :: ms' => count_ai ms'
  end.

Definition scripted_env (script : list str) (fallback : str)
    (profile : outcome UpdateUserProfile)
    (grammar : outcome SaveGrammarCorrection) : Env :=
  {| llm_invoke := fun _ ms => Returned (nth (count_ai ms) script fallback);
     websearch_extractor := fun _ _ => Returned {| query := lit "q" |};
     profile_extractor := fun _ _ => profile;
     grammar_extractor := fun _ _ => grammar;
     web_search_instance := fun _ _ => Returned (ResultsDict []);
     uuid4 := fun t => PyStr.of_nat t;
     integrity_error_text := fun _ => lit "duplicate key";
     MASTER_PROMPT_TEMPLATE_format := fun a => arg_user_input a |}.

Definition empty_session : Session :=
  {| users := ∅; messages := []; grammar_corrections := [] |}.

Definition empty_state : State :=
  {| db_session := empty_session; store := ∅; trace := [] |}.

(** ** [src/agent/language_tool.py] *)

Module LanguageTool.

(** One entry of the [matches] list of the service's JSON answer, with
    the defaults that [match.get] supplies already filled in. *)
Record Match := {
  m_message : str;
  m_shortMessage : str;
  m_offset : Z;
  m_length : Z;
  m_rule_id : str;
  m_category : str;
  m_replacements : list str;
  m_context : str
}.

Record GrammarError := {
  message : str;
  short_message : str;
  offset : Z;
  length_ : Z;
  rule_id : str;
  category : str;
  replacements : list str;
  context : str
}.

(** The [timestamp] field ([datetime.now()]) is left out. *)
Record LanguageToolCorrection := {
  original_text : str;
  corrected_text : str;
  errors : list GrammarError;
  explanation : str
}.

(** [sorted(matches, key=lambda x: x['offset'], reverse=True)]: a stable
    sort, also under [reverse=True]: matches of equal offset keep the
    order the service gave them. *)
Fixpoint insert_desc (m : Match) (l : list Match) : list Match :=
  match l with
  | [] => [m]
  | x :: l' =>
      if (m_offset x <=? m_offset m)%Z then m :: l
      else x :: insert_desc m l'
  end.

Definition sorted_desc (l : list Match) : list Match :=
  foldr insert_desc [] l.

Definition to_error (m : Match) : GrammarError :=
  {| message := m_message m;
     short_message := m_shortMessage m;
     offset := m_offset m;
     length_ := m_length m;
     rule_id := m_rule_id m;
     category := m_category m;
     replacements := m_replacements m;
     context := m_context m |}.

(** The body of [if error.replacements:] *)
Definition apply_replacement (corrected : str) (error : GrammarError)
  : str :=
  match replacements error with
  | [] => corrected
  | top :: _ =>
      let start := offset error in
      let end_ := (offset error + length_ error)%Z in
      PyStr.slice_to corrected start ++ top
      ++ PyStr.slice_from corrected end_
  end.

(** [error.short_message or error.message] *)
Definition headline (error : GrammarError) : str :=
  match short_message error with
  | [] => message error
  | _ => short_message error
  end.

(** The arrow of the multi-error listing, as the source file spells
    it. *)
Definition ARROW : str := [226; 8224; 8217]%N.

Fixpoint numbered (i : nat) (es : list GrammarError) : list str :=
  match es with
  | [] => []
  | error :: es' =>
      (PyStr.of_nat i ++ lit ". " ++ headline error
       ++ match replacements error with
          | top :: _ => lit " " ++ ARROW ++ lit " '" ++ top ++ lit "'"
          | [] => []
          end)
      :: numbered (S i) es'
  end.

Definition _create_explanation (es : list GrammarError) : str :=
  match es with
  | [] => lit "No grammar errors found."
  | [error] =>
      match replacements error with
      | top :: _ =>
          lit "Found 1 error: " ++ headline error
          ++ lit ". Suggested correction: '" ++ top ++ lit "'"
      | [] => lit "Found 1 error: " ++ headline error
      end
  | _ =>
      lit "Found " ++ PyStr.of_nat (length es) ++ lit " errors:" ++ nl
      ++ PyStr.join nl (numbered 1 es)
  end.

Definition unavailable (text : str) : LanguageToolCorrection :=
  {| original_text := text;
     corrected_text := text;
     errors := [];
     explanation := lit "Unable to check grammar at this time." |}.

Section WithService.

(** [requests.post(...)], [raise_for_status()], [response.json()] and
    the reading of the [matches] entries: the parsed list, or the
    exception one of these steps raised. *)
Context (requests_post : str -> outcome (list Match)).

Definition check_text (text : str) : LanguageToolCorrection :=
  match requests_post text with
  | Returned found =>
      let matches := sorted_desc found in
      let errors := map to_error matches in
      {| original_text := text;
         corrected_text := fold_left apply_replacement errors text;
         errors := errors;
         explanation := _create_explanation errors |}
  | Raised e =>
      match exn_class_of e with
      | RequestException => unavailable text
      | _ => unavailable text
      end
  end.

End WithService.
End LanguageTool.

(** ** [src/agent/grammar_pipe.py] *)

Module GrammarPipe.
Section WithService.

Context (requests_post : str -> outcome (list LanguageTool.Match)).

Definition NO_SYNTAX_ERRORS : str :=
  lit "Nenhum erro de sintaxe encontrado.".

(** The value of the [syntactic_analysis] key of the returned state. *)
Definition syntactic_check_node (user_input : str) : str :=
  let correction_result :=
    LanguageTool.check_text requests_post user_input in
  match LanguageTool.errors correction_result with
  | _ :: _ =>
      lit "Foram encontrados erros. Texto original: '"
      ++ LanguageTool.original_text correction_result
      ++ lit "'. Corre" ++ [231; 227]%N ++ lit "o sugerida: '"
      ++ LanguageTool.corrected_text correction_result
      ++ lit "'. Explica" ++ [231; 227]%N ++ lit "o: "
      ++ LanguageTool.explanation correction_result
  | [] => NO_SYNTAX_ERRORS
  end.

End WithService.
End GrammarPipe.

Definition mk_match (off len : Z) (reps : list str) : LanguageTool.Match :=
  {| LanguageTool.m_message := lit "Possible agreement error";
     LanguageTool.m_shortMessage := [];
     LanguageTool.m_offset := off;
     LanguageTool.m_length := len;
     LanguageTool.m_rule_id := lit "RULE";
     LanguageTool.m_category := lit "Grammar";
     LanguageTool.m_replacements := reps;
     LanguageTool.m_context := [] |}.

(** ** Auxiliary definitions for the statements *)

(** Number of calls of the primary model recorded in a trace. *)
Fixpoint llm_calls (tr : list Event) : nat :=
  match tr with
  | [] => 0
  | EvLlm _ :: tr' => S (llm_calls tr')
  | _ :: tr' => llm_calls tr'
  end.

(** The state after a remote call has been recorded. *)
Definition logged (st : State) (evs : list Event) : State :=
  {| db_session := db_session st; store := store st;
     trace := trace st ++ evs |}.

Definition ctx0 : Context :=
  {| user_id := lit "u1"; conversation_id := lit "c1" |}.

Definition no_profile : outcome UpdateUserProfile :=
  Raised (Exn ValidationError (lit "1 validation error for UpdateUserProfile")).

Definition no_grammar : outcome SaveGrammarCorrection :=
  Raised (Exn ValidationError
              (lit "1 validation error for SaveGrammarCorrection")).

(** The text of the observation [execute_tool] gives for a tool [name]. *)
Definition not_recognized (name : str) : str :=
  lit "Error: Tool '" ++ name ++ lit "' is not recognized.".

(** The interests of a user row as a set, and the number of times one
    interest is listed in the row. *)
Definition interest_set (u : User) : gset (list N) :=
  list_to_set (default [] (user_interests u)).

Definition occurrences (i : str) (u : User) : nat :=
  count_occ (fun a b : list N => decide (a = b))
            (default [] (user_interests u)) i.

Definition OK_PROFILE : str := lit "User profile updated successfully.".

(** ** The corrected rewrite, as the specification words it

    The text is walked once, front to back; each flagged span, taken at
    its offset in the original text, is replaced by its top-ranked
    replacement, and a span without candidates is kept.  [spans] come in
    ascending order of offset and [pos] is the position reached. *)

Definition replacement_of (text : str) (e : LanguageTool.GrammarError)
  : str :=
  match LanguageTool.replacements e with
  | top :: _ => top
  | [] =>
      firstn (Z.to_nat (LanguageTool.offset e + LanguageTool.length_ e)
              - Z.to_nat (LanguageTool.offset e))
             (skipn (Z.to_nat (LanguageTool.offset e)) text)
  end.

Fixpoint rewrite_front_to_back (text : str) (pos : nat)
    (spans : list LanguageTool.GrammarError) : str :=
  match spans with
  | [] => skipn pos text
  | e :: rest =>
      firstn (Z.to_nat (LanguageTool.offset e) - pos) (skipn pos text)
      ++ replacement_of text e
      ++ rewrite_front_to_back text
           (Z.to_nat (LanguageTool.offset e + LanguageTool.length_ e)) rest
  end.

(** A flagged span lies in the text and is not empty; two spans do not
    overlap. *)
Definition span_ok (text : str) (m : LanguageTool.Match) : Prop :=
  (0 <= LanguageTool.m_offset m
   /\ 0 < LanguageTool.m_length m
   /\ LanguageTool.m_offset m + LanguageTool.m_length m
      <= Z.of_nat (length text))%Z.

Definition disjoint (m1 m2 : LanguageTool.Match) : Prop :=
  (LanguageTool.m_offset m1 + LanguageTool.m_length m1
   <= LanguageTool.m_offset m2
   \/ LanguageTool.m_offset m2 + LanguageTool.m_length m2
      <= LanguageTool.m_offset m1)%Z.

Fixpoint pairwise_disjoint (l : list LanguageTool.Match) : Prop :=
  match l with
  | [] => True
  | m :: l' => Forall (disjoint m) l' /\ pairwise_disjoint l'
  end.

(** Spans in descending order, each one ending where the one before it
    starts or earlier, the first one ending at [bound] or earlier. *)
Fixpoint chain (bound : Z) (es : list LanguageTool.GrammarError) : Prop :=
  match es with
  | [] => True
  | e :: es' =>
      (0 <= LanguageTool.offset e /\ 0 <= LanguageTool.length_ e
       /\ LanguageTool.offset e + LanguageTool.length_ e <= bound)%Z
      /\ chain (LanguageTool.offset e) es'
  end.

(** The same spans in ascending order, starting at [pos] or later. *)
Fixpoint asc_chain (pos : Z) (asc : list LanguageTool.GrammarError)
    (bound : Z) : Prop :=
  match asc with
  | [] => (pos <= bound)%Z
  | a :: rest =>
      (pos <= LanguageTool.offset a /\ 0 <= LanguageTool.length_ a)%Z
      /\ asc_chain (LanguageTool.offset a + LanguageTool.length_ a)%Z
           rest bound
  end.

(** [a] starts where [b] starts or later. *)
Definition later_match (a b : LanguageTool.Match) : Prop :=
  (LanguageTool.m_offset b <= LanguageTool.m_offset a)%Z.

(** States and arguments of the examples *)
Definition chess_state : State :=
  {| db_session :=
       {| users := {[ lit "u1" := {| first_name := lit "Ana";
                                     user_location := None;
                                     user_interests := Some [lit "chess"] |} ]};
          messages := [];
          grammar_corrections := [] |};
     store := ∅;
     trace := [] |}.

Definition add_chess : UpdateUserProfile :=
  {| name := None; location := None;
     interests_to_add := Some [lit "chess"] |}.

Definition ai_only_state : State :=
  {| db_session :=
       {| users := ∅;
          messages := [ {| message_id := lit "m1";
                           message_conversation_id := lit "c1";
                           role := AI; created_at := 10 |};
                        {| message_id := lit "m2";
                           message_conversation_id := lit "c2";
                           role := HUMAN; created_at := 11 |} ];
          grammar_corrections := [] |};
     store := ∅;
     trace := [] |}.

(** A computation that never calls the primary model. *)
Definition quiet {A} (m : M A) : Prop :=
  forall st, exists evs,
    trace (snd (m st)) = trace st ++ evs /\ llm_calls evs = 0.

(** A computation that never raises. *)
Definition total {A} (m : M A) : Prop :=
  forall st, exists a, fst (m st) = Returned a.

(** A computation that calls the primary model at most [n] times. *)
Definition bounded {A} (n : nat) (m : M A) : Prop :=
  forall st, exists evs,
    trace (snd (m st)) = trace st ++ evs /\ llm_calls evs <= n.

(** Every call of the primary model that trace [tr] records after its
    first [k] events was answered, and answered by a response that holds a
    tool call and no final-answer delimiter: no turn of the run returned
    early. *)
Definition all_continue (env : Env) (k : nat) (tr : list Event) : Prop :=
  forall pre msgs post,
    tr = pre ++ EvLlm msgs :: post -> k <= length pre ->
    exists r,
      llm_invoke env (length pre) msgs = Returned r
      /\ PyStr.contains Executor.FINAL_OPEN r = false
      /\ PyStr.contains Executor.TOOL_OPEN r = true.

(** ** Further definitions for the statements *)

(** The three tables of the session, for short. *)
Definition corrections_of (st : State) : list GrammarCorrection :=
  grammar_corrections (db_session st).

Definition NOT_FOUND_TO_LINK : str :=
  lit "Error: User message not found to link the correction.".

Definition OK_CORRECTION : str :=
  lit "Grammar correction saved successfully.".

(** The row the correction handler stores for the message [m]. *)
Definition correction_row (ctx : Context) (m : Message)
    (p : SaveGrammarCorrection) : GrammarCorrection :=
  {| correction_message_id := message_id m;
     correction_user_id := user_id ctx;
     correction_data := p |}.

(** [c] breaks a constraint of the [grammar_corrections] table of [d]:
    its message already has a correction, or its user is not in
    [users]. *)
Definition breaks_constraint (d : Session) (c : GrammarCorrection) : Prop :=
  (exists c', c' ∈ grammar_corrections d
              /\ correction_message_id c' = correction_message_id c)
  \/ users d !! correction_user_id c = None.

Definition msg_row (id cid : string) (r : MessageRole) (t : Z) : Message :=
  {| message_id := lit id; message_conversation_id := lit cid;
     role := r; created_at := t |}.

Definition ana : User :=
  {| first_name := lit "Ana"; user_location := None;
     user_interests := Some [lit "chess"] |}.

Definition went : SaveGrammarCorrection :=
  {| original_text := lit "I goed home"; corrected_text := lit "I went home";
     explanation := lit "irregular past"; improvement := lit "I went home" |}.

(** A conversation [c1] of user [u1] with two human-authored messages,
    without corrections and with a correction of the later message. *)
Definition talk_state (cs : list GrammarCorrection) : State :=
  {| db_session :=
       {| users := {[ lit "u1" := ana ]};
          messages := [ msg_row "m1" "c1" HUMAN 5; msg_row "m2" "c1" AI 6;
                        msg_row "m3" "c1" HUMAN 9; msg_row "m4" "c2" HUMAN 12 ];
          grammar_corrections := cs |};
     store := ∅;
     trace := [] |}.

(** The remote calls a tool handler makes: the search and the fresh
    key. *)
Definition is_aux (ev : Event) : bool :=
  match ev with
  | EvSearch _ | EvUuid => true
  | _ => false
  end.

(** A computation whose only remote calls are those of a handler. *)
Definition aux_only {A} (m : M A) : Prop :=
  forall st, exists evs,
    trace (snd (m st)) = trace st ++ evs /\ forallb is_aux evs = true.

(** The correction [c] is linked to the calling user and to a
    human-authored message of the current conversation among [ms]. *)
Definition links_ok (ctx : Context) (ms : list Message)
    (c : GrammarCorrection) : Prop :=
  correction_user_id c = user_id ctx
  /\ exists m, m ∈ ms /\ message_id m = correction_message_id c
               /\ message_conversation_id m = conversation_id ctx
               /\ role m = HUMAN.

(** What the agent may do to the database between two states: the
    messages stay as they are, no user row appears or disappears,
    corrections are only added, each linked as [links_ok] says, and when
    no message had two corrections none has two afterwards. *)
Definition agent_step (ctx : Context) (s s' : State) : Prop :=
  messages (db_session s') = messages (db_session s)
  /\ dom (users (db_session s')) = dom (users (db_session s))
  /\ (exists added,
        corrections_of s' = corrections_of s ++ added
        /\ Forall (links_ok ctx (messages (db_session s))) added)
  /\ (NoDup (map correction_message_id (corrections_of s)) ->
      NoDup (map correction_message_id (corrections_of s'))).

Definition keeps (ctx : Context) {A} (m : M A) : Prop :=
  forall st, agent_step ctx st (snd (m st)).



(** An environment whose primary model cannot be reached. *)
Definition unreachable_env : Env :=
  {| llm_invoke := fun _ _ => Raised (Exn OtherException (lit "timed out"));
     websearch_extractor := fun _ _ => Returned {| query := lit "q" |};
     profile_extractor := fun _ _ => no_profile;
     grammar_extractor := fun _ _ => no_grammar;
     web_search_instance := fun _ _ => Returned (ResultsDict []);
     uuid4 := fun t => PyStr.of_nat t;
     integrity_error_text := fun _ => lit "duplicate key";
     MASTER_PROMPT_TEMPLATE_format := fun a => arg_user_input a |}.

(** [LanguageToolAPI.has_errors] ([src/agent/language_tool.py]) *)
Definition has_errors (requests_post : str -> outcome (list LanguageTool.Match))
    (text : str) : bool :=
  let correction := LanguageTool.check_text requests_post text in
  0 <? length (LanguageTool.errors correction).

(** ** [src/tts/service.py] *)

Module TTS.

(** The voices table [VOICE_IDS]. *)
Definition VOICE_IDS : list (str * str) :=
  [ (lit "rachel", lit "21m00Tcm4TlvDq8ikWAM");
    (lit "shaun", lit "mTSvIrm2hmcnOvb21nW2");
    (lit "antoni", lit "ErXwobaYiN019PkySvjV") ].

(** [d.get(key, default)] on a dictionary kept as its items *)
Fixpoint dict_get (d : list (str * str)) (key default : str) : str :=
  match d with
  | [] => default
  | (k, v) :: d' => if bool_decide (k = key) then v else dict_get d' key default
  end.

(** The request handed to [requests.post]; [F] is the type of the two
    voice settings, which are passed on as they come. *)
Record Request (F : Type) := {
  endpoint : str;
  api_key_header : str;
  text : str;
  stability : F;
  similarity_boost : F
}.
Arguments endpoint {F} _.
Arguments api_key_header {F} _.
Arguments text {F} _.
Arguments stability {F} _.
Arguments similarity_boost {F} _.

Record Response := { status_code : Z; content_bytes : list N }.

Section WithService.

Context {F : Type}.

(** [ELEVEN_LABS_API_KEY], Python's [str.lower] and [requests.post] (its
    answer, or the exception it raises) *)
Context (ELEVEN_LABS_API_KEY : str) (lower : str -> str)
        (requests_post : Request F -> outcome Response).

(** The audio, or [None]; with it, the requests that were sent. *)
Definition convert_text_to_speech (message voice : str)
    (stab sim : F) : option (list N) * list (Request F) :=
  match ELEVEN_LABS_API_KEY with
  | [] => (None, [])
  | _ :: _ =>
      match PyStr.strip message with
      | [] => (None, [])
      | _ :: _ =>
          let voice_id :=
            dict_get VOICE_IDS (lower voice)
                     (dict_get VOICE_IDS (lit "rachel") []) in
          let request :=
            {| endpoint :=
                 lit "https://api.elevenlabs.io/v1/text-to-speech/"
                 ++ voice_id;
               api_key_header := ELEVEN_LABS_API_KEY;
               text := message;
               stability := stab;
               similarity_boost := sim |} in
          match requests_post request with
          | Returned response =>
              if (status_code response =? 200)%Z
              then (Some (content_bytes response), [request])
              else (None, [request])
          | Raised _ => (None, [request])
          end
      end
  end.

End WithService.
End TTS.

(** ** [src/conversations/service.py] *)

Module Conversations.

Record Conversation := {
  conv_id : str;
  conv_user_id : str;
  conv_title : str;
  conv_updated_at : Z
}.

(** The database as this service sees it: the tables of the agent's
    session, the [conversations] table, and the [content] column of the
    [messages] table, by message id. *)
Record Database := {
  session : Session;
  conversations : list Conversation;
  contents : gmap (list N) (list N)
}.

Inductive service_exn :=
| ConversationNotFoundError (cid : str)
| PermissionError (text : str)
| OtherError (e : exn).                (* any other exception *)

Inductive result (A : Type) :=
| Ok (a : A)
| Err (e : service_exn).
Arguments Ok {A} a.
Arguments Err {A} e.

(** [src/conversations/models.py] *)
Record ConversationListItem := {
  item_id : str;
  item_title : str;
  item_updated_at : Z
}.

Record MessageDetail := {
  detail_id : str;
  detail_role : MessageRole;
  detail_content : str;
  detail_correction : option SaveGrammarCorrection
}.

Record ConversationHistoryResponse := {
  history_id : str;
  history_title : str;
  history_messages : list MessageDetail
}.

(** [ORDER BY]: rows are put in place one by one; [before x y] says that
    [x] goes in front of [y].  Among rows of equal key the database may
    choose any order; the model keeps the order of the table. *)
Fixpoint insert_row {A} (before : A -> A -> bool) (x : A) (l : list A)
  : list A :=
  match l with
  | [] => [x]
  | y :: l' => if before x y then x :: l else y :: insert_row before x l'
  end.

Definition order_by {A} (before : A -> A -> bool) (l : list A) : list A :=
  foldr (insert_row before) [] l.

Definition updated_desc (a b : Conversation) : bool :=
  (conv_updated_at b <=? conv_updated_at a)%Z.

Definition created_asc (a b : Message) : bool :=
  (created_at a <=? created_at b)%Z.

Definition to_item (conv : Conversation) : ConversationListItem :=
  {| item_id := conv_id conv; item_title := conv_title conv;
     item_updated_at := conv_updated_at conv |}.

Definition get_user_conversations_list (db : Database) (user_id : str)
  : list ConversationListItem :=
  let conversations :=
    order_by updated_desc
      (filter (fun conv => conv_user_id conv = user_id) (conversations db)) in
  map to_item conversations.

(** [conversation.messages]: the relationship, ordered by
    [Message.created_at]. *)
Definition messages_of (db : Database) (cid : str) : list Message :=
  order_by created_asc
    (filter (fun m => message_conversation_id m = cid)
            (messages (session db))).

(** [msg.correction]: the relationship to the one correction of a
    message. *)
Definition correction_of (db : Database) (mid : str)
  : option GrammarCorrection :=
  find (fun c => bool_decide (correction_message_id c = mid))
       (grammar_corrections (session db)).

Definition to_detail (db : Database) (msg : Message) : MessageDetail :=
  {| detail_id := message_id msg;
     detail_role := role msg;
     detail_content := default [] (contents db !! message_id msg);
     detail_correction := correction_data <$> correction_of db (message_id msg) |}.

Definition owned_by (user_id conversation_id : str) (conv : Conversation)
  : bool :=
  bool_decide (conv_id conv = conversation_id)
  && bool_decide (conv_user_id conv = user_id).

Definition get_conversation_history (db : Database)
    (user_id conversation_id : str) : result ConversationHistoryResponse :=
  match find (owned_by user_id conversation_id) (conversations db) with
  | None => Err (ConversationNotFoundError conversation_id)
  | Some conversation =>
      Ok {| history_id := conv_id conversation;
            history_title := conv_title conversation;
            history_messages :=
              map (to_detail db) (messages_of db (conv_id conversation)) |}
  end.

(** [db.delete(conversation); db.commit()]: the row goes, and with it,
    by the cascades declared on [Conversation.messages] and
    [Message.correction], the messages of the conversation and the
    corrections of these messages. *)
Definition in_conversation (db : Database) (cid mid : str) : bool :=
  existsb (fun m => bool_decide (message_id m = mid)
                    && bool_decide (message_conversation_id m = cid))
          (messages (session db)).

Definition delete_cascade (db : Database) (conversation : Conversation)
  : Database :=
  let cid := conv_id conversation in
  {| session :=
       {| users := users (session db);
          messages :=
            filter (fun m => message_conversation_id m <> cid)
                   (messages (session db));
          grammar_corrections :=
            filter (fun c => in_conversation db cid (correction_message_id c)
                             = false)
                   (grammar_corrections (session db)) |};
     conversations :=
       filter (fun conv => conv_id conv <> cid) (conversations db);
     contents :=
       filter (fun kv => in_conversation db cid (fst kv) = false)
              (contents db) |}.

(** The outcome, and the database after the call (after [rollback] when
    the call raises). *)
Definition delete_conversation (db : Database)
    (user_id conversation_id : str) : result unit * Database :=
  match find (owned_by user_id conversation_id) (conversations db) with
  | None =>
      match find (fun conv => bool_decide (conv_id conv = conversation_id))
                 (conversations db) with
      | Some existing_conversation =>
          (Err (PermissionError
                  (lit "You don't have permission to delete this conversation")),
           db)
      | None => (Err (ConversationNotFoundError conversation_id), db)
      end
  | Some conversation => (Ok tt, delete_cascade db conversation)
  end.

(** The title [create_new_conversation] gives to a conversation:
    [request.content[:60].strip() + ("..." if len(request.content) > 60
    else "")]. *)
Definition new_title (content : str) : str :=
  PyStr.strip (PyStr.slice_to content 60)
  ++ (if 60 <? length content then lit "..." else []).

End Conversations.

(** A small database for the examples: two users' conversations. *)
Definition conv_row (id uid title : string) (t : Z)
  : Conversations.Conversation :=
  {| Conversations.conv_id := lit id;
     Conversations.conv_user_id := lit uid;
     Conversations.conv_title := lit title;
     Conversations.conv_updated_at := t |}.

Definition two_users_db : Conversations.Database :=
  {| Conversations.session :=
       db_session
         (talk_state [correction_row ctx0 (msg_row "m3" "c1" HUMAN 9) went]);
     Conversations.conversations :=
       [ conv_row "c1" "u1" "Going home" 20;
         conv_row "c2" "u2" "Chess" 30;
         conv_row "c3" "u1" "Holidays" 40 ];
     Conversations.contents :=
       {[ lit "m1" := lit "I goed home"; lit "m3" := lit "I goed home" ]} |}.

(** ** [semantic_check_node] and the compiled graph of
    [src/agent/grammar_pipe.py]; [process_new_message] and
    [create_new_conversation] of [src/conversations/service.py] *)

Module Service.

(** [langdetect.detect]: a language code, or [LangDetectException] *)
Inductive Detection :=
| Detected (lang : str)
| LangDetectException.

(** What the service needs from outside, next to the agent's own
    collaborators: the language detector, the clock, the proofreading
    call, the model of the usage stage, the text an f-string gives for a
    role, the texts [str(item.value)] of the items that
    [store.search(("profile", user_id))] finds, and the database's
    complaints about a message row and about a conversation row. *)
Record AppEnv := {
  agent_env : Env;
  detect : nat -> str -> Detection;
  utcnow : nat -> Z;
  proofread : str -> outcome (list LanguageTool.Match);
  semantic_llm_invoke : nat -> str -> outcome str;
  role_text : MessageRole -> str;
  search_profile :
    gmap (list (list N) * list N) StoreValue -> str -> list str;
  message_error_text : Message -> str;
  conversation_error_text : Conversations.Conversation -> str
}.

Record AppState := {
  database : Conversations.Database;
  app_store : gmap (list (list N) * list N) StoreValue;
  app_trace : list Event
}.

(** The agent's view of the service's state, and the service's state
    after the agent has run. *)
Definition to_state (a : AppState) : State :=
  {| db_session := Conversations.session (database a);
     store := app_store a;
     trace := app_trace a |}.

Definition of_state (a : AppState) (s : State) : AppState :=
  {| database :=
       {| Conversations.session := db_session s;
          Conversations.conversations :=
            Conversations.conversations (database a);
          Conversations.contents := Conversations.contents (database a) |};
     app_store := store s;
     app_trace := trace s |}.

Record NewConversationResponse := {
  response : str;
  response_conversation_id : str;
  response_title : str
}.

Definition REFUSAL : str :=
  lit "I'm sorry, I can only chat in English. Could you please rephrase your message?".

Definition NO_PROFILE : str := lit "Nenhum perfil salvo ainda.".

(** The prompt of [semantic_check_node]. *)
Definition semantic_prompt (user_input syntactic_analysis : str) : str :=
  nl
  ++ lit "    You are an expert in English linguistics, focusing on semantics and natural language use for voice conversations."
  ++ nl
  ++ lit "    Your task is to analyze a sentence from an English learner and find errors that an automatic syntax tool might miss."
  ++ nl
  ++ lit "    You MUST IGNORE all punctuation errors. The input comes from a voice-to-text system where punctuation is not relevant."
  ++ nl
  ++ nl
  ++ lit "    User's Sentence: "
  ++ [34%N]
  ++ user_input
  ++ [34%N]
  ++ nl
  ++ nl
  ++ lit "    Analysis from the Syntactic Tool:"
  ++ nl
  ++ lit "    "
  ++ [34%N]
  ++ syntactic_analysis
  ++ [34%N]
  ++ nl
  ++ nl
  ++ lit "    Your Analysis:"
  ++ nl
  ++ lit "    1.  Review the user's sentence."
  ++ nl
  ++ lit "    2.  Are there any semantic errors, incorrect word choices (e.g., 'their' vs 'there'), or phrases that sound unnatural, even if grammatically correct?"
  ++ nl
  ++ lit "    3.  Provide a clear and concise explanation for each semantic or usage error you find."
  ++ nl
  ++ lit "    4.  If no additional semantic errors are found, respond ONLY with "
  ++ [34%N]
  ++ lit "No additional semantic errors found."
  ++ [34%N]
  ++ lit "."
  ++ nl
  ++ lit "    ".

Section WithEnv.

Context (aenv : AppEnv).

(** [preprocessing_graph.invoke]: the syntactic node, then the semantic
    node; the values of the keys [syntactic_analysis] and
    [semantic_analysis] of the final state. *)
Definition preprocess (t : nat) (user_input : str) : outcome (str * str) :=
  let syntactic_analysis :=
    GrammarPipe.syntactic_check_node (proofread aenv) user_input in
  match semantic_llm_invoke aenv t
          (semantic_prompt user_input syntactic_analysis) with
  | Returned semantic_analysis =>
      Returned (syntactic_analysis, semantic_analysis)
  | Raised e => Raised e
  end.

(** A [Message(...)] row as the insert fills it: the column defaults
    give the id ([uuid.uuid4]) and [created_at] ([datetime.utcnow]). *)
Definition fresh_row (conversation_id : str) (r : MessageRole)
    (a : AppState) : Message * AppState :=
  ({| message_id := uuid4 (agent_env aenv) (length (app_trace a));
      message_conversation_id := conversation_id;
      role := r;
      created_at := utcnow aenv (length (app_trace a)) |},
   {| database := database a; app_store := app_store a;
      app_trace := app_trace a ++ [EvUuid] |}).

(** The constraints of the [messages] table: the id is the primary key,
    the conversation a foreign key. *)
Definition valid_insert (db : Conversations.Database) (m : Message) : bool :=
  negb (existsb (fun m' => bool_decide (message_id m' = message_id m))
                (messages (Conversations.session db)))
  && existsb (fun c => bool_decide (Conversations.conv_id c
                                    = message_conversation_id m))
             (Conversations.conversations db).

Definition write_message (db : Conversations.Database) (m : Message)
    (content : str) : Conversations.Database :=
  {| Conversations.session :=
       {| users := users (Conversations.session db);
          messages := messages (Conversations.session db) ++ [m];
          grammar_corrections :=
            grammar_corrections (Conversations.session db) |};
     Conversations.conversations := Conversations.conversations db;
     Conversations.contents :=
       <[message_id m := content]> (Conversations.contents db) |}.

Definition with_database (a : AppState) (db : Conversations.Database)
  : AppState :=
  {| database := db; app_store := app_store a; app_trace := app_trace a |}.

Definition integrity_error (m : Message) : Conversations.service_exn :=
  Conversations.OtherError (Exn IntegrityError (message_error_text aenv m)).

(** [conversation.updated_at = datetime.utcnow()] on the first row of
    that id *)
Fixpoint touch (now : Z) (conversation_id : str)
    (l : list Conversations.Conversation) : list Conversations.Conversation :=
  match l with
  | [] => []
  | c :: l' =>
      if bool_decide (Conversations.conv_id c = conversation_id)
      then {| Conversations.conv_id := Conversations.conv_id c;
              Conversations.conv_user_id := Conversations.conv_user_id c;
              Conversations.conv_title := Conversations.conv_title c;
              Conversations.conv_updated_at := now |} :: l'
      else c :: touch now conversation_id l'
  end.

(** The part of [process_new_message] after the language check. *)
Definition answer_in_english (a : AppState)
    (user_id conversation_id user_input : str)
  : Conversations.result str * AppState :=
  (* db.add(user_message); db.commit(); db.refresh(user_message) *)
  let (user_message, a1) := fresh_row conversation_id HUMAN a in
  if negb (valid_insert (database a1) user_message)
  then (Conversations.Err (integrity_error user_message), a1)
  else
    let a2 :=
      with_database a1 (write_message (database a1) user_message user_input)
    in
    match Conversations.get_conversation_history (database a2) user_id
            conversation_id with
    | Conversations.Err e => (Conversations.Err e, a2)
    | Conversations.Ok history =>
        let conversation_history_list :=
          map (fun msg => (role_text aenv (Conversations.detail_role msg),
                           Conversations.detail_content msg))
              (Conversations.history_messages history) in
        let user_profile_str :=
          match search_profile aenv (app_store a2) user_id with
          | [] => NO_PROFILE
          | first :: _ => first
          end in
        match preprocess (length (app_trace a2)) user_input with
        | Raised e => (Conversations.Err (Conversations.OtherError e), a2)
        | Returned (syntactic_analysis, semantic_analysis) =>
            match Executor.run_afm_cycle (agent_env aenv) user_input
                    conversation_history_list user_profile_str
                    syntactic_analysis semantic_analysis
                    {| user_id := user_id;
                       conversation_id := conversation_id |}
                    (to_state a2) with
            | (Raised e, s) =>
                (Conversations.Err (Conversations.OtherError e), of_state a2 s)
            | (Returned final_answer, s) =>
                let a3 := of_state a2 s in
                let now := utcnow aenv (length (app_trace a3)) in
                let (ai_message, a4) := fresh_row conversation_id AI a3 in
                if negb (valid_insert (database a4) ai_message)
                then (Conversations.Err (integrity_error ai_message), a4)
                else
                  let db := write_message (database a4) ai_message
                              final_answer in
                  (Conversations.Ok final_answer,
                   with_database a4
                     {| Conversations.session := Conversations.session db;
                        Conversations.conversations :=
                          touch now conversation_id
                                (Conversations.conversations db);
                        Conversations.contents :=
                          Conversations.contents db |})
            end
        end
    end.

(** The branch for a message that is not in English: both messages are
    added and committed together. *)
Definition refuse (a : AppState) (conversation_id user_input : str)
  : Conversations.result str * AppState :=
  let (user_message, a1) := fresh_row conversation_id HUMAN a in
  let (ai_message, a2) := fresh_row conversation_id AI a1 in
  let db1 := write_message (database a2) user_message user_input in
  if negb (valid_insert (database a2) user_message)
  then (Conversations.Err (integrity_error user_message), a2)
  else if negb (valid_insert db1 ai_message)
  then (Conversations.Err (integrity_error ai_message), a2)
  else (Conversations.Ok REFUSAL,
        with_database a2 (write_message db1 ai_message REFUSAL)).

Definition process_new_message (a : AppState)
    (user_id conversation_id user_input : str)
  : Conversations.result str * AppState :=
  match detect aenv (length (app_trace a)) user_input with
  | Detected lang =>
      if bool_decide (lang = lit "en")
      then answer_in_english a user_id conversation_id user_input
      else refuse a conversation_id user_input
  | LangDetectException =>
      answer_in_english a user_id conversation_id user_input
  end.

(** The constraints of the [conversations] table: the id is the primary
    key, the user a foreign key. *)
Definition valid_conversation (db : Conversations.Database)
    (c : Conversations.Conversation) : bool :=
  negb (existsb (fun c' => bool_decide (Conversations.conv_id c'
                                        = Conversations.conv_id c))
                (Conversations.conversations db))
  && bool_decide (is_Some (users (Conversations.session db)
                             !! Conversations.conv_user_id c)).

Definition create_new_conversation (a : AppState) (user_id content : str)
  : Conversations.result NewConversationResponse * AppState :=
  let title := Conversations.new_title content in
  (* db.add(new_conversation); db.commit(); db.refresh(new_conversation) *)
  let new_conversation :=
    {| Conversations.conv_id :=
         uuid4 (agent_env aenv) (length (app_trace a));
       Conversations.conv_user_id := user_id;
       Conversations.conv_title := title;
       Conversations.conv_updated_at := utcnow aenv (length (app_trace a)) |}
  in
  let a1 := {| database := database a; app_store := app_store a;
               app_trace := app_trace a ++ [EvUuid] |} in
  if negb (valid_conversation (database a1) new_conversation)
  then (Conversations.Err
          (Conversations.OtherError
             (Exn IntegrityError
                  (conversation_error_text aenv new_conversation))), a1)
  else
    let a2 :=
      with_database a1
        {| Conversations.session := Conversations.session (database a1);
           Conversations.conversations :=
             Conversations.conversations (database a1) ++ [new_conversation];
           Conversations.contents := Conversations.contents (database a1) |}
    in
    match process_new_message a2 user_id
            (Conversations.conv_id new_conversation) content with
    | (Conversations.Ok final_answer, a3) =>
        (Conversations.Ok
           {| response := final_answer;
              response_conversation_id :=
                Conversations.conv_id new_conversation;
              response_title := title |}, a3)
    | (Conversations.Err e, a3) => (Conversations.Err e, a3)
    end.

End WithEnv.
End Service.

(** ** Statements about the message service *)

(** The language check lets the message through: the detector names
    English, or fails. *)
Definition taken_as_english (aenv : Service.AppEnv) (a : Service.AppState)
    (user_input : str) : Prop :=
  forall lang,
    Service.detect aenv (length (Service.app_trace a)) user_input
    = Service.Detected lang ->
    lang = lit "en".

(** What identifies a conversation: its id, its owner and its title. *)
Definition conversation_key (c : Conversations.Conversation)
  : str * str * str :=
  (Conversations.conv_id c, Conversations.conv_user_id c,
   Conversations.conv_title c).

(** Two environments that agree on all that the database and the
    language detector contribute. *)
Definition same_outside_models (aenv aenv' : Service.AppEnv) : Prop :=
  (forall t s, Service.detect aenv' t s = Service.detect aenv t s)
  /\ (forall t, uuid4 (Service.agent_env aenv') t
                = uuid4 (Service.agent_env aenv) t)
  /\ (forall t, Service.utcnow aenv' t = Service.utcnow aenv t)
  /\ (forall m, Service.message_error_text aenv' m
                = Service.message_error_text aenv m).

(** An environment for the examples: the detector answers [d], the
    primary model follows [script], proofreading finds nothing. *)
Definition app_env (d : Service.Detection) (script : list str)
  : Service.AppEnv :=
  {| Service.agent_env :=
       scripted_env script (lit "Sorry?") no_profile no_grammar;
     Service.detect := fun _ _ => d;
     Service.utcnow := fun t => (100 + Z.of_nat t)%Z;
     Service.proofread := fun _ => Returned [];
     Service.semantic_llm_invoke :=
       fun _ _ => Returned (lit "No additional semantic errors found.");
     Service.role_text :=
       fun r => match r with HUMAN => lit "human" | AI => lit "ai" end;
     Service.search_profile := fun _ _ => [];
     Service.message_error_text := fun _ => lit "duplicate key";
     Service.conversation_error_text := fun _ => lit "duplicate key" |}.

Definition app_state (db : Conversations.Database) : Service.AppState :=
  {| Service.database := db; Service.app_store := ∅;
     Service.app_trace := [] |}.

(** * Properties of the string operations *)

Example split_example :
  PyStr.split (lit "ab") (lit "xabyabab") = [lit "x"; lit "y"; []; []].
Proof. reflexivity. Qed.

Example strip_example : PyStr.strip (lit "  a b ") = lit "a b".
Proof. reflexivity. Qed.

Example slice_example :
  PyStr.slice_to (lit "hello") (-2) = lit "hel"
  /\ PyStr.slice_from (lit "hello") 9 = [].
Proof. split; reflexivity. Qed.

Example check_text_example :
  LanguageTool.corrected_text
    (LanguageTool.check_text
       (fun _ => Returned [mk_match 2 3 [lit "went"]; mk_match 14 3 [lit "a"]])
       (lit "I goe home in the dark"))
  = lit "I went home in a dark".
Proof. vm_compute. reflexivity. Qed.

Section StringFacts.

Import PyStr.

Lemma startswith_iff (p s : str) :
  startswith p s = true <-> exists t, s = p ++ t.
Proof.
  revert s. induction p as [|a p IH]; intros s; simpl.
  - split; eauto.
  - destruct s as [|b s]; simpl.
    + split; [discriminate | intros [t Ht]; discriminate].
    + rewrite andb_true_iff, N.eqb_eq, IH. split.
      * intros [-> [t ->]]. eauto.
      * intros [t Ht]. injection Ht as -> ->. eauto.
Qed.

Lemma contains_iff (sub s : str) :
  contains sub s = true <-> exists a b, s = a ++ sub ++ b.
Proof.
  induction s as [|c s IH].
  - simpl. rewrite orb_false_r, startswith_iff. split.
    + intros [t Ht]. exists [], t. exact Ht.
    + intros [a [b H]]. destruct a; simpl in H.
      * eauto.
      * discriminate.
  - simpl. rewrite orb_true_iff, startswith_iff, IH. split.
    + intros [[t Ht] | [a [b Hab]]].
      * exists [], t. exact Ht.
      * exists (c :: a), b. simpl. now rewrite Hab.
    + intros [a [b H]]. destruct a as [|a0 a]; simpl in H.
      * left. eauto.
      * right. injection H as -> ->. eauto.
Qed.

(** A sub-string of a sub-string occurs in the whole. *)
Lemma contains_app_r (p q s : str) :
  contains (p ++ q) s = true -> contains q s = true.
Proof.
  rewrite !contains_iff. intros [a [b ->]].
  exists (a ++ p), b. now rewrite <- !app_assoc.
Qed.

Lemma split_from_skip (sep : str) (pre s cur : str) :
  split_from sep (length pre) cur (pre ++ s) = split_from sep 0 cur s.
Proof.
  induction pre as [|c pre IH]; simpl.
  - destruct s; reflexivity.
  - exact IH.
Qed.

Lemma split_from_nonempty (sep : str) (k : nat) (cur s : str) :
  split_from sep k cur s <> [].
Proof.
  revert k cur. induction s as [|c s IH]; intros k cur; simpl.
  - discriminate.
  - destruct k; [destruct (startswith sep (c :: s))|]; try discriminate;
      apply IH.
Qed.

(** The scan passes over a stretch in which the separator starts
    nowhere. *)
Lemma split_from_pass (sep : str) (p s cur : str) :
  (forall i, i < length p -> startswith sep (skipn i (p ++ s)) = false) ->
  split_from sep 0 cur (p ++ s) = split_from sep 0 (rev p ++ cur) s.
Proof.
  revert cur. induction p as [|c p IH]; intros cur Hno.
  - reflexivity.
  - change ((c :: p) ++ s) with (c :: (p ++ s)).
    cbn [split_from].
    pose proof (Hno 0 ltac:(simpl; lia)) as H0. simpl in H0.
    change (startswith sep (c :: p ++ s)) with
      (startswith sep (c :: (p ++ s))).
    rewrite H0. rewrite IH.
    + simpl. now rewrite <- app_assoc.
    + intros i Hi. apply (Hno (S i)). simpl. lia.
Qed.

(** The accumulated piece is a prefix of the first piece emitted. *)
Lemma split_from_head (sep : str) (cur s : str) :
  exists h rest, split_from sep 0 [] s = h :: rest
                 /\ split_from sep 0 cur s = (rev cur ++ h) :: rest.
Proof.
  assert (G : forall s cur0 cur,
             exists h rest, split_from sep 0 cur0 s = (rev cur0 ++ h) :: rest
               /\ split_from sep 0 cur s = (rev cur ++ h) :: rest).
  { clear. induction s as [|c s IH]; intros cur0 cur.
    - exists [], []. simpl. now rewrite !app_nil_r.
    - cbn [split_from]. destruct (startswith sep (c :: s)).
      + exists [], (split_from sep (length sep - 1) [] s).
        now rewrite !app_nil_r.
      + destruct (IH (c :: cur0) (c :: cur)) as [h [rest [H1 H2]]].
        exists (c :: h), rest. rewrite H1, H2. simpl.
        now rewrite <- !app_assoc. }
  destruct (G s [] cur) as [h [rest [H1 H2]]]. eauto.
Qed.

End StringFacts.

(** ** Delimited sections

    An opening and a closing delimiter that start with the same
    character, which occurs nowhere else in them. *)

Section Delimiters.

Import PyStr.

Variables (c0 : char) (ro rc : str).
Hypothesis c0_ro : c0 ∉ ro.
Hypothesis c0_rc : c0 ∉ rc.
Hypothesis differ : forall s, startswith (c0 :: ro) ((c0 :: rc) ++ s) = false.

Lemma startswith_app_cases (p a s : str) :
  startswith p (a ++ c0 :: s) = true ->
  startswith p a = true \/ exists p2, p = a ++ c0 :: p2.
Proof.
  revert p. induction a as [|x a IH]; intros p H.
  - destruct p as [|y p]; [now left|]. right.
    simpl in H. apply andb_true_iff in H as [Hy _].
    apply N.eqb_eq in Hy. subst y. now exists p.
  - destruct p as [|y p]; [now left|].
    simpl in H. apply andb_true_iff in H as [Hy Hp].
    apply N.eqb_eq in Hy. subst y.
    destruct (IH p Hp) as [Hl | [p2 ->]].
    + left. simpl. now rewrite N.eqb_refl.
    + right. now exists p2.
Qed.

(** A delimiter cannot start in a non-empty stretch before another
    delimiter and run into it. *)
Lemma no_straddle (r a s : str) :
  c0 ∉ r -> a <> [] ->
  startswith (c0 :: r) (a ++ c0 :: s) = true ->
  startswith (c0 :: r) a = true.
Proof.
  intros Hr Ha H.
  destruct (startswith_app_cases _ _ _ H) as [Hl | [p2 Hp]]; [exact Hl|].
  destruct a as [|x a]; [congruence|].
  simpl in Hp. injection Hp as -> ->.
  exfalso. apply Hr. apply list_elem_of_In, in_or_app. right. now left.
Qed.

Lemma tag_pass (r a s : str) :
  c0 ∉ r -> contains (c0 :: r) a = false ->
  forall i, i < length a ->
    startswith (c0 :: r) (skipn i (a ++ c0 :: s)) = false.
Proof.
  intros Hr Hno i Hi.
  rewrite skipn_app.
  replace (i - length a) with 0 by lia. cbn [skipn].
  destruct (startswith (c0 :: r) (skipn i a ++ c0 :: s)) eqn:E; [|easy].
  apply no_straddle in E; [|exact Hr|].
  - apply startswith_iff in E as [t Ht].
    assert (contains (c0 :: r) a = true); [|congruence].
    apply contains_iff. exists (firstn i a), t.
    rewrite <- Ht. symmetry. apply firstn_skipn.
  - intros Hnil. apply (f_equal (@length N)) in Hnil.
    rewrite length_skipn in Hnil. simpl in Hnil. lia.
Qed.

(** The text before the first delimiter is the first piece. *)
Lemma split_from_tag (r a s cur : str) :
  c0 ∉ r -> contains (c0 :: r) a = false ->
  split_from (c0 :: r) 0 cur (a ++ (c0 :: r) ++ s)
  = (rev cur ++ a) :: split_from (c0 :: r) 0 [] s.
Proof.
  intros Hr Hno.
  change ((c0 :: r) ++ s) with (c0 :: (r ++ s)).
  rewrite split_from_pass by (now apply tag_pass).
  cbn [split_from].
  assert (Hsw : startswith (c0 :: r) (c0 :: r ++ s) = true).
  { apply startswith_iff. now exists s. }
  rewrite Hsw.
  replace (length (c0 :: r) - 1) with (length r) by (simpl; lia).
  rewrite split_from_skip, rev_app_distr, rev_involutive.
  reflexivity.
Qed.

Lemma close_pass (s : str) :
  forall i, i < length (c0 :: rc) ->
    startswith (c0 :: ro) (skipn i ((c0 :: rc) ++ s)) = false.
Proof.
  intros [|i] Hi.
  - apply differ.
  - simpl in Hi. cbn [app skipn].
    rewrite skipn_app. replace (i - length rc) with 0 by lia.
    cbn [skipn].
    destruct (skipn i rc) as [|y t] eqn:E.
    + apply (f_equal (@length N)) in E. rewrite length_skipn in E.
      simpl in E. lia.
    + simpl. destruct (N.eqb_spec c0 y) as [->|]; [|reflexivity].
      exfalso. apply c0_rc. apply list_elem_of_In.
      rewrite <- (firstn_skipn i rc). apply in_or_app. right.
      rewrite E. now left.
Qed.

(** [between] on a response that holds a delimited section: the first
    opening delimiter of the response opens it, and its body holds
    neither delimiter. *)
Lemma between_section (a x b : str) (st : State) :
  contains (c0 :: ro) a = false ->
  contains (c0 :: ro) x = false ->
  contains (c0 :: rc) x = false ->
  Executor.between (c0 :: ro) (c0 :: rc)
    (a ++ (c0 :: ro) ++ x ++ (c0 :: rc) ++ b) st
  = (Returned (strip x), st).
Proof.
  intros Ha Hxo Hxc.
  unfold Executor.between, split.
  rewrite split_from_tag by assumption. simpl rev. cbn [app].
  change ((c0 :: rc) ++ b) with (c0 :: (rc ++ b)).
  rewrite split_from_pass by (now apply tag_pass).
  change (c0 :: (rc ++ b)) with ((c0 :: rc) ++ b).
  rewrite split_from_pass by apply close_pass.
  destruct (split_from_head (c0 :: ro) (rev (c0 :: rc) ++ rev x ++ []) b)
    as [h [rest [_ ->]]].
  rewrite !rev_app_distr, !rev_involutive. simpl rev. cbn [app].
  unfold bind, index, ret. cbn [nth_error].
  rewrite <- app_assoc.
  pose proof (split_from_tag rc x h [] c0_rc Hxc) as E.
  simpl rev in E. cbn [app] in E.
  change ((c0 :: rc) ++ h) with (c0 :: rc ++ h) in *.
  rewrite E. reflexivity.
Qed.

End Delimiters.

(** * Properties of the monadic operations *)

Lemma llm_calls_app (a b : list Event) :
  llm_calls (a ++ b) = llm_calls a + llm_calls b.
Proof.
  induction a as [|ev a IH]; [reflexivity|].
  destruct ev; simpl; rewrite IH; reflexivity.
Qed.

Section MonadFacts.

Context {A B : Type}.

Lemma quiet_ret (a : A) : quiet (ret a).
Proof. intros st. exists []. simpl. now rewrite app_nil_r. Qed.

Lemma quiet_raise (e : exn) : quiet (@raise A e).
Proof. intros st. exists []. simpl. now rewrite app_nil_r. Qed.

Lemma quiet_bind (m : M A) (k : A -> M B) :
  quiet m -> (forall a, quiet (k a)) -> quiet (bind m k).
Proof.
  intros Hm Hk st. unfold bind.
  destruct (Hm st) as [evs [Ht Hc]].
  destruct (m st) as [[a|e] st1]; simpl in Ht.
  - destruct (Hk a st1) as [evs' [Ht' Hc']].
    exists (evs ++ evs'). split; [now rewrite Ht', Ht, app_assoc|].
    rewrite llm_calls_app. lia.
  - exists evs. simpl. auto.
Qed.

Lemma quiet_try (body : M A) (handler : exn -> M A) :
  quiet body -> (forall e, quiet (handler e)) ->
  quiet (try_except body handler).
Proof.
  intros Hm Hk st. unfold try_except.
  destruct (Hm st) as [evs [Ht Hc]].
  destruct (body st) as [[a|e] st1]; simpl in Ht.
  - exists evs. simpl. auto.
  - destruct (Hk e st1) as [evs' [Ht' Hc']].
    exists (evs ++ evs'). split; [now rewrite Ht', Ht, app_assoc|].
    rewrite llm_calls_app. lia.
Qed.

Lemma quiet_remote (ev : Event) (oracle : nat -> outcome A) :
  llm_calls [ev] = 0 -> quiet (remote ev oracle).
Proof. intros H st. exists [ev]. simpl. auto. Qed.

Lemma quiet_index (xs : list A) (i : nat) : quiet (index xs i).
Proof.
  unfold index. destruct (nth_error xs i);
    [apply quiet_ret | apply quiet_raise].
Qed.

Lemma total_ret (a : A) : total (ret a).
Proof. intros st. now exists a. Qed.

Lemma total_try (body : M A) (handler : exn -> M A) :
  (forall e, total (handler e)) -> total (try_except body handler).
Proof.
  intros Hk st. unfold try_except.
  destruct (body st) as [[a|e] st1]; [now exists a | apply Hk].
Qed.

End MonadFacts.

Lemma quiet_get_db : quiet get_db.
Proof. intros st. exists []. simpl. now rewrite app_nil_r. Qed.

Lemma quiet_set_db (d : Session) : quiet (set_db d).
Proof. intros st. exists []. simpl. now rewrite app_nil_r. Qed.

Lemma quiet_store_put ns key v : quiet (store_put ns key v).
Proof. intros st. exists []. simpl. now rewrite app_nil_r. Qed.

Ltac quiet_step :=
  first
    [ apply quiet_ret | apply quiet_raise | apply quiet_index
    | apply quiet_get_db | apply quiet_set_db | apply quiet_store_put
    | apply quiet_remote; reflexivity
    | apply quiet_try | apply quiet_bind
    | match goal with
      | |- quiet (match ?x with _ => _ end) => destruct x
      | |- forall _, _ => intro
      end ].

Section HandlerFacts.

Context (env : Env).

Lemma quiet_update_user_profile ctx p :
  quiet (Tools.update_user_profile ctx p).
Proof.
  unfold Tools.update_user_profile, Tools.commit_user.
  repeat quiet_step.
Qed.

Lemma quiet_save_grammar_correction ctx p :
  quiet (Tools.save_grammar_correction env ctx p).
Proof.
  unfold Tools.save_grammar_correction, Tools.commit_correction.
  repeat quiet_step.
Qed.

Lemma quiet_execute_web_search p : quiet (Tools.execute_web_search env p).
Proof. unfold Tools.execute_web_search. repeat quiet_step. Qed.

Lemma quiet_execute_tool tool_name ctx params :
  quiet (Tools.execute_tool env tool_name ctx params).
Proof.
  unfold Tools.execute_tool, Tools.call_handler.
  repeat case_bool_decide; repeat quiet_step;
    first [ apply quiet_execute_web_search
          | apply quiet_update_user_profile
          | apply quiet_save_grammar_correction ].
Qed.

Lemma quiet_between open close s : quiet (Executor.between open close s).
Proof. unfold Executor.between. repeat quiet_step. Qed.

Lemma quiet_tool_call_turn ctx c : quiet (Executor.tool_call_turn env ctx c).
Proof.
  unfold Executor.tool_call_turn, Executor.select_tool.
  repeat quiet_step; apply quiet_execute_tool.
Qed.

Lemma total_tool_call_turn ctx c : total (Executor.tool_call_turn env ctx c).
Proof.
  unfold Executor.tool_call_turn. apply total_try.
  intros e. destruct (exn_class_of e); apply total_ret.
Qed.

End HandlerFacts.

(** * The agent loop *)

Section LoopFacts.

Import PyStr Executor.

Context (env : Env).

Lemma lt_not_in_tag (r : string) :
  forallb (fun c => negb (N.eqb 60 c)) (lit r) = true -> 60%N ∉ lit r.
Proof.
  intros H Hin. apply list_elem_of_In in Hin.
  rewrite forallb_forall in H. specialize (H _ Hin).
  now rewrite N.eqb_refl in H.
Qed.

Lemma final_section (a x b : str) (st : State) :
  contains FINAL_OPEN a = false ->
  contains FINAL_OPEN x = false ->
  contains FINAL_CLOSE x = false ->
  between FINAL_OPEN FINAL_CLOSE
    (a ++ FINAL_OPEN ++ x ++ FINAL_CLOSE ++ b) st
  = (Returned (strip x), st).
Proof.
  apply (between_section 60%N (lit "final_answer>") (lit "/final_answer>")).
  - now apply lt_not_in_tag.
  - now apply lt_not_in_tag.
  - intros s. reflexivity.
Qed.

Lemma tool_section (a x b : str) (st : State) :
  contains TOOL_OPEN a = false ->
  contains TOOL_OPEN x = false ->
  contains TOOL_CLOSE x = false ->
  between TOOL_OPEN TOOL_CLOSE
    (a ++ TOOL_OPEN ++ x ++ TOOL_CLOSE ++ b) st
  = (Returned (strip x), st).
Proof.
  apply (between_section 60%N (lit "tool_call>") (lit "/tool_call>")).
  - now apply lt_not_in_tag.
  - now apply lt_not_in_tag.
  - intros s. reflexivity.
Qed.

Lemma contains_section (open x rest a : str) :
  contains open (a ++ open ++ x ++ rest) = true.
Proof. apply contains_iff. now exists a, (x ++ rest). Qed.

(** When the separator occurs, [split] gives at least two pieces. *)
Lemma split_from_two (sep s cur : str) :
  sep <> [] -> contains sep s = true ->
  exists p q rest, split_from sep 0 cur s = p :: q :: rest.
Proof.
  intros Hsep. revert cur. induction s as [|c s IH]; intros cur H.
  - destruct sep; [congruence | discriminate].
  - cbn [split_from]. cbn [contains] in H.
    destruct (startswith sep (c :: s)) eqn:E.
    + destruct (split_from sep (length sep - 1) [] s) as [|q rest] eqn:E2.
      * now apply split_from_nonempty in E2.
      * now exists (rev cur), q, rest.
    + cbn [orb] in H. now apply IH.
Qed.

Lemma between_total (open close s : str) :
  open <> [] -> contains open s = true ->
  exists c, forall st, between open close s st = (Returned c, st).
Proof.
  intros Ho Hc.
  destruct (split_from_two open s [] Ho Hc) as [p [q [rest E]]].
  destruct (split close q) as [|h t] eqn:E2.
  { now apply split_from_nonempty in E2. }
  exists (strip h). intros st.
  unfold between, split, bind, index, ret in *. rewrite E. cbn.
  rewrite E2. reflexivity.
Qed.

(** One turn of the loop, case by case. *)
Lemma afm_turns_S (n : nat) (ctx : Context) (msgs : list BaseMessage)
    (st : State) :
  afm_turns env (S n) ctx msgs st =
  match llm_invoke env (length (trace st)) msgs with
  | Raised e => (Raised e, logged st [EvLlm msgs])
  | Returned r =>
      (if contains FINAL_OPEN r then between FINAL_OPEN FINAL_CLOSE r
       else if contains TOOL_OPEN r then
         let* c := between TOOL_OPEN TOOL_CLOSE r in
         let* obs := tool_call_turn env ctx c in
         afm_turns env n ctx ((msgs ++ [AIMessage r]) ++ [obs])
       else ret (strip r)) (logged st [EvLlm msgs])
  end.
Proof.
  cbn [afm_turns]. unfold bind at 1, remote.
  destruct (llm_invoke env (length (trace st)) msgs); reflexivity.
Qed.

Lemma afm_turns_final_section n ctx msgs st a x b :
  llm_invoke env (length (trace st)) msgs
  = Returned (a ++ FINAL_OPEN ++ x ++ FINAL_CLOSE ++ b) ->
  contains FINAL_OPEN a = false ->
  contains FINAL_OPEN x = false ->
  contains FINAL_CLOSE x = false ->
  afm_turns env (S n) ctx msgs st
  = (Returned (strip x), logged st [EvLlm msgs]).
Proof.
  intros Hr Ha Hxo Hxc. rewrite afm_turns_S, Hr.
  rewrite contains_section. now apply final_section.
Qed.

(** A turn whose response holds a tool-call section and no final-answer
    delimiter: the loop goes on with the transcript extended by the
    response and by the message of [tool_call_turn]. *)
Lemma afm_turns_tool_section n ctx msgs st a x b :
  let r := a ++ TOOL_OPEN ++ x ++ TOOL_CLOSE ++ b in
  llm_invoke env (length (trace st)) msgs = Returned r ->
  contains FINAL_OPEN r = false ->
  contains TOOL_OPEN a = false ->
  contains TOOL_OPEN x = false ->
  contains TOOL_CLOSE x = false ->
  afm_turns env (S n) ctx msgs st
  = (let* obs := tool_call_turn env ctx (strip x) in
     afm_turns env n ctx (msgs ++ [AIMessage r; obs]))
      (logged st [EvLlm msgs]).
Proof.
  intros r Hr Hf Ha Hxo Hxc. rewrite afm_turns_S, Hr, Hf.
  unfold r at 1. rewrite contains_section.
  unfold bind at 1. unfold r at 1. rewrite tool_section by assumption.
  unfold bind. destruct (tool_call_turn env ctx (strip x) _) as [[obs|e] st1];
    [|reflexivity].
  now rewrite <- app_assoc.
Qed.

End LoopFacts.

Section LoopBound.

Import PyStr Executor.

Context (env : Env).

Lemma quiet_bounded {A} (n : nat) (m : M A) : quiet m -> bounded n m.
Proof.
  intros H st. destruct (H st) as [evs [Ht Hc]]. exists evs.
  split; [exact Ht | lia].
Qed.

Lemma bounded_bind_quiet {A B} (n : nat) (m : M A) (k : A -> M B) :
  quiet m -> (forall a, bounded n (k a)) -> bounded n (bind m k).
Proof.
  intros Hm Hk st. unfold bind.
  destruct (Hm st) as [evs [Ht Hc]].
  destruct (m st) as [[a|e] st1]; simpl in Ht.
  - destruct (Hk a st1) as [evs' [Ht' Hc']].
    exists (evs ++ evs'). split; [now rewrite Ht', Ht, app_assoc|].
    rewrite llm_calls_app. lia.
  - exists evs. simpl. split; [exact Ht | lia].
Qed.

(** What follows the model's response [r] in a turn calls the model as
    often as the turns that are left do. *)
Lemma rest_bounded (n : nat) (ctx : Context) (msgs : list BaseMessage)
    (r : str) :
  (forall msgs', bounded n (afm_turns env n ctx msgs')) ->
  bounded n (if contains FINAL_OPEN r
             then between FINAL_OPEN FINAL_CLOSE r
             else if contains TOOL_OPEN r then
               let* c := between TOOL_OPEN TOOL_CLOSE r in
               let* obs := tool_call_turn env ctx c in
               afm_turns env n ctx ((msgs ++ [AIMessage r]) ++ [obs])
             else ret (strip r)).
Proof.
  intros IH. destruct (contains FINAL_OPEN r).
  - apply quiet_bounded, quiet_between.
  - destruct (contains TOOL_OPEN r).
    + apply bounded_bind_quiet; [apply quiet_between|]. intros c.
      apply bounded_bind_quiet; [apply quiet_tool_call_turn|].
      intros obs. apply IH.
    + apply quiet_bounded, quiet_ret.
Qed.

Lemma afm_turns_bounded (n : nat) (ctx : Context) :
  forall msgs, bounded n (afm_turns env n ctx msgs).
Proof.
  induction n as [|n IH]; intros msgs st.
  - exists []. simpl. now rewrite app_nil_r.
  - rewrite afm_turns_S.
    destruct (llm_invoke env (length (trace st)) msgs) as [r|e].
    + destruct (rest_bounded n ctx msgs r IH (logged st [EvLlm msgs]))
        as [evs [Ht Hc]].
      exists (EvLlm msgs :: evs). rewrite Ht. simpl.
      split; [now rewrite <- app_assoc | lia].
    + exists [EvLlm msgs]. simpl. split; [reflexivity | lia].
Qed.

Lemma all_continue_mono (k k' : nat) (tr : list Event) :
  k <= k' -> all_continue env k tr -> all_continue env k' tr.
Proof.
  intros Hk H pre msgs post E Hpre. apply (H pre msgs post E). lia.
Qed.

(** When no turn returns early, the turns are used up and the apology is
    returned. *)
Lemma afm_turns_exhausted (n : nat) (ctx : Context) :
  forall msgs st,
    all_continue env (length (trace st))
      (trace (snd (afm_turns env n ctx msgs st))) ->
    exists st' evs,
      afm_turns env n ctx msgs st = (Returned APOLOGY, st')
      /\ trace st' = trace st ++ evs /\ llm_calls evs = n.
Proof.
  induction n as [|n IH]; intros msgs st H.
  - exists st, []. simpl. now rewrite app_nil_r.
  - rewrite afm_turns_S in *.
    set (st1 := logged st [EvLlm msgs]) in *.
    destruct (llm_invoke env (length (trace st)) msgs) as [r|e] eqn:Hr.
    + destruct (rest_bounded n ctx msgs r (afm_turns_bounded n ctx) st1)
        as [evs' [Ht' _]].
      destruct (H (trace st) msgs evs') as [r' [Hr' [Hf Ht]]].
      { rewrite Ht'. unfold st1. simpl. now rewrite <- app_assoc. }
      { lia. }
      rewrite Hr in Hr'. injection Hr' as <-. clear Ht' evs'.
      rewrite Hf, Ht in *.
      destruct (between_total TOOL_OPEN TOOL_CLOSE r) as [c Hc];
        [discriminate | exact Ht |].
      destruct (total_tool_call_turn env ctx c st1) as [obs Hobs].
      destruct (quiet_tool_call_turn env ctx c st1) as [evs1 [Ht1 Hq1]].
      unfold bind at 1 in H. unfold bind at 1. rewrite Hc in *.
      unfold bind in *.
      destruct (tool_call_turn env ctx c st1) as [[obs'|e] st2];
        [|discriminate].
      simpl in Ht1.
      destruct (IH ((msgs ++ [AIMessage r]) ++ [obs']) st2)
        as [st' [evs2 [Hrun [Ht2 Hq2]]]].
      { eapply all_continue_mono; [|exact H].
        rewrite Ht1. unfold st1. simpl. rewrite !length_app. lia. }
      exists st', (EvLlm msgs :: evs1 ++ evs2). split; [exact Hrun|].
      split.
      * rewrite Ht2, Ht1. unfold st1. simpl. now rewrite <- !app_assoc.
      * simpl. rewrite llm_calls_app. lia.
    + destruct (H (trace st) msgs []) as [r' [Hr' _]];
        [reflexivity | lia | congruence].
Qed.

End LoopBound.

(** * The claims about the agent loop *)

(** C1: whatever the collaborators answer, [run_afm_cycle] returns after
    at most 5 calls of the primary model; and when no turn of the run ends
    the loop early (every call of the model made in the run was answered
    by a response with a tool call and no final-answer delimiter), exactly
    5 calls are made and the fixed apology is returned, not an exception
    and not a sixth call. *)
Theorem run_afm_cycle_at_most_5_calls (env : Env) (user_input : str)
    (history : list (str * str)) (profile syn sem : str) (ctx : Context)
    (st : State) :
  let run :=
    Executor.run_afm_cycle env user_input history profile syn sem ctx st in
  (exists evs, trace (snd run) = trace st ++ evs /\ llm_calls evs <= 5)
  /\ (all_continue env (length (trace st)) (trace (snd run)) ->
      fst run = Returned Executor.APOLOGY
      /\ exists evs, trace (snd run) = trace st ++ evs /\ llm_calls evs = 5).
Proof.
  unfold Executor.run_afm_cycle. cbv zeta. split.
  - apply afm_turns_bounded.
  - intros Hall.
    destruct (afm_turns_exhausted env Executor.max_turns ctx _ _ Hall)
      as [st' [evs [Hrun [Ht Hc]]]].
    rewrite Hrun. simpl. split; [reflexivity|]. now exists evs.
Qed.

Lemma run_afm_cycle_at_most_5_calls_witness :
  let env := scripted_env [] (lit "<tool_call>Translate(hi)</tool_call>")
               no_profile no_grammar in
  let run :=
    Executor.run_afm_cycle env (lit "hi") [] [] [] [] ctx0 empty_state in
  all_continue env (length (trace empty_state)) (trace (snd run))
  /\ fst run = Returned Executor.APOLOGY.
Proof.
  intros env run.
  assert (H : all_continue env (length (trace empty_state))
                (trace (snd run))).
  { intros pre msgs post _ _.
    exists (lit "<tool_call>Translate(hi)</tool_call>").
    split; [simpl; destruct (count_ai msgs); reflexivity|].
    split; reflexivity. }
  split; [exact H|].
  exact (proj1 (proj2 (run_afm_cycle_at_most_5_calls env (lit "hi") [] [] []
                         [] ctx0 empty_state) H)).
Defined.

(** C10: a response that holds a final-answer section and also a tool
    call ends the loop with the trimmed body of the final-answer section;
    the only call recorded for that turn is the call of the primary model,
    and database and store are as before: no extraction and no handler
    ran. *)
Theorem final_answer_precedes_tool_call (env : Env) (n : nat)
    (ctx : Context) (msgs : list BaseMessage) (st : State) (a x b : str) :
  let r := a ++ Executor.FINAL_OPEN ++ x ++ Executor.FINAL_CLOSE ++ b in
  llm_invoke env (length (trace st)) msgs = Returned r ->
  PyStr.contains Executor.TOOL_OPEN r = true ->
  PyStr.contains Executor.FINAL_OPEN a = false ->
  PyStr.contains Executor.FINAL_OPEN x = false ->
  PyStr.contains Executor.FINAL_CLOSE x = false ->
  Executor.afm_turns env (S n) ctx msgs st
  = (Returned (PyStr.strip x),
     {| db_session := db_session st; store := store st;
        trace := trace st ++ [EvLlm msgs] |}).
Proof.
  intros r Hr _ Ha Hxo Hxc.
  exact (afm_turns_final_section env n ctx msgs st a x b Hr Ha Hxo Hxc).
Qed.

Lemma final_answer_precedes_tool_call_witness :
  let r := lit "<plan>p</plan><tool_call>WebSearch(query=x)</tool_call><final_answer> Hi! </final_answer>" in
  Executor.afm_turns (scripted_env [r] [] no_profile no_grammar) 5 ctx0
    [SystemMessage (lit "seed")] empty_state
  = (Returned (lit "Hi!"),
     {| db_session := empty_session; store := ∅;
        trace := [EvLlm [SystemMessage (lit "seed")]] |}).
Proof.
  intros r.
  exact (final_answer_precedes_tool_call
           (scripted_env [r] [] no_profile no_grammar) 4 ctx0
           [SystemMessage (lit "seed")] empty_state
           (lit "<plan>p</plan><tool_call>WebSearch(query=x)</tool_call>")
           (lit " Hi! ") []
           eq_refl eq_refl eq_refl eq_refl eq_refl).
Defined.

(** C2, as stated, fails: a response with neither a final-answer nor a
    tool-call delimiter is returned as the result, so a result is produced
    although no response holds a final-answer section. *)
Lemma final_answer_not_the_only_result :
  let env := scripted_env [lit " Hello there."] [] no_profile no_grammar in
  let run :=
    Executor.run_afm_cycle env (lit "hi") [] [] [] [] ctx0 empty_state in
  fst run = Returned (lit "Hello there.")
  /\ trace (snd run) = [EvLlm [SystemMessage (lit "hi")]]
  /\ llm_invoke env 0 [SystemMessage (lit "hi")]
     = Returned (lit " Hello there.")
  /\ PyStr.contains Executor.FINAL_OPEN (lit " Hello there.") = false.
Proof. vm_compute. repeat split. Qed.

(** C2, amended: a response in which a final-answer section is found (the
    first opening delimiter of the response opens it; its body [x] holds
    neither delimiter) ends the loop with [x] trimmed, whatever else the
    response holds before and after the section; and a response with
    neither a final-answer nor a tool-call opening delimiter ends the loop
    too, with the whole response trimmed. *)
Theorem final_answer_or_raw_response (env : Env) (n : nat) (ctx : Context)
    (msgs : list BaseMessage) (st : State) (r : str) :
  llm_invoke env (length (trace st)) msgs = Returned r ->
  (forall a x b,
      r = a ++ Executor.FINAL_OPEN ++ x ++ Executor.FINAL_CLOSE ++ b ->
      PyStr.contains Executor.FINAL_OPEN a = false ->
      PyStr.contains Executor.FINAL_OPEN x = false ->
      PyStr.contains Executor.FINAL_CLOSE x = false ->
      Executor.afm_turns env (S n) ctx msgs st
      = (Returned (PyStr.strip x), logged st [EvLlm msgs]))
  /\ (PyStr.contains Executor.FINAL_OPEN r = false ->
      PyStr.contains Executor.TOOL_OPEN r = false ->
      Executor.afm_turns env (S n) ctx msgs st
      = (Returned (PyStr.strip r), logged st [EvLlm msgs])).
Proof.
  intros Hr. split.
  - intros a x b -> Ha Hxo Hxc.
    exact (afm_turns_final_section env n ctx msgs st a x b Hr Ha Hxo Hxc).
  - intros Hf Ht. rewrite afm_turns_S, Hr, Hf, Ht. reflexivity.
Qed.

Lemma final_answer_or_raw_response_witness :
  let r := lit "<plan>greet</plan><final_answer> Hi! </final_answer>" in
  let env := scripted_env [r] [] no_profile no_grammar in
  llm_invoke env (length (trace empty_state)) [SystemMessage (lit "seed")]
  = Returned r
  /\ Executor.afm_turns env 5 ctx0 [SystemMessage (lit "seed")] empty_state
     = (Returned (lit "Hi!"),
        logged empty_state [EvLlm [SystemMessage (lit "seed")]]).
Proof.
  intros r env. split; [reflexivity|].
  exact (proj1 (final_answer_or_raw_response env 4 ctx0
                  [SystemMessage (lit "seed")] empty_state r eq_refl)
           (lit "<plan>greet</plan>") (lit " Hi! ") []
           eq_refl eq_refl eq_refl eq_refl).
Defined.

(** C3, as stated, fails: for a tool call naming no known tool, the
    observation the model is shown on the next turn is that of the loop's
    own [ValueError]; no text of the shape
    [Error: Tool '<name>' is not recognized.] occurs in it. *)
Lemma unrecognized_tool_observation_differs :
  let r := lit "<tool_call>Translate(text=hi)</tool_call>" in
  let env := scripted_env [r] (lit "<final_answer>ok</final_answer>")
               no_profile no_grammar in
  let run := Executor.afm_turns env 5 ctx0 [SystemMessage []] empty_state in
  exists obs,
    trace (snd run)
    = [EvLlm [SystemMessage []];
       EvLlm [SystemMessage []; AIMessage r; HumanMessage obs]]
    /\ obs = lit "<observation>" ++ nl
             ++ lit "Error executing tool: Tool not recognized in: Translate(text=hi)"
             ++ nl ++ lit "</observation>"
    /\ forall name, PyStr.contains (not_recognized name) obs = false.
Proof.
  intros r env run. eexists. split; [vm_compute; reflexivity|].
  split; [vm_compute; reflexivity|].
  intros name.
  destruct (PyStr.contains (not_recognized name) _) eqn:E; [|reflexivity].
  unfold not_recognized in E. apply contains_app_r, contains_app_r in E.
  vm_compute in E. discriminate.
Qed.

(** C3, amended: for a tool call whose inner text holds none of the three
    known identifiers, the loop runs no extraction and no handler; it
    appends the observation
    [Error executing tool: Tool not recognized in: <inner text>] and goes
    on with the next turn.  The text
    [Error: Tool '<name>' is not recognized.] is what [execute_tool]
    returns, without raising, for a name outside its table. *)
Theorem unrecognized_tool_continues (env : Env) (n : nat) (ctx : Context)
    (msgs : list BaseMessage) (st : State) (a x b : str) :
  let r := a ++ Executor.TOOL_OPEN ++ x ++ Executor.TOOL_CLOSE ++ b in
  let inner := PyStr.strip x in
  llm_invoke env (length (trace st)) msgs = Returned r ->
  PyStr.contains Executor.FINAL_OPEN r = false ->
  PyStr.contains Executor.TOOL_OPEN a = false ->
  PyStr.contains Executor.TOOL_OPEN x = false ->
  PyStr.contains Executor.TOOL_CLOSE x = false ->
  PyStr.contains (lit "WebSearch") inner = false ->
  PyStr.contains (lit "UpdateUserProfile") inner = false ->
  PyStr.contains (lit "SaveGrammarCorrection") inner = false ->
  Executor.afm_turns env (S n) ctx msgs st
  = Executor.afm_turns env n ctx
      (msgs ++ [AIMessage r;
                Executor.observation
                  (lit "Error executing tool: Tool not recognized in: "
                   ++ inner)])
      (logged st [EvLlm msgs])
  /\ forall name params s,
      name <> lit "WebSearch" -> name <> lit "UpdateUserProfile" ->
      name <> lit "SaveGrammarCorrection" ->
      Tools.execute_tool env name ctx params s
      = (Returned (not_recognized name), s).
Proof.
  intros r inner Hr Hf Ha Hxo Hxc H1 H2 H3. split.
  - rewrite (afm_turns_tool_section env n ctx msgs st a x b Hr Hf Ha Hxo Hxc).
    unfold bind, Executor.tool_call_turn, try_except, Executor.select_tool.
    fold inner. rewrite H1, H2, H3. reflexivity.
  - intros name params s N1 N2 N3.
    unfold Tools.execute_tool, Tools.call_handler.
    rewrite !bool_decide_eq_false_2 by assumption. reflexivity.
Qed.

Lemma unrecognized_tool_continues_witness :
  let r := lit "<tool_call>Translate(text=hi)</tool_call>" in
  let env := scripted_env [r] (lit "<final_answer>ok</final_answer>")
               no_profile no_grammar in
  Executor.afm_turns env 5 ctx0 [SystemMessage []] empty_state
  = Executor.afm_turns env 4 ctx0
      [SystemMessage []; AIMessage r;
       Executor.observation
         (lit "Error executing tool: Tool not recognized in: Translate(text=hi)")]
      (logged empty_state [EvLlm [SystemMessage []]]).
Proof.
  intros r env.
  exact (proj1 (unrecognized_tool_continues env 4 ctx0 [SystemMessage []]
                  empty_state [] (lit "Translate(text=hi)") []
                  eq_refl eq_refl eq_refl eq_refl eq_refl
                  eq_refl eq_refl eq_refl)).
Defined.

(** C6: when the extractor chosen for a tool call raises a
    [ValidationError], the turn neither returns nor raises: the message
    appended after the model's response is the observation holding
    [Pydantic validation error: ] followed by the text of the error, no
    handler runs, and the loop goes on with its next turn. *)
Theorem validation_error_continues (env : Env) (n : nat) (ctx : Context)
    (msgs : list BaseMessage) (st : State) (a x b : str)
    (sel : (nat -> list BaseMessage -> outcome ToolParams) * str)
    (text : str) :
  let r := a ++ Executor.TOOL_OPEN ++ x ++ Executor.TOOL_CLOSE ++ b in
  let inner := PyStr.strip x in
  let prompt := [HumanMessage (Executor.extraction_prompt inner)] in
  llm_invoke env (length (trace st)) msgs = Returned r ->
  PyStr.contains Executor.FINAL_OPEN r = false ->
  PyStr.contains Executor.TOOL_OPEN a = false ->
  PyStr.contains Executor.TOOL_OPEN x = false ->
  PyStr.contains Executor.TOOL_CLOSE x = false ->
  Executor.select_tool env inner (logged st [EvLlm msgs])
  = (Returned sel, logged st [EvLlm msgs]) ->
  fst sel (S (length (trace st))) prompt
  = Raised (Exn ValidationError text) ->
  Executor.afm_turns env (S n) ctx msgs st
  = Executor.afm_turns env n ctx
      (msgs ++ [AIMessage r;
                Executor.observation
                  (lit "Pydantic validation error: " ++ text)])
      (logged st [EvLlm msgs; EvExtract (snd sel) prompt]).
Proof.
  intros r inner prompt Hr Hf Ha Hxo Hxc Hsel Hext.
  rewrite (afm_turns_tool_section env n ctx msgs st a x b Hr Hf Ha Hxo Hxc).
  unfold bind at 1. unfold Executor.tool_call_turn, try_except.
  unfold bind at 1. fold inner. rewrite Hsel.
  unfold bind at 1. unfold remote. cbn [trace logged].
  rewrite length_app. cbn [length]. rewrite Nat.add_1_r.
  fold prompt. rewrite Hext. cbn [exn_class_of exn_text ret].
  unfold logged. cbn [db_session store trace]. rewrite <- app_assoc.
  reflexivity.
Qed.

Lemma validation_error_continues_witness :
  let r := lit "<plan>save</plan><tool_call> UpdateUserProfile(name=42) </tool_call>" in
  let env := scripted_env [r] (lit "<final_answer>ok</final_answer>")
               no_profile no_grammar in
  let prompt :=
    [HumanMessage (Executor.extraction_prompt (lit "UpdateUserProfile(name=42)"))] in
  Executor.afm_turns env 5 ctx0 [SystemMessage []] empty_state
  = Executor.afm_turns env 4 ctx0
      [SystemMessage []; AIMessage r;
       Executor.observation
         (lit "Pydantic validation error: 1 validation error for UpdateUserProfile")]
      (logged empty_state
         [EvLlm [SystemMessage []];
          EvExtract (lit "UpdateUserProfile") prompt]).
Proof.
  intros r env prompt.
  exact (validation_error_continues env 4 ctx0 [SystemMessage []] empty_state
           (lit "<plan>save</plan>") (lit " UpdateUserProfile(name=42) ") []
           (Executor.dumped UpdateUserProfileParams (profile_extractor env),
            lit "UpdateUserProfile")
           (lit "1 validation error for UpdateUserProfile")
           eq_refl eq_refl eq_refl eq_refl eq_refl eq_refl eq_refl).
Defined.

(** * The claims about the tool handlers *)

Section HandlerClaims.

Context (env : Env).

Lemma latest_no_rows (cid : str) (rows : list Message) :
  (forall m, m ∈ rows -> message_conversation_id m = cid ->
             role m <> HUMAN) ->
  filter (fun m => Tools.is_human_of cid m = true) rows = [].
Proof.
  induction rows as [|m rows IH]; intros H; [reflexivity|].
  rewrite filter_cons. destruct (decide _) as [Hm|_].
  - exfalso. unfold Tools.is_human_of in Hm.
    apply andb_true_iff in Hm as [Hc Hr].
    apply bool_decide_eq_true in Hc.
    apply (H m); [left | exact Hc | now destruct (role m)].
  - apply IH. intros m' Hin. apply H. now right.
Qed.

Lemma union_interests_set (cur add : list str) :
  list_to_set (Tools.union_interests cur add)
  = (list_to_set cur ∪ list_to_set add : gset (list N)).
Proof. unfold Tools.union_interests. apply list_to_set_elements_L. Qed.

Lemma union_interests_NoDup (cur add : list str) :
  NoDup (Tools.union_interests cur add).
Proof. apply NoDup_elements. Qed.

(** One application of the profile handler to an existing row. *)
Lemma update_user_profile_row (ctx : Context) (p : UpdateUserProfile)
    (st : State) (u : User) :
  users (db_session st) !! user_id ctx = Some u ->
  exists st1 u1,
    Tools.update_user_profile ctx p st = (Returned OK_PROFILE, st1)
    /\ users (db_session st1) !! user_id ctx = Some u1
    /\ first_name u1 = (if Tools.truthy (name p) then default [] (name p)
                        else first_name u)
    /\ user_location u1 = (if Tools.truthy (location p) then location p
                           else user_location u)
    /\ user_interests u1
       = (if Tools.truthy (interests_to_add p)
          then Some (Tools.union_interests
                       (default [] (user_interests u))
                       (default [] (interests_to_add p)))
          else user_interests u).
Proof.
  intros Hu.
  unfold Tools.update_user_profile, try_except, bind, get_db.
  rewrite Hu.
  unfold Tools.commit_user, bind, get_db, set_db, store_put, ret.
  cbn [db_session store trace users].
  eexists _, _. split; [reflexivity|].
  cbn [db_session users]. rewrite lookup_insert_eq.
  split; [reflexivity|]. cbn [first_name user_location user_interests].
  repeat split.
Qed.

End HandlerClaims.

Lemma occurrences_once (i : str) (u : User) (l : list str) :
  user_interests u = Some l -> NoDup l -> i ∈ l -> occurrences i u = 1.
Proof.
  intros Hl Hnd Hin. unfold occurrences. rewrite Hl. simpl.
  apply NoDup_ListNoDup in Hnd.
  apply (proj1 (NoDup_count_occ' _ l) Hnd).
  now apply list_elem_of_In.
Qed.

(** C7: on an existing user the profile handler succeeds; when interests
    are supplied the row's interests become, as a set, the union of the
    old ones and the supplied ones; a second application with the same
    arguments leaves that set as it is, and every supplied interest is
    listed exactly once, after the first and after the second application;
    a supplied name or location replaces the old one and an absent one
    leaves it as it was. *)
Theorem update_user_profile_union_and_overwrite (ctx : Context)
    (p : UpdateUserProfile) (st : State) (u : User) :
  users (db_session st) !! user_id ctx = Some u ->
  exists st1 u1 st2 u2,
    Tools.update_user_profile ctx p st = (Returned OK_PROFILE, st1)
    /\ users (db_session st1) !! user_id ctx = Some u1
    /\ Tools.update_user_profile ctx p st1 = (Returned OK_PROFILE, st2)
    /\ users (db_session st2) !! user_id ctx = Some u2
    /\ (forall add, interests_to_add p = Some add -> add <> [] ->
          interest_set u1 = interest_set u ∪ list_to_set add
          /\ interest_set u2 = interest_set u1
          /\ forall i, i ∈ add ->
               occurrences i u1 = 1 /\ occurrences i u2 = 1)
    /\ (interests_to_add p = None -> user_interests u1 = user_interests u)
    /\ (forall v, name p = Some v -> v <> [] ->
          first_name u1 = v /\ first_name u2 = v)
    /\ (name p = None -> first_name u1 = first_name u)
    /\ (forall v, location p = Some v -> v <> [] ->
          user_location u1 = Some v /\ user_location u2 = Some v)
    /\ (location p = None -> user_location u1 = user_location u).
Proof.
  intros Hu.
  destruct (update_user_profile_row ctx p st u Hu)
    as [st1 [u1 [Hrun1 [Hrow1 [Hn1 [Hl1 Hi1]]]]]].
  destruct (update_user_profile_row ctx p st1 u1 Hrow1)
    as [st2 [u2 [Hrun2 [Hrow2 [Hn2 [Hl2 Hi2]]]]]].
  exists st1, u1, st2, u2. repeat (split; [assumption|]).
  split; [|split; [|split; [|split; [|split]]]].
  - intros add Hadd Hne. rewrite Hadd in Hi1, Hi2.
    destruct add as [|a0 add]; [congruence|]. cbn [Tools.truthy default] in *.
    assert (S1 : interest_set u1 = interest_set u ∪ list_to_set (a0 :: add)).
    { unfold interest_set at 1. rewrite Hi1. apply union_interests_set. }
    assert (S2 : interest_set u2 = interest_set u1).
    { unfold interest_set at 1. rewrite Hi2.
      etrans; [apply union_interests_set|].
      fold (interest_set u1). rewrite S1.
      now rewrite <- union_assoc_L, union_idemp_L. }
    split; [exact S1|]. split; [exact S2|].
    intros i Hin. split.
    + eapply occurrences_once; [exact Hi1 | apply union_interests_NoDup|].
      apply (elem_of_list_to_set (C := gset (list N))).
      rewrite union_interests_set.
      now apply elem_of_union_r, elem_of_list_to_set.
    + eapply occurrences_once; [exact Hi2 | apply union_interests_NoDup|].
      apply (elem_of_list_to_set (C := gset (list N))).
      rewrite union_interests_set.
      now apply elem_of_union_r, elem_of_list_to_set.
  - intros Hnone. now rewrite Hnone in Hi1.
  - intros v Hv Hne. rewrite Hv in Hn1, Hn2.
    destruct v; [congruence|]. now split.
  - intros Hnone. now rewrite Hnone in Hn1.
  - intros v Hv Hne. rewrite Hv in Hl1, Hl2.
    destruct v; [congruence|]. now split.
  - intros Hnone. now rewrite Hnone in Hl1.
Qed.

Lemma update_user_profile_union_and_overwrite_witness :
  exists st1 u1 st2 u2,
    Tools.update_user_profile ctx0 add_chess chess_state
    = (Returned OK_PROFILE, st1)
    /\ users (db_session st1) !! user_id ctx0 = Some u1
    /\ Tools.update_user_profile ctx0 add_chess st1
       = (Returned OK_PROFILE, st2)
    /\ users (db_session st2) !! user_id ctx0 = Some u2
    /\ occurrences (lit "chess") u1 = 1
    /\ occurrences (lit "chess") u2 = 1.
Proof.
  destruct (update_user_profile_union_and_overwrite ctx0 add_chess chess_state
              {| first_name := lit "Ana"; user_location := None;
                 user_interests := Some [lit "chess"] |} eq_refl)
    as [st1 [u1 [st2 [u2 [R1 [U1 [R2 [U2 [Hint _]]]]]]]]].
  exists st1, u1, st2, u2. repeat (split; [assumption|]).
  apply (Hint [lit "chess"] eq_refl); [discriminate | now left].
Defined.

(** C8: when the conversation holds no human-authored message, the
    correction handler returns, without raising, a text that begins with
    [Error:], and leaves the database and the store as they were; so does
    its dispatch through [execute_tool], which only records the call. *)
Theorem save_grammar_correction_without_human_turn (env : Env)
    (ctx : Context) (p : SaveGrammarCorrection) (st : State) :
  (forall m, m ∈ messages (db_session st) ->
             message_conversation_id m = conversation_id ctx ->
             role m <> HUMAN) ->
  exists obs,
    PyStr.startswith (lit "Error:") obs = true
    /\ Tools.save_grammar_correction env ctx p st = (Returned obs, st)
    /\ Tools.execute_tool env (lit "SaveGrammarCorrection") ctx
         (SaveGrammarCorrectionParams p) st
       = (Returned obs,
          {| db_session := db_session st; store := store st;
             trace := trace st ++ [EvHandler (lit "SaveGrammarCorrection")] |}).
Proof.
  intros Hno.
  exists (lit "Error: User message not found to link the correction.").
  split; [reflexivity|].
  assert (E : forall s, db_session s = db_session st ->
              Tools.save_grammar_correction env ctx p s
              = (Returned
                   (lit "Error: User message not found to link the correction."),
                 s)).
  { intros s Hs.
    unfold Tools.save_grammar_correction, try_except, bind, get_db.
    unfold Tools.last_human_message. rewrite Hs.
    rewrite (latest_no_rows _ _ Hno). reflexivity. }
  split; [now apply E|].
  assert (C : Tools.call_handler env (lit "SaveGrammarCorrection") ctx
                (SaveGrammarCorrectionParams p)
              = Some (Tools.save_grammar_correction env ctx p)).
  { unfold Tools.call_handler.
    repeat case_bool_decide;
      first [ reflexivity | congruence
            | exfalso;
              match goal with
              | H : lit _ = lit _ |- _ => vm_compute in H; discriminate H
              end ]. }
  unfold Tools.execute_tool. rewrite C.
  unfold bind, remote. now rewrite E.
Qed.

Lemma save_grammar_correction_without_human_turn_witness :
  exists obs,
    PyStr.startswith (lit "Error:") obs = true
    /\ Tools.save_grammar_correction
         (scripted_env [] [] no_profile no_grammar) ctx0
         {| original_text := lit "I has"; corrected_text := lit "I have";
            explanation := lit "agreement"; improvement := lit "I have" |}
         ai_only_state
       = (Returned obs, ai_only_state).
Proof.
  destruct (save_grammar_correction_without_human_turn
              (scripted_env [] [] no_profile no_grammar) ctx0
              {| original_text := lit "I has"; corrected_text := lit "I have";
                 explanation := lit "agreement"; improvement := lit "I have" |}
              ai_only_state) as [obs [Hs [Hr _]]].
  - intros m Hin Hc. cbn in Hin.
    apply list_elem_of_In in Hin. simpl in Hin.
    destruct Hin as [<-|[<-|[]]]; [discriminate | discriminate Hc].
  - exists obs. split; assumption.
Defined.

(** * The claims about the grammar stage *)

(** C4, as stated, fails: for a successful answer with no flagged error
    the stage does not yield the text [no syntax errors found]. *)
Lemma no_errors_literal_differs :
  let requests_post := fun _ : list N => Returned [] in
  requests_post (lit "I went home") = Returned (@nil LanguageTool.Match)
  /\ GrammarPipe.syntactic_check_node requests_post (lit "I went home")
     <> lit "no syntax errors found".
Proof. split; [reflexivity|]. vm_compute. discriminate. Qed.

(** C4, amended: for a successful answer with no flagged error the stage
    yields the fixed text [Nenhum erro de sintaxe encontrado.], whatever
    the input; the explanation of the correction it drops is
    [No grammar errors found.]. *)
Theorem syntactic_check_node_no_errors
    (requests_post : str -> outcome (list LanguageTool.Match))
    (user_input : str) :
  requests_post user_input = Returned [] ->
  GrammarPipe.syntactic_check_node requests_post user_input
  = lit "Nenhum erro de sintaxe encontrado."
  /\ LanguageTool.explanation
       (LanguageTool.check_text requests_post user_input)
     = lit "No grammar errors found.".
Proof.
  intros H.
  unfold GrammarPipe.syntactic_check_node, LanguageTool.check_text.
  rewrite H. split; reflexivity.
Qed.

Lemma syntactic_check_node_no_errors_witness :
  GrammarPipe.syntactic_check_node (fun _ => Returned []) (lit "I went home")
  = lit "Nenhum erro de sintaxe encontrado."
  /\ LanguageTool.explanation
       (LanguageTool.check_text (fun _ => Returned []) (lit "I went home"))
     = lit "No grammar errors found.".
Proof.
  exact (syntactic_check_node_no_errors (fun _ => Returned [])
           (lit "I went home") eq_refl).
Defined.

(** C5: when the call of the proofreading service raises, [check_text]
    does not raise and builds the explanation
    [Unable to check grammar at this time.]; the stage does not fail
    either, but what it yields is the text of the no-error case, in which
    the explanation does not occur. *)
Theorem syntactic_check_node_service_failure
    (requests_post : str -> outcome (list LanguageTool.Match))
    (user_input : str) (e : exn) :
  requests_post user_input = Raised e ->
  LanguageTool.check_text requests_post user_input
  = LanguageTool.unavailable user_input
  /\ LanguageTool.explanation (LanguageTool.unavailable user_input)
     = lit "Unable to check grammar at this time."
  /\ GrammarPipe.syntactic_check_node requests_post user_input
     = lit "Nenhum erro de sintaxe encontrado."
  /\ PyStr.contains (lit "nable to check grammar")
       (GrammarPipe.syntactic_check_node requests_post user_input) = false.
Proof.
  intros H.
  assert (E : LanguageTool.check_text requests_post user_input
              = LanguageTool.unavailable user_input).
  { unfold LanguageTool.check_text. rewrite H.
    now destruct (exn_class_of e). }
  unfold GrammarPipe.syntactic_check_node. rewrite E.
  repeat split.
Qed.

Lemma syntactic_check_node_service_failure_witness :
  let down := fun _ : list N =>
                @Raised (list LanguageTool.Match)
                  (Exn RequestException (lit "Connection refused")) in
  GrammarPipe.syntactic_check_node down (lit "I has went to the store")
  = lit "Nenhum erro de sintaxe encontrado.".
Proof.
  intros down.
  exact (proj1 (proj2 (proj2
           (syntactic_check_node_service_failure down
              (lit "I has went to the store")
              (Exn RequestException (lit "Connection refused")) eq_refl)))).
Defined.

(** ** The corrected rewrite *)

Section Rewrite.

Import LanguageTool.

Lemma norm_index_in_range (s : str) (i : Z) :
  (0 <= i <= Z.of_nat (length s))%Z -> PyStr.norm_index s i = Z.to_nat i.
Proof.
  intros H. unfold PyStr.norm_index.
  destruct (Z.ltb_spec i 0); [lia|]. f_equal. lia.
Qed.

(** What one replacement does to a text in which the span lies. *)
Lemma apply_replacement_in_range (text : str) (e : GrammarError) :
  (0 <= offset e)%Z -> (0 <= length_ e)%Z ->
  (offset e + length_ e <= Z.of_nat (length text))%Z ->
  apply_replacement text e
  = firstn (Z.to_nat (offset e)) text ++ replacement_of text e
    ++ skipn (Z.to_nat (offset e + length_ e)) text.
Proof.
  intros Ho Hl Hb. unfold apply_replacement, replacement_of.
  destruct (replacements e) as [|top rest].
  - rewrite <- (firstn_skipn (Z.to_nat (offset e)) text) at 1.
    f_equal.
    rewrite <- (firstn_skipn (Z.to_nat (offset e + length_ e)
                              - Z.to_nat (offset e))
                  (skipn (Z.to_nat (offset e)) text)) at 1.
    f_equal. rewrite skipn_skipn. f_equal. lia.
  - unfold PyStr.slice_to, PyStr.slice_from.
    rewrite !norm_index_in_range by lia. reflexivity.
Qed.

Lemma apply_replacement_app (p q : str) (e : GrammarError) :
  (0 <= offset e)%Z -> (0 <= length_ e)%Z ->
  (offset e + length_ e <= Z.of_nat (length p))%Z ->
  apply_replacement (p ++ q) e = apply_replacement p e ++ q.
Proof.
  intros Ho Hl Hb. unfold apply_replacement.
  destruct (replacements e) as [|top rest]; [reflexivity|].
  unfold PyStr.slice_to, PyStr.slice_from.
  rewrite !norm_index_in_range by (rewrite ?length_app; lia).
  rewrite firstn_app, skipn_app.
  replace (Z.to_nat (offset e) - length p) with 0 by lia.
  replace (Z.to_nat (offset e + length_ e) - length p) with 0 by lia.
  cbn [firstn skipn]. rewrite app_nil_r, <- !app_assoc. reflexivity.
Qed.

Lemma apply_replacement_length (text : str) (e : GrammarError) :
  (0 <= offset e)%Z -> (0 <= length_ e)%Z ->
  (offset e + length_ e <= Z.of_nat (length text))%Z ->
  (offset e <= Z.of_nat (length (apply_replacement text e)))%Z.
Proof.
  intros Ho Hl Hb. rewrite apply_replacement_in_range by assumption.
  rewrite length_app, length_firstn. lia.
Qed.

Lemma chain_weaken (b b' : Z) (es : list GrammarError) :
  (b <= b')%Z -> chain b es -> chain b' es.
Proof.
  destruct es as [|e es]; [easy|]. cbn [chain]. intros Hb [[? [? ?]] Hc].
  split; [lia | exact Hc].
Qed.

(** Edits inside a prefix of the text leave what follows the prefix in
    place. *)
Lemma fold_replacements_app (es : list GrammarError) :
  forall p q,
    chain (Z.of_nat (length p)) es ->
    fold_left apply_replacement es (p ++ q)
    = fold_left apply_replacement es p ++ q.
Proof.
  induction es as [|e es IH]; intros p q Hc; [reflexivity|].
  cbn [chain] in Hc. destruct Hc as [[Ho [Hl Hb]] Hc].
  cbn [fold_left]. rewrite apply_replacement_app by assumption.
  apply IH. eapply chain_weaken; [|exact Hc].
  now apply apply_replacement_length.
Qed.

Lemma asc_chain_le (asc : list GrammarError) :
  forall pos bound, asc_chain pos asc bound -> (pos <= bound)%Z.
Proof.
  induction asc as [|a rest IH]; intros pos bound H; [exact H|].
  cbn [asc_chain] in H. destruct H as [[Hp Hl] Hc].
  apply IH in Hc. lia.
Qed.

Lemma asc_chain_snoc (asc : list GrammarError) (e : GrammarError) :
  forall pos bound,
    asc_chain pos asc (offset e) -> (0 <= length_ e)%Z ->
    (offset e + length_ e <= bound)%Z ->
    asc_chain pos (asc ++ [e]) bound.
Proof.
  induction asc as [|a rest IH]; intros pos bound H Hl Hb.
  - cbn in *. lia.
  - cbn [asc_chain app] in *. destruct H as [Ha Hc].
    split; [exact Ha|]. now apply IH.
Qed.

Lemma chain_asc_chain (es : list GrammarError) :
  forall bound, (0 <= bound)%Z -> chain bound es ->
                asc_chain 0 (rev es) bound.
Proof.
  induction es as [|e es IH]; intros bound Hb H; [exact Hb|].
  cbn [chain] in H. destruct H as [[Ho [Hl He]] Hc].
  cbn [rev]. apply asc_chain_snoc; try assumption. now apply IH.
Qed.

Lemma replacement_of_firstn (text : str) (n : nat) (a : GrammarError) :
  (0 <= offset a)%Z -> (0 <= length_ a)%Z ->
  (offset a + length_ a <= Z.of_nat n)%Z ->
  replacement_of (firstn n text) a = replacement_of text a.
Proof.
  intros Ho Hl Hb. unfold replacement_of.
  destruct (replacements a); [|reflexivity].
  rewrite skipn_firstn_comm, firstn_firstn. f_equal. lia.
Qed.

(** The walk up to the last span only reads the text before it. *)
Lemma rewrite_front_to_back_snoc (text : str) (e : GrammarError)
    (asc : list GrammarError) :
  forall pos,
    asc_chain (Z.of_nat pos) asc (offset e) ->
    rewrite_front_to_back text pos (asc ++ [e])
    = rewrite_front_to_back (firstn (Z.to_nat (offset e)) text) pos asc
      ++ replacement_of text e
      ++ skipn (Z.to_nat (offset e + length_ e)) text.
Proof.
  induction asc as [|a rest IH]; intros pos H.
  - cbn [app rewrite_front_to_back]. rewrite skipn_firstn_comm.
    reflexivity.
  - cbn [asc_chain] in H. destruct H as [[Hp Hl] Hc].
    pose proof (asc_chain_le _ _ _ Hc) as Hle.
    cbn [app rewrite_front_to_back].
    rewrite IH by (rewrite Z2Nat.id by lia; exact Hc).
    rewrite replacement_of_firstn by lia.
    rewrite skipn_firstn_comm, firstn_firstn.
    replace (Init.Nat.min (Z.to_nat (offset a) - pos)
               (Z.to_nat (offset e) - pos))
      with (Z.to_nat (offset a) - pos) by lia.
    rewrite <- !app_assoc. reflexivity.
Qed.

(** Back to front, edit after edit, gives the rewrite of the
    specification. *)
Lemma fold_replacements_rewrite (es : list GrammarError) :
  forall text,
    chain (Z.of_nat (length text)) es ->
    fold_left apply_replacement es text
    = rewrite_front_to_back text 0 (rev es).
Proof.
  induction es as [|e es IH]; intros text Hc; [reflexivity|].
  cbn [chain] in Hc. destruct Hc as [[Ho [Hl Hb]] Hc].
  cbn [fold_left rev].
  rewrite apply_replacement_in_range by assumption.
  assert (Hlen : Z.of_nat (length (firstn (Z.to_nat (offset e)) text))
                 = offset e).
  { rewrite length_firstn. lia. }
  rewrite fold_replacements_app by (now rewrite Hlen).
  rewrite IH by (now rewrite Hlen).
  rewrite rewrite_front_to_back_snoc; [reflexivity|].
  apply chain_asc_chain; assumption.
Qed.

End Rewrite.

Section SortedMatches.

Import LanguageTool.

Lemma insert_desc_perm (m : Match) (l : list Match) :
  Permutation (insert_desc m l) (m :: l).
Proof.
  induction l as [|x l IH]; [reflexivity|]. cbn [insert_desc].
  destruct (m_offset x <=? m_offset m)%Z; [reflexivity|].
  rewrite IH. apply perm_swap.
Qed.

Lemma sorted_desc_perm (l : list Match) : Permutation (sorted_desc l) l.
Proof.
  induction l as [|m l IH]; [reflexivity|].
  cbn [sorted_desc foldr]. fold (sorted_desc l).
  rewrite insert_desc_perm. now constructor.
Qed.

Lemma sorted_desc_Forall (P : Match -> Prop) (l : list Match) :
  Forall P l -> Forall P (sorted_desc l).
Proof.
  intros H. eapply Permutation_Forall; [|exact H].
  symmetry. apply sorted_desc_perm.
Qed.

Lemma insert_desc_sorted (m : Match) (l : list Match) :
  StronglySorted later_match l -> StronglySorted later_match (insert_desc m l).
Proof.
  induction l as [|x l IH]; intros Hs.
  - repeat constructor.
  - apply StronglySorted_inv in Hs as [Hl Hx]. cbn [insert_desc].
    destruct (Z.leb_spec (m_offset x) (m_offset m)) as [Hle|Hgt].
    + constructor; [now constructor|]. constructor; [exact Hle|].
      eapply Forall_impl; [exact Hx|]. unfold later_match. intros y Hy. lia.
    + constructor; [now apply IH|].
      eapply Permutation_Forall;
        [symmetry; apply insert_desc_perm|].
      constructor; [unfold later_match; lia | exact Hx].
Qed.

Lemma sorted_desc_sorted (l : list Match) :
  StronglySorted later_match (sorted_desc l).
Proof.
  induction l as [|m l IH]; [constructor|].
  cbn [sorted_desc foldr]. now apply insert_desc_sorted.
Qed.

Lemma insert_desc_chain (text : str) (m : Match) (l : list Match) :
  forall bound,
    (0 <= m_offset m)%Z -> (0 < m_length m)%Z ->
    (m_offset m + m_length m <= bound)%Z ->
    Forall (disjoint m) l -> Forall (span_ok text) l ->
    chain bound (map to_error l) ->
    chain bound (map to_error (insert_desc m l)).
Proof.
  induction l as [|x l IH]; intros bound Ho Hl Hb Hd Hok Hc.
  - cbn. repeat split; lia.
  - apply Forall_cons_1 in Hd as [Hdx Hd].
    apply Forall_cons_1 in Hok as [[Hxo [Hxl Hxb]] Hok].
    cbn [map chain to_error offset length_] in Hc.
    destruct Hc as [[_ [_ Hxe]] Hc].
    unfold disjoint in Hdx. cbn [insert_desc].
    destruct (Z.leb_spec (m_offset x) (m_offset m)) as [Hle|Hgt].
    + cbn [map chain to_error offset length_].
      repeat split; try lia. exact Hc.
    + cbn [map chain to_error offset length_].
      split; [lia|]. apply IH; try assumption. lia.
Qed.

Lemma sorted_desc_chain (text : str) (l : list Match) :
  Forall (span_ok text) l -> pairwise_disjoint l ->
  chain (Z.of_nat (length text)) (map to_error (sorted_desc l)).
Proof.
  induction l as [|m l IH]; intros Hok Hd; [exact I|].
  apply Forall_cons_1 in Hok as [[Ho [Hl Hb]] Hok].
  cbn [pairwise_disjoint] in Hd. destruct Hd as [Hm Hd].
  cbn [sorted_desc foldr]. fold (sorted_desc l).
  apply (insert_desc_chain text); try assumption.
  - now apply sorted_desc_Forall.
  - now apply sorted_desc_Forall.
  - now apply IH.
Qed.

End SortedMatches.

(** C9: the errors are recorded, and their replacements applied, in
    descending order of offset (a permutation of the service's matches,
    sorted by offset from the back of the text to its front), each
    replacement being the first candidate of its span; and when the
    flagged spans lie in the text and do not overlap, the text obtained
    is the original text with every span, at its original offset, replaced
    by its first candidate: no edit has moved a span handled after it. *)
Theorem check_text_rewrites_back_to_front
    (requests_post : str -> outcome (list LanguageTool.Match))
    (text : str) (found : list LanguageTool.Match) :
  requests_post text = Returned found ->
  Forall (span_ok text) found ->
  pairwise_disjoint found ->
  let c := LanguageTool.check_text requests_post text in
  Permutation (LanguageTool.errors c) (map LanguageTool.to_error found)
  /\ StronglySorted
       (fun a b => (LanguageTool.offset b <= LanguageTool.offset a)%Z)
       (LanguageTool.errors c)
  /\ LanguageTool.corrected_text c
     = fold_left LanguageTool.apply_replacement (LanguageTool.errors c) text
  /\ LanguageTool.corrected_text c
     = rewrite_front_to_back text 0 (rev (LanguageTool.errors c)).
Proof.
  intros Hpost Hok Hd c. subst c. unfold LanguageTool.check_text.
  rewrite Hpost. cbn [LanguageTool.errors LanguageTool.corrected_text].
  split; [|split; [|split]].
  - apply Permutation_map, sorted_desc_perm.
  - pose proof (sorted_desc_sorted found) as Hs.
    induction Hs as [|m l Hs IH Hall]; [constructor|].
    cbn [map]. constructor; [exact IH|].
    apply Forall_map. exact Hall.
  - reflexivity.
  - apply fold_replacements_rewrite. now apply sorted_desc_chain.
Qed.

Lemma check_text_rewrites_back_to_front_witness :
  let found := [mk_match 2 3 [lit "went"]; mk_match 14 3 [lit "a"]] in
  let c := LanguageTool.check_text (fun _ => Returned found)
             (lit "I goe home in the dark") in
  map LanguageTool.offset (LanguageTool.errors c) = [14%Z; 2%Z]
  /\ LanguageTool.corrected_text c = lit "I went home in a dark"
  /\ LanguageTool.corrected_text c
     = rewrite_front_to_back (lit "I goe home in the dark") 0
         (rev (LanguageTool.errors c)).
Proof.
  intros found c.
  split; [reflexivity|]. split; [reflexivity|].
  refine (proj2 (proj2 (proj2
            (check_text_rewrites_back_to_front (fun _ => Returned found)
               (lit "I goe home in the dark") found eq_refl _ _)))).
  - repeat constructor; cbn; lia.
  - cbn. repeat constructor; unfold disjoint; cbn; lia.
Defined.

(** * Further properties of the tool handlers *)

Section HandlerExtras.

Context (env : Env).

(** X1: no tool handler lets an exception escape: whatever the database,
    the store and the collaborators' answers, the profile handler, the
    correction handler and the search handler return a text. *)
Theorem handlers_never_raise (ctx : Context) :
  (forall p, total (Tools.update_user_profile ctx p))
  /\ (forall p, total (Tools.save_grammar_correction env ctx p))
  /\ (forall p, total (Tools.execute_web_search env p)).
Proof.
  repeat split; intros p; apply total_try; intros e; apply total_ret.
Qed.

(** X2: for a user id that is not in the [users] table the profile
    handler writes nothing, neither to the database nor to the store, and
    returns [Error: User with ID <id> not found.]. *)
Theorem update_user_profile_unknown_user (ctx : Context)
    (p : UpdateUserProfile) (st : State) :
  users (db_session st) !! user_id ctx = None ->
  Tools.update_user_profile ctx p st
  = (Returned (lit "Error: User with ID " ++ user_id ctx
               ++ lit " not found."), st).
Proof.
  intros Hu. unfold Tools.update_user_profile, try_except, bind, get_db.
  now rewrite Hu.
Qed.

Lemma update_user_profile_unknown_user_witness :
  Tools.update_user_profile ctx0 add_chess ai_only_state
  = (Returned (lit "Error: User with ID u1 not found."), ai_only_state).
Proof.
  exact (update_user_profile_unknown_user ctx0 add_chess ai_only_state
           eq_refl).
Defined.

(** X3: the profile handler writes through: after a successful update the
    entry [latest] of the namespace [("profile", user_id)] in the store
    holds the name, the location and the interests of the user's row as
    the database now has it. *)
Theorem update_user_profile_write_through (ctx : Context)
    (p : UpdateUserProfile) (st : State) (u : User) :
  users (db_session st) !! user_id ctx = Some u ->
  exists st1 u1,
    Tools.update_user_profile ctx p st = (Returned OK_PROFILE, st1)
    /\ users (db_session st1) !! user_id ctx = Some u1
    /\ store st1 !! ([lit "profile"; user_id ctx], lit "latest")
       = Some (ProfileValue (first_name u1) (user_location u1)
                 (user_interests u1)).
Proof.
  intros Hu.
  unfold Tools.update_user_profile, try_except, bind, get_db.
  rewrite Hu.
  unfold Tools.commit_user, bind, get_db, set_db, store_put, ret.
  cbn [db_session store trace users].
  eexists _, _. split; [reflexivity|].
  cbn [db_session users store]. rewrite !lookup_insert_eq.
  split; reflexivity.
Qed.

Lemma update_user_profile_write_through_witness :
  exists st1 u1,
    Tools.update_user_profile ctx0 add_chess chess_state
    = (Returned OK_PROFILE, st1)
    /\ users (db_session st1) !! user_id ctx0 = Some u1
    /\ store st1 !! ([lit "profile"; user_id ctx0], lit "latest")
       = Some (ProfileValue (first_name u1) (user_location u1)
                 (user_interests u1)).
Proof.
  exact (update_user_profile_write_through ctx0 add_chess chess_state
           {| first_name := lit "Ana"; user_location := None;
              user_interests := Some [lit "chess"] |} eq_refl).
Defined.

(** X4: the profile handler touches one row and one store entry: the rows
    of the other users, the messages, the corrections, the other entries
    of the store and the record of remote calls are as before, also when
    it reports an error. *)
Theorem update_user_profile_frame (ctx : Context) (p : UpdateUserProfile)
    (st : State) :
  let st1 := snd (Tools.update_user_profile ctx p st) in
  (forall uid, uid <> user_id ctx ->
     users (db_session st1) !! uid = users (db_session st) !! uid)
  /\ messages (db_session st1) = messages (db_session st)
  /\ grammar_corrections (db_session st1)
     = grammar_corrections (db_session st)
  /\ (forall k, k <> ([lit "profile"; user_id ctx], lit "latest") ->
        store st1 !! k = store st !! k)
  /\ trace st1 = trace st.
Proof.
  unfold Tools.update_user_profile, try_except, bind, get_db.
  destruct (users (db_session st) !! user_id ctx) as [u|] eqn:Hu.
  - unfold Tools.commit_user, bind, get_db, set_db, store_put, ret.
    cbn [snd db_session store trace users messages grammar_corrections].
    repeat split.
    + intros uid Hne. now rewrite lookup_insert_ne.
    + intros k Hne. now rewrite lookup_insert_ne.
  - cbn. repeat split.
Qed.

End HandlerExtras.

Section CorrectionExtras.

Context (env : Env).

Lemma latest_spec (rows : list Message) :
  forall best,
    match Tools.latest best rows with
    | Some m =>
        (best = Some m \/ m ∈ rows)
        /\ (forall b, best = Some b -> (created_at b <= created_at m)%Z)
        /\ (forall m', m' ∈ rows -> (created_at m' <= created_at m)%Z)
    | None => best = None /\ rows = []
    end.
Proof.
  induction rows as [|x rows IH]; intros best.
  - cbn. destruct best as [b|]; [|easy].
    split; [now left|]. split.
    + intros b' [= <-]. lia.
    + intros m' Hin. inversion Hin.
  - cbn [Tools.latest]. destruct best as [b|].
    + destruct (Z.ltb_spec (created_at b) (created_at x)) as [Hlt|Hge].
      * specialize (IH (Some x)).
        destruct (Tools.latest (Some x) rows) as [m|]; [|now destruct IH].
        destruct IH as [Hm [Hb Hr]]. split; [|split].
        -- right. destruct Hm as [[= <-]|Hm]; [left | now right].
        -- intros b' [= <-]. specialize (Hb x eq_refl). lia.
        -- intros m' Hin. apply elem_of_cons in Hin as [->|Hin];
             [now apply Hb | now apply Hr].
      * specialize (IH (Some b)).
        destruct (Tools.latest (Some b) rows) as [m|]; [|now destruct IH].
        destruct IH as [Hm [Hb Hr]]. split; [|split].
        -- destruct Hm as [Hm|Hm]; [now left | right; now right].
        -- exact Hb.
        -- intros m' Hin. apply elem_of_cons in Hin as [->|Hin];
             [specialize (Hb b eq_refl); lia | now apply Hr].
    + specialize (IH (Some x)).
      destruct (Tools.latest (Some x) rows) as [m|]; [|now destruct IH].
      destruct IH as [Hm [Hb Hr]]. split; [|split].
      * right. destruct Hm as [[= <-]|Hm]; [left | now right].
      * intros b [=].
      * intros m' Hin. apply elem_of_cons in Hin as [->|Hin];
          [now apply Hb | now apply Hr].
Qed.

Lemma is_human_of_iff (cid : str) (m : Message) :
  Tools.is_human_of cid m = true
  <-> message_conversation_id m = cid /\ role m = HUMAN.
Proof.
  unfold Tools.is_human_of.
  rewrite andb_true_iff, bool_decide_eq_true.
  destruct (role m); intuition congruence.
Qed.

Lemma last_human_message_spec (d : Session) (cid : str) :
  match Tools.last_human_message d cid with
  | Some m =>
      m ∈ messages d
      /\ message_conversation_id m = cid /\ role m = HUMAN
      /\ forall m', m' ∈ messages d -> message_conversation_id m' = cid ->
                    role m' = HUMAN ->
                    (created_at m' <= created_at m)%Z
  | None =>
      forall m', m' ∈ messages d -> message_conversation_id m' = cid ->
                 role m' <> HUMAN
  end.
Proof.
  unfold Tools.last_human_message.
  pose proof (latest_spec
                (filter (fun m => Tools.is_human_of cid m = true)
                        (messages d)) None) as H.
  destruct (Tools.latest None _) as [m|].
  - destruct H as [[Hm|Hm] [_ Hr]]; [discriminate|].
    apply list_elem_of_filter in Hm as [Hh Hin].
    apply is_human_of_iff in Hh as [Hc Hrole].
    repeat (split; [assumption|]).
    intros m' Hin' Hc' Hr'. apply Hr. apply list_elem_of_filter.
    split; [now apply is_human_of_iff | exact Hin'].
  - destruct H as [_ Hnil]. intros m' Hin Hc Hr.
    assert (Hf : m' ∈ filter (fun m => Tools.is_human_of cid m = true)
                        (messages d)).
    { apply list_elem_of_filter. split; [now apply is_human_of_iff|exact Hin]. }
    rewrite Hnil in Hf. inversion Hf.
Qed.

(** X5: the message the correction handler links to is the most recent
    human-authored message of the conversation: it is a row of the
    [messages] table, of that conversation, with role [HUMAN], and no
    human-authored message of the conversation is later; the query gives
    nothing exactly when the conversation has no human-authored
    message. *)
Theorem last_human_message_is_latest (d : Session) (cid : str) :
  match Tools.last_human_message d cid with
  | Some m =>
      m ∈ messages d
      /\ message_conversation_id m = cid /\ role m = HUMAN
      /\ forall m', m' ∈ messages d -> message_conversation_id m' = cid ->
                    role m' = HUMAN ->
                    (created_at m' <= created_at m)%Z
  | None =>
      forall m', m' ∈ messages d -> message_conversation_id m' = cid ->
                 role m' <> HUMAN
  end.
Proof. exact (last_human_message_spec d cid). Qed.

Lemma existsb_message_id (c : GrammarCorrection)
    (l : list GrammarCorrection) :
  existsb (fun c' => bool_decide (correction_message_id c'
                                  = correction_message_id c)) l = true
  <-> exists c', c' ∈ l
                 /\ correction_message_id c' = correction_message_id c.
Proof.
  rewrite existsb_exists. split; intros [c' [Hin Hc]]; exists c'.
  - split; [now apply list_elem_of_In | now apply bool_decide_eq_true in Hc].
  - split; [now apply list_elem_of_In | now apply bool_decide_eq_true].
Qed.

Lemma commit_check_iff (d : Session) (c : GrammarCorrection) :
  existsb (fun c' => bool_decide (correction_message_id c'
                                  = correction_message_id c))
          (grammar_corrections d)
  || negb (bool_decide (is_Some (users d !! correction_user_id c))) = true
  <-> breaks_constraint d c.
Proof.
  unfold breaks_constraint.
  rewrite orb_true_iff, existsb_message_id, negb_true_iff,
    bool_decide_eq_false, <- eq_None_not_Some.
  reflexivity.
Qed.

(** X6: when the conversation has a human-authored message, that message
    has no correction yet and the user exists, the correction handler
    reports success; it adds exactly one row to the corrections, linked
    to the latest human-authored message and to the calling user, asks for
    one fresh key, and stores the correction under that key in the
    namespace [("corrections", user_id, conversation_id)]. *)
Theorem save_grammar_correction_success (ctx : Context)
    (p : SaveGrammarCorrection) (st : State) (m : Message) :
  Tools.last_human_message (db_session st) (conversation_id ctx) = Some m ->
  ~ breaks_constraint (db_session st) (correction_row ctx m p) ->
  Tools.save_grammar_correction env ctx p st
  = (Returned OK_CORRECTION,
     {| db_session :=
          {| users := users (db_session st);
             messages := messages (db_session st);
             grammar_corrections :=
               grammar_corrections (db_session st)
               ++ [correction_row ctx m p] |};
        store :=
          <[([lit "corrections"; user_id ctx; conversation_id ctx],
             uuid4 env (length (trace st))) := CorrectionValue p]>
            (store st);
        trace := trace st ++ [EvUuid] |}).
Proof.
  intros Hm Hok.
  unfold Tools.save_grammar_correction, try_except, bind, get_db.
  rewrite Hm. fold (correction_row ctx m p).
  unfold Tools.commit_correction, bind, get_db.
  destruct (_ || _) eqn:E.
  - exfalso. apply Hok. now apply commit_check_iff.
  - reflexivity.
Qed.

(** X7: a message has at most one correction: when the latest
    human-authored message already has one (or the calling user is not in
    [users]), the handler does not raise; it returns
    [Failed to save correction: ] followed by the database's complaint,
    and database, store and record of remote calls are as before. *)
Theorem save_grammar_correction_rejected (ctx : Context)
    (p : SaveGrammarCorrection) (st : State) (m : Message) :
  Tools.last_human_message (db_session st) (conversation_id ctx) = Some m ->
  breaks_constraint (db_session st) (correction_row ctx m p) ->
  Tools.save_grammar_correction env ctx p st
  = (Returned (lit "Failed to save correction: "
               ++ integrity_error_text env (correction_row ctx m p)), st).
Proof.
  intros Hm Hbad.
  unfold Tools.save_grammar_correction, try_except, bind, get_db.
  rewrite Hm. fold (correction_row ctx m p).
  unfold Tools.commit_correction, bind, get_db.
  apply commit_check_iff in Hbad. rewrite Hbad. reflexivity.
Qed.

End CorrectionExtras.

Lemma save_grammar_correction_success_witness :
  let env := scripted_env [] [] no_profile no_grammar in
  exists st1,
    Tools.save_grammar_correction env ctx0 went (talk_state [])
    = (Returned OK_CORRECTION, st1)
    /\ grammar_corrections (db_session st1)
       = [correction_row ctx0 (msg_row "m3" "c1" HUMAN 9) went].
Proof.
  intros env. eexists. split.
  - refine (save_grammar_correction_success env ctx0 went (talk_state [])
              (msg_row "m3" "c1" HUMAN 9) eq_refl _).
    intros [[c' [Hin _]] | Hnone].
    + inversion Hin.
    + vm_compute in Hnone. discriminate Hnone.
  - reflexivity.
Defined.

Lemma save_grammar_correction_rejected_witness :
  let env := scripted_env [] [] no_profile no_grammar in
  let st := talk_state [correction_row ctx0 (msg_row "m3" "c1" HUMAN 9) went] in
  Tools.save_grammar_correction env ctx0 went st
  = (Returned (lit "Failed to save correction: duplicate key"), st).
Proof.
  intros env st.
  refine (save_grammar_correction_rejected env ctx0 went st
            (msg_row "m3" "c1" HUMAN 9) eq_refl _).
  left. eexists. split; [left | reflexivity].
Defined.

(** * Further properties of the agent loop *)

Section StepFacts.

Context (ctx : Context).

Lemma agent_step_refl (s : State) : agent_step ctx s s.
Proof.
  repeat split; [|easy]. exists []. split; [|constructor].
  now rewrite app_nil_r.
Qed.

Lemma agent_step_trans (s1 s2 s3 : State) :
  agent_step ctx s1 s2 -> agent_step ctx s2 s3 -> agent_step ctx s1 s3.
Proof.
  intros [Hm1 [Hd1 [[a1 [Ha1 Hl1]] Hn1]]] [Hm2 [Hd2 [[a2 [Ha2 Hl2]] Hn2]]].
  split; [congruence|]. split; [congruence|]. split.
  - exists (a1 ++ a2). split.
    + rewrite Ha2, Ha1. now rewrite app_assoc.
    + apply Forall_app. split; [exact Hl1|]. now rewrite <- Hm1.
  - auto.
Qed.

Lemma agent_step_same_db (s s' : State) :
  db_session s' = db_session s -> agent_step ctx s s'.
Proof.
  intros H. unfold agent_step, corrections_of. rewrite H.
  repeat split; [|easy]. exists []. split; [|constructor].
  now rewrite app_nil_r.
Qed.

Lemma keeps_ret {A} (a : A) : keeps ctx (ret a).
Proof. intros st. apply agent_step_refl. Qed.

Lemma keeps_raise {A} (e : exn) : keeps ctx (@raise A e).
Proof. intros st. apply agent_step_refl. Qed.

Lemma keeps_bind {A B} (m : M A) (k : A -> M B) :
  keeps ctx m -> (forall a, keeps ctx (k a)) -> keeps ctx (bind m k).
Proof.
  intros Hm Hk st. unfold bind. specialize (Hm st).
  destruct (m st) as [[a|e] st1]; [|exact Hm].
  eapply agent_step_trans; [exact Hm | apply Hk].
Qed.

Lemma keeps_try {A} (body : M A) (handler : exn -> M A) :
  keeps ctx body -> (forall e, keeps ctx (handler e)) ->
  keeps ctx (try_except body handler).
Proof.
  intros Hm Hk st. unfold try_except. specialize (Hm st).
  destruct (body st) as [[a|e] st1]; [exact Hm|].
  eapply agent_step_trans; [exact Hm | apply Hk].
Qed.

Lemma keeps_remote {A} (ev : Event) (oracle : nat -> outcome A) :
  keeps ctx (remote ev oracle).
Proof. intros st. now apply agent_step_same_db. Qed.

Lemma keeps_index {A} (xs : list A) (i : nat) : keeps ctx (index xs i).
Proof.
  unfold index. destruct (nth_error xs i); [apply keeps_ret|apply keeps_raise].
Qed.

Lemma keeps_store_put ns key v : keeps ctx (store_put ns key v).
Proof. intros st. now apply agent_step_same_db. Qed.

End StepFacts.

Section KeepsFacts.

Context (env : Env) (ctx : Context).

Lemma keeps_update_user_profile (p : UpdateUserProfile) :
  keeps ctx (Tools.update_user_profile ctx p).
Proof.
  intros st. unfold Tools.update_user_profile, try_except, bind, get_db.
  destruct (users (db_session st) !! user_id ctx) as [u|] eqn:Hu.
  - unfold Tools.commit_user, bind, get_db, set_db, store_put, ret.
    cbn [snd]. unfold agent_step, corrections_of.
    cbn [db_session users messages grammar_corrections].
    split; [reflexivity|]. split.
    + apply dom_insert_lookup_L. now rewrite Hu.
    + split; [|easy]. exists []. split; [|constructor].
      now rewrite app_nil_r.
  - apply agent_step_refl.
Qed.

Lemma keeps_save_grammar_correction (p : SaveGrammarCorrection) :
  keeps ctx (Tools.save_grammar_correction env ctx p).
Proof.
  intros st. unfold Tools.save_grammar_correction, try_except, bind, get_db.
  pose proof (last_human_message_spec (db_session st) (conversation_id ctx))
    as Hlast.
  destruct (Tools.last_human_message (db_session st) (conversation_id ctx))
    as [m|]; [|apply agent_step_refl].
  destruct Hlast as [Hin [Hc [Hr _]]].
  unfold Tools.commit_correction, bind, get_db.
  cbn [db_session correction_message_id correction_user_id].
  destruct (existsb _ _) eqn:E; [apply agent_step_refl|].
  destruct (negb _) eqn:E2; [apply agent_step_refl|].
  cbn [orb set_db remote store_put ret snd].
  unfold agent_step, corrections_of.
  cbn [db_session users messages grammar_corrections].
  split; [reflexivity|]. split; [reflexivity|]. split.
  - eexists. split; [reflexivity|]. constructor; [|constructor].
    split; [reflexivity|]. now exists m.
  - intros Hnd. rewrite map_app. apply NoDup_app. split; [exact Hnd|].
    split; [|apply NoDup_singleton].
    intros mid Hmid Hin'. cbn in Hin'. apply list_elem_of_singleton in Hin'.
    subst mid. apply list_elem_of_fmap in Hmid as [c' [Hc' Hin'']].
    assert (existsb
              (fun c' => bool_decide (correction_message_id c' = message_id m))
              (grammar_corrections (db_session st)) = true);
      [|congruence].
    apply existsb_exists. exists c'.
    split; [now apply list_elem_of_In | now apply bool_decide_eq_true].
Qed.

Lemma keeps_execute_web_search (p : WebSearch) :
  keeps ctx (Tools.execute_web_search env p).
Proof.
  unfold Tools.execute_web_search. apply keeps_try.
  - apply keeps_bind; [apply keeps_remote|].
    intros [items|s]; apply keeps_ret.
  - intros e. apply keeps_ret.
Qed.

Lemma keeps_execute_tool (tool_name : str) (params : ToolParams) :
  keeps ctx (Tools.execute_tool env tool_name ctx params).
Proof.
  unfold Tools.execute_tool, Tools.call_handler.
  repeat case_bool_decide;
    try (apply keeps_bind; [apply keeps_remote|]; intros _;
         destruct params);
    first [ apply keeps_ret | apply keeps_raise
          | apply keeps_execute_web_search
          | apply keeps_update_user_profile
          | apply keeps_save_grammar_correction ].
Qed.

Lemma keeps_between (open close s : str) :
  keeps ctx (Executor.between open close s).
Proof.
  unfold Executor.between.
  apply keeps_bind; [apply keeps_index|]. intros after.
  apply keeps_bind; [apply keeps_index|]. intros inner. apply keeps_ret.
Qed.

Lemma keeps_tool_call_turn (c : str) :
  keeps ctx (Executor.tool_call_turn env ctx c).
Proof.
  unfold Executor.tool_call_turn. apply keeps_try.
  - apply keeps_bind.
    + unfold Executor.select_tool.
      repeat match goal with
             | |- keeps _ (if ?b then _ else _) => destruct b
             end; first [apply keeps_ret | apply keeps_raise].
    + intros sel. apply keeps_bind; [apply keeps_remote|]. intros params.
      apply keeps_bind; [apply keeps_execute_tool|]. intros result.
      apply keeps_ret.
  - intros e. destruct (exn_class_of e); apply keeps_ret.
Qed.

Lemma keeps_afm_turns (n : nat) :
  forall msgs, keeps ctx (Executor.afm_turns env n ctx msgs).
Proof.
  induction n as [|n IH]; intros msgs; [apply keeps_ret|].
  cbn [Executor.afm_turns].
  apply keeps_bind; [apply keeps_remote|]. intros r.
  destruct (PyStr.contains Executor.FINAL_OPEN r); [apply keeps_between|].
  destruct (PyStr.contains Executor.TOOL_OPEN r); [|apply keeps_ret].
  apply keeps_bind; [apply keeps_between|]. intros c.
  apply keeps_bind; [apply keeps_tool_call_turn|]. intros obs. apply IH.
Qed.

End KeepsFacts.

(** X8: what a whole run of the agent does to the database: it leaves the
    [messages] table as it is, it neither adds nor removes a user row, it
    only adds corrections, every added correction belongs to the calling
    user and to a human-authored message of the current conversation, and
    if no message had two corrections before the run none has two after
    it. *)
Theorem run_afm_cycle_database_effects (env : Env) (user_input : str)
    (history : list (str * str)) (profile syn sem : str) (ctx : Context)
    (st : State) :
  let st' :=
    snd (Executor.run_afm_cycle env user_input history profile syn sem ctx
           st) in
  messages (db_session st') = messages (db_session st)
  /\ dom (users (db_session st')) = dom (users (db_session st))
  /\ (exists added,
        grammar_corrections (db_session st')
        = grammar_corrections (db_session st) ++ added
        /\ Forall (links_ok ctx (messages (db_session st))) added)
  /\ (NoDup (map correction_message_id
               (grammar_corrections (db_session st))) ->
      NoDup (map correction_message_id
               (grammar_corrections (db_session st')))).
Proof.
  unfold Executor.run_afm_cycle. cbv zeta.
  apply (keeps_afm_turns env ctx Executor.max_turns).
Qed.

Section AuxFacts.

Context {A B : Type}.

Lemma aux_ret (a : A) : aux_only (ret a).
Proof. intros st. exists []. simpl. now rewrite app_nil_r. Qed.

Lemma aux_raise (e : exn) : aux_only (@raise A e).
Proof. intros st. exists []. simpl. now rewrite app_nil_r. Qed.

Lemma aux_bind (m : M A) (k : A -> M B) :
  aux_only m -> (forall a, aux_only (k a)) -> aux_only (bind m k).
Proof.
  intros Hm Hk st. unfold bind.
  destruct (Hm st) as [evs [Ht Hc]].
  destruct (m st) as [[a|e] st1]; simpl in Ht.
  - destruct (Hk a st1) as [evs' [Ht' Hc']].
    exists (evs ++ evs'). split; [now rewrite Ht', Ht, app_assoc|].
    rewrite forallb_app. now rewrite Hc, Hc'.
  - exists evs. simpl. auto.
Qed.

Lemma aux_try (body : M A) (handler : exn -> M A) :
  aux_only body -> (forall e, aux_only (handler e)) ->
  aux_only (try_except body handler).
Proof.
  intros Hm Hk st. unfold try_except.
  destruct (Hm st) as [evs [Ht Hc]].
  destruct (body st) as [[a|e] st1]; simpl in Ht.
  - exists evs. simpl. auto.
  - destruct (Hk e st1) as [evs' [Ht' Hc']].
    exists (evs ++ evs'). split; [now rewrite Ht', Ht, app_assoc|].
    rewrite forallb_app. now rewrite Hc, Hc'.
Qed.

Lemma aux_remote (ev : Event) (oracle : nat -> outcome A) :
  is_aux ev = true -> aux_only (remote ev oracle).
Proof. intros H st. exists [ev]. simpl. now rewrite H. Qed.

End AuxFacts.

Lemma aux_get_db : aux_only get_db.
Proof. intros st. exists []. simpl. now rewrite app_nil_r. Qed.

Lemma aux_set_db (d : Session) : aux_only (set_db d).
Proof. intros st. exists []. simpl. now rewrite app_nil_r. Qed.

Lemma aux_store_put ns key v : aux_only (store_put ns key v).
Proof. intros st. exists []. simpl. now rewrite app_nil_r. Qed.

Ltac aux_step :=
  first
    [ apply aux_ret | apply aux_raise
    | apply aux_get_db | apply aux_set_db | apply aux_store_put
    | apply aux_remote; reflexivity
    | apply aux_try | apply aux_bind
    | match goal with
      | |- aux_only (match ?x with _ => _ end) => destruct x
      | |- forall _, _ => intro
      end ].

Section DispatchFacts.

Import PyStr Executor.

Context (env : Env) (ctx : Context).

Lemma aux_update_user_profile p : aux_only (Tools.update_user_profile ctx p).
Proof.
  unfold Tools.update_user_profile, Tools.commit_user. repeat aux_step.
Qed.

Lemma aux_save_grammar_correction p :
  aux_only (Tools.save_grammar_correction env ctx p).
Proof.
  unfold Tools.save_grammar_correction, Tools.commit_correction.
  repeat aux_step.
Qed.

Lemma aux_execute_web_search p : aux_only (Tools.execute_web_search env p).
Proof. unfold Tools.execute_web_search. repeat aux_step. Qed.

Lemma tool_names_differ :
  lit "WebSearch" <> lit "UpdateUserProfile"
  /\ lit "WebSearch" <> lit "SaveGrammarCorrection"
  /\ lit "UpdateUserProfile" <> lit "SaveGrammarCorrection".
Proof. repeat split; intros H; vm_compute in H; discriminate H. Qed.

Lemma call_handler_web_search p :
  Tools.call_handler env (lit "WebSearch") ctx (WebSearchParams p)
  = Some (Tools.execute_web_search env p).
Proof.
  unfold Tools.call_handler. now rewrite bool_decide_eq_true_2.
Qed.

Lemma call_handler_profile p :
  Tools.call_handler env (lit "UpdateUserProfile") ctx
    (UpdateUserProfileParams p)
  = Some (Tools.update_user_profile ctx p).
Proof.
  destruct tool_names_differ as [H1 _].
  unfold Tools.call_handler.
  rewrite bool_decide_eq_false_2 by congruence.
  now rewrite bool_decide_eq_true_2.
Qed.

Lemma call_handler_correction p :
  Tools.call_handler env (lit "SaveGrammarCorrection") ctx
    (SaveGrammarCorrectionParams p)
  = Some (Tools.save_grammar_correction env ctx p).
Proof.
  destruct tool_names_differ as [_ [H2 H3]].
  unfold Tools.call_handler.
  rewrite !bool_decide_eq_false_2 by congruence.
  now rewrite bool_decide_eq_true_2.
Qed.

(** A handler that neither raises nor calls anything but the search and
    the key source, run through [execute_tool]. *)
Lemma execute_tool_handler (name : str) (params : ToolParams) (h : M str) :
  Tools.call_handler env name ctx params = Some h ->
  total h -> aux_only h ->
  forall s, exists result s2 evs,
    Tools.execute_tool env name ctx params s = (Returned result, s2)
    /\ trace s2 = trace s ++ EvHandler name :: evs
    /\ forallb is_aux evs = true.
Proof.
  intros Hc Ht Ha s. unfold Tools.execute_tool. rewrite Hc.
  unfold bind, remote.
  set (s1 := {| db_session := db_session s; store := store s;
                trace := trace s ++ [EvHandler name] |}).
  destruct (Ht s1) as [result Hres]. destruct (Ha s1) as [evs [Htr Hev]].
  destruct (h s1) as [[res|e] s2]; [|discriminate].
  exists res, s2, evs. split; [reflexivity|]. split; [|exact Hev].
  simpl in Htr. rewrite Htr. unfold s1. simpl. now rewrite <- app_assoc.
Qed.

(** The tool and the parameters that [select_tool] and its extractor
    give are run by exactly one handler. *)
Lemma execute_tool_selected (c : str) (s : State)
    (sel : (nat -> list BaseMessage -> outcome ToolParams) * str)
    (t : nat) (prompt : list BaseMessage) (params : ToolParams) :
  select_tool env c s = (Returned sel, s) ->
  fst sel t prompt = Returned params ->
  forall s', exists result s2 evs,
    Tools.execute_tool env (snd sel) ctx params s' = (Returned result, s2)
    /\ trace s2 = trace s' ++ EvHandler (snd sel) :: evs
    /\ forallb is_aux evs = true.
Proof.
  unfold select_tool. intros Hsel Hext.
  destruct (contains (lit "WebSearch") c).
  { injection Hsel as <-. cbn [fst snd] in *. unfold dumped in Hext.
    destruct (websearch_extractor env t prompt) as [p|]; [|discriminate].
    injection Hext as <-.
    apply (execute_tool_handler _ _ _ (call_handler_web_search p)).
    - apply total_try. intros e. apply total_ret.
    - apply aux_execute_web_search. }
  destruct (contains (lit "UpdateUserProfile") c).
  { injection Hsel as <-. cbn [fst snd] in *. unfold dumped in Hext.
    destruct (profile_extractor env t prompt) as [p|]; [|discriminate].
    injection Hext as <-.
    apply (execute_tool_handler _ _ _ (call_handler_profile p)).
    - apply total_try. intros e. apply total_ret.
    - apply aux_update_user_profile. }
  destruct (contains (lit "SaveGrammarCorrection") c); [|discriminate].
  injection Hsel as <-. cbn [fst snd] in *. unfold dumped in Hext.
  destruct (grammar_extractor env t prompt) as [p|]; [|discriminate].
  injection Hext as <-.
  apply (execute_tool_handler _ _ _ (call_handler_correction p)).
  - apply total_try. intros e. apply total_ret.
  - apply aux_save_grammar_correction.
Qed.

End DispatchFacts.

(** X9: a tool call that names a known tool, with an extraction that
    succeeds, is followed by exactly one extractor call and exactly one
    handler call, in this order after the call of the primary model; the
    handler's result is what [execute_tool] returns, no exception
    escapes, whatever else is recorded is the handler's own search or
    key request, and the loop goes on with the transcript extended by the
    response and one observation holding the result. *)
Theorem known_tool_one_handler_one_observation (env : Env) (n : nat)
    (ctx : Context) (msgs : list BaseMessage) (st : State) (a x b : str)
    (sel : (nat -> list BaseMessage -> outcome ToolParams) * str)
    (params : ToolParams) :
  let r := a ++ Executor.TOOL_OPEN ++ x ++ Executor.TOOL_CLOSE ++ b in
  let inner := PyStr.strip x in
  let prompt := [HumanMessage (Executor.extraction_prompt inner)] in
  llm_invoke env (length (trace st)) msgs = Returned r ->
  PyStr.contains Executor.FINAL_OPEN r = false ->
  PyStr.contains Executor.TOOL_OPEN a = false ->
  PyStr.contains Executor.TOOL_OPEN x = false ->
  PyStr.contains Executor.TOOL_CLOSE x = false ->
  Executor.select_tool env inner (logged st [EvLlm msgs])
  = (Returned sel, logged st [EvLlm msgs]) ->
  fst sel (S (length (trace st))) prompt = Returned params ->
  exists result st2 evs,
    Tools.execute_tool env (snd sel) ctx params
      (logged st [EvLlm msgs; EvExtract (snd sel) prompt])
    = (Returned result, st2)
    /\ trace st2
       = trace st ++ [EvLlm msgs; EvExtract (snd sel) prompt;
                      EvHandler (snd sel)] ++ evs
    /\ forallb is_aux evs = true
    /\ Executor.afm_turns env (S n) ctx msgs st
       = Executor.afm_turns env n ctx
           (msgs ++ [AIMessage r; Executor.observation result]) st2.
Proof.
  intros r inner prompt Hr Hf Ha Hxo Hxc Hsel Hext.
  destruct (execute_tool_selected env ctx inner _ sel _ prompt params
              Hsel Hext
              (logged st [EvLlm msgs; EvExtract (snd sel) prompt]))
    as [result [st2 [evs [Hrun [Htr Hev]]]]].
  exists result, st2, evs. split; [exact Hrun|]. split.
  { rewrite Htr. cbn [trace logged]. now rewrite <- app_assoc. }
  split; [exact Hev|].
  rewrite (afm_turns_tool_section env n ctx msgs st a x b Hr Hf Ha Hxo Hxc).
  unfold bind at 1. unfold Executor.tool_call_turn, try_except.
  unfold bind at 1. fold inner. rewrite Hsel.
  unfold bind at 1. unfold remote. cbn [trace logged].
  rewrite length_app. cbn [length]. rewrite Nat.add_1_r.
  fold prompt. rewrite Hext.
  replace {| db_session := db_session (logged st [EvLlm msgs]);
             store := store (logged st [EvLlm msgs]);
             trace := (trace st ++ [EvLlm msgs])
                      ++ [EvExtract (snd sel) prompt] |}
    with (logged st [EvLlm msgs; EvExtract (snd sel) prompt])
    by (unfold logged; cbn; now rewrite <- app_assoc).
  unfold bind at 1. rewrite Hrun. reflexivity.
Qed.

Lemma known_tool_one_handler_one_observation_witness :
  let r := lit "<tool_call>UpdateUserProfile(interests_to_add=['chess'])</tool_call>" in
  let env := scripted_env [r] (lit "<final_answer>ok</final_answer>")
               (Returned add_chess) no_grammar in
  exists result st2,
    Executor.afm_turns env 5 ctx0 [SystemMessage []] chess_state
    = Executor.afm_turns env 4 ctx0
        ([SystemMessage []] ++ [AIMessage r; Executor.observation result])
        st2.
Proof.
  intros r env.
  destruct (known_tool_one_handler_one_observation env 4 ctx0
              [SystemMessage []] chess_state []
              (lit "UpdateUserProfile(interests_to_add=['chess'])") []
              (Executor.dumped UpdateUserProfileParams (profile_extractor env),
               lit "UpdateUserProfile")
              (UpdateUserProfileParams add_chess)
              eq_refl eq_refl eq_refl eq_refl eq_refl eq_refl eq_refl)
    as [result [st2 [evs [_ [_ [_ Hturn]]]]]].
  exists result, st2. exact Hturn.
Defined.

Section LoopExtras.

Import PyStr Executor.

Context (env : Env) (ctx : Context).

Lemma tool_call_turn_observation (c : str) (st : State) :
  exists body st2,
    tool_call_turn env ctx c st = (Returned (observation body), st2).
Proof.
  unfold tool_call_turn, try_except, bind.
  destruct (select_tool env c st) as [[sel|e] s1].
  - destruct (remote _ _ s1) as [[params|e] s2].
    + destruct (Tools.execute_tool env (snd sel) ctx params s2)
        as [[res|e] s3].
      * now eexists _, _.
      * destruct (exn_class_of e); now eexists _, _.
    + destruct (exn_class_of e); now eexists _, _.
  - destruct (exn_class_of e); now eexists _, _.
Qed.

Lemma between_strip (open close s : str) :
  open <> [] -> contains open s = true ->
  exists h, forall st, between open close s st = (Returned (strip h), st).
Proof.
  intros Ho Hc.
  destruct (split_from_two open s [] Ho Hc) as [p [q [rest E]]].
  destruct (split close q) as [|h t] eqn:E2.
  { now apply split_from_nonempty in E2. }
  exists h. intros st.
  unfold between, split, bind, index, ret in *. rewrite E. cbn.
  rewrite E2. reflexivity.
Qed.

(** The three ways a turn can go. *)
Lemma afm_turn_cases (n : nat) (msgs : list BaseMessage) (st : State) :
  let st1 := logged st [EvLlm msgs] in
  (exists e, llm_invoke env (length (trace st)) msgs = Raised e
             /\ afm_turns env (S n) ctx msgs st = (Raised e, st1))
  \/ (exists v, afm_turns env (S n) ctx msgs st = (Returned (strip v), st1))
  \/ (exists r c body st2,
        llm_invoke env (length (trace st)) msgs = Returned r
        /\ tool_call_turn env ctx c st1 = (Returned (observation body), st2)
        /\ afm_turns env (S n) ctx msgs st
           = afm_turns env n ctx (msgs ++ [AIMessage r; observation body])
               st2).
Proof.
  intros st1. rewrite afm_turns_S. fold st1.
  destruct (llm_invoke env (length (trace st)) msgs) as [r|e];
    [|left; now exists e].
  right. destruct (contains FINAL_OPEN r) eqn:Hf.
  - left. destruct (between_strip FINAL_OPEN FINAL_CLOSE r) as [h Hh];
      [discriminate | exact Hf |]. exists h. apply Hh.
  - destruct (contains TOOL_OPEN r) eqn:Ht; [|left; now exists r].
    right. destruct (between_strip TOOL_OPEN TOOL_CLOSE r) as [h Hh];
      [discriminate | exact Ht |].
    destruct (tool_call_turn_observation (strip h) st1)
      as [body [st2 Hturn]].
    exists r, (strip h), body, st2. split; [reflexivity|].
    split; [exact Hturn|].
    unfold bind at 1. rewrite Hh. unfold bind. rewrite Hturn.
    now rewrite <- app_assoc.
Qed.

End LoopExtras.

Section StripFacts.

Import PyStr.

Lemma lstrip_snoc (c : char) (a : str) :
  isspace c = false -> lstrip (a ++ [c]) = lstrip a ++ [c].
Proof.
  intros Hc. induction a as [|x a IH]; cbn [app lstrip].
  - now rewrite Hc.
  - destruct (isspace x); [exact IH | reflexivity].
Qed.

Lemma lstrip_fixed (s : str) :
  match s with c :: _ => isspace c = false | [] => True end ->
  lstrip s = s.
Proof. destruct s as [|c s]; [easy|]. cbn. now intros ->. Qed.

Lemma lstrip_head (s : str) :
  match lstrip s with c :: _ => isspace c = false | [] => True end.
Proof.
  induction s as [|c s IH]; [exact I|]. cbn [lstrip].
  destruct (isspace c) eqn:E; [exact IH | exact E].
Qed.

Lemma lstrip_idem (s : str) : lstrip (lstrip s) = lstrip s.
Proof. apply lstrip_fixed, lstrip_head. Qed.

Lemma rstrip_idem (s : str) : rstrip (rstrip s) = rstrip s.
Proof. unfold rstrip. now rewrite rev_involutive, lstrip_idem. Qed.

Lemma rstrip_cons (c : char) (t : str) :
  isspace c = false -> rstrip (c :: t) = c :: rstrip t.
Proof.
  intros Hc. unfold rstrip. cbn [rev].
  rewrite lstrip_snoc by exact Hc. now rewrite rev_app_distr.
Qed.

(** Trimming twice is trimming once. *)
Lemma strip_idem (s : str) : strip (strip s) = strip s.
Proof.
  unfold strip. pose proof (lstrip_head s) as Hh.
  destruct (lstrip s) as [|c t] eqn:E; [reflexivity|].
  rewrite rstrip_cons by exact Hh.
  rewrite lstrip_fixed by exact Hh.
  rewrite <- (rstrip_cons c t Hh). apply rstrip_idem.
Qed.

End StripFacts.

Section LoopOutcomes.

Import PyStr Executor.

Context (env : Env) (ctx : Context).

Lemma afm_turns_trimmed (n : nat) :
  forall msgs st v,
    fst (afm_turns env n ctx msgs st) = Returned v -> strip v = v.
Proof.
  induction n as [|n IH]; intros msgs st v H.
  - cbn in H. injection H as <-. reflexivity.
  - destruct (afm_turn_cases env ctx n msgs st)
      as [[e [_ E]] | [[w E] | [r [c [body [st2 [_ [_ E]]]]]]]];
      rewrite E in H.
    + discriminate.
    + cbn in H. injection H as <-. apply strip_idem.
    + now apply IH in H.
Qed.

Lemma afm_turns_raises (n : nat) :
  forall msgs st e,
    fst (afm_turns env n ctx msgs st) = Raised e ->
    exists pre ms,
      trace (snd (afm_turns env n ctx msgs st)) = pre ++ [EvLlm ms]
      /\ llm_invoke env (length pre) ms = Raised e.
Proof.
  induction n as [|n IH]; intros msgs st e H.
  - discriminate.
  - destruct (afm_turn_cases env ctx n msgs st)
      as [[e' [Hr E]] | [[w E] | [r [c [body [st2 [_ [_ E]]]]]]]];
      rewrite E in *.
    + cbn in H. injection H as <-. now exists (trace st), msgs.
    + discriminate.
    + now apply IH.
Qed.




End LoopOutcomes.

(** X10: whatever extraction and handler do, the tool-call part of a turn
    lets no exception escape and gives a [HumanMessage] whose content is
    wrapped in [<observation>] and [</observation>]. *)
Theorem tool_call_turn_always_observes (env : Env) (ctx : Context)
    (tool_call_content : str) (st : State) :
  exists body st2,
    Executor.tool_call_turn env ctx tool_call_content st
    = (Returned (HumanMessage (lit "<observation>" ++ nl ++ body ++ nl
                               ++ lit "</observation>")), st2).
Proof. apply tool_call_turn_observation. Qed.

(** X11: the only exception that leaves [run_afm_cycle] is one raised by
    the call of the primary model: when the run raises [e], the last
    call it recorded is a call of the primary model, and that call
    raised [e]. *)
Theorem run_afm_cycle_raises_only_from_llm (env : Env) (user_input : str)
    (history : list (str * str)) (profile syn sem : str) (ctx : Context)
    (st : State) (e : exn) :
  let run :=
    Executor.run_afm_cycle env user_input history profile syn sem ctx st in
  fst run = Raised e ->
  exists pre ms,
    trace (snd run) = pre ++ [EvLlm ms]
    /\ llm_invoke env (length pre) ms = Raised e.
Proof.
  unfold Executor.run_afm_cycle. cbv zeta. apply afm_turns_raises.
Qed.

(** X12: every text [run_afm_cycle] returns is free of surrounding
    whitespace: trimming it changes nothing. *)
Theorem run_afm_cycle_returns_trimmed (env : Env) (user_input : str)
    (history : list (str * str)) (profile syn sem : str) (ctx : Context)
    (st : State) (v : str) :
  fst (Executor.run_afm_cycle env user_input history profile syn sem ctx st)
  = Returned v ->
  PyStr.strip v = v.
Proof.
  unfold Executor.run_afm_cycle. cbv zeta. apply afm_turns_trimmed.
Qed.


Lemma run_afm_cycle_raises_only_from_llm_witness :
  let run :=
    Executor.run_afm_cycle unreachable_env (lit "hi") [] [] [] [] ctx0
      empty_state in
  exists pre ms,
    trace (snd run) = pre ++ [EvLlm ms]
    /\ llm_invoke unreachable_env (length pre) ms
       = Raised (Exn OtherException (lit "timed out")).
Proof.
  exact (run_afm_cycle_raises_only_from_llm unreachable_env (lit "hi") [] []
           [] [] ctx0 empty_state (Exn OtherException (lit "timed out"))
           eq_refl).
Defined.

Lemma run_afm_cycle_returns_trimmed_witness :
  PyStr.strip (lit "Hello there.") = lit "Hello there.".
Proof.
  exact (run_afm_cycle_returns_trimmed
           (scripted_env [lit " Hello there. "] [] no_profile no_grammar)
           (lit "hi") [] [] [] [] ctx0 empty_state (lit "Hello there.")
           eq_refl).
Defined.

Section Unterminated.

Import PyStr Executor.

Lemma split_from_no_sep (sep : str) (s : str) :
  forall cur, contains sep s = false ->
              split_from sep 0 cur s = [rev cur ++ s].
Proof.
  induction s as [|c s IH]; intros cur H.
  - cbn. now rewrite app_nil_r.
  - cbn [contains] in H. apply orb_false_iff in H as [Hs Hc].
    cbn [split_from]. rewrite Hs. rewrite IH by exact Hc.
    cbn [rev]. now rewrite <- app_assoc.
Qed.

Lemma final_unterminated (a x : str) (st : State) :
  contains FINAL_OPEN a = false ->
  contains FINAL_OPEN x = false ->
  contains FINAL_CLOSE x = false ->
  between FINAL_OPEN FINAL_CLOSE (a ++ FINAL_OPEN ++ x) st
  = (Returned (strip x), st).
Proof.
  intros Ha Hxo Hxc. unfold between, split.
  assert (E : split_from FINAL_OPEN 0 [] (a ++ FINAL_OPEN ++ x)
              = a :: split_from FINAL_OPEN 0 [] x).
  { apply (split_from_tag 60%N (lit "final_answer>") (lit "/final_answer>")
             (lt_not_in_tag "final_answer>" eq_refl)
             (lt_not_in_tag "/final_answer>" eq_refl)
             (fun s => eq_refl)
             (lit "final_answer>") a x []
             (lt_not_in_tag "final_answer>" eq_refl) Ha). }
  rewrite E. rewrite (split_from_no_sep FINAL_OPEN x [] Hxo).
  unfold bind, index, ret. cbn [nth_error rev app].
  rewrite (split_from_no_sep FINAL_CLOSE x [] Hxc). reflexivity.
Qed.

End Unterminated.

(** X14: a final answer whose closing delimiter is missing is still
    returned: when the response holds [<final_answer>] once and
    [</final_answer>] nowhere after it, the loop returns all that follows
    the opening delimiter, trimmed. *)
Theorem unterminated_final_answer_is_returned (env : Env) (n : nat)
    (ctx : Context) (msgs : list BaseMessage) (st : State) (a x : str) :
  llm_invoke env (length (trace st)) msgs
  = Returned (a ++ Executor.FINAL_OPEN ++ x) ->
  PyStr.contains Executor.FINAL_OPEN a = false ->
  PyStr.contains Executor.FINAL_OPEN x = false ->
  PyStr.contains Executor.FINAL_CLOSE x = false ->
  Executor.afm_turns env (S n) ctx msgs st
  = (Returned (PyStr.strip x), logged st [EvLlm msgs]).
Proof.
  intros Hr Ha Hxo Hxc. rewrite afm_turns_S, Hr.
  assert (Hc : PyStr.contains Executor.FINAL_OPEN
                 (a ++ Executor.FINAL_OPEN ++ x) = true).
  { apply contains_iff. exists a, x. reflexivity. }
  rewrite Hc. now apply final_unterminated.
Qed.

Lemma unterminated_final_answer_is_returned_witness :
  let r := lit "<plan>p</plan><final_answer> Nice to meet you" in
  Executor.afm_turns (scripted_env [r] [] no_profile no_grammar) 5 ctx0
    [SystemMessage []] empty_state
  = (Returned (lit "Nice to meet you"),
     logged empty_state [EvLlm [SystemMessage []]]).
Proof.
  intros r.
  exact (unterminated_final_answer_is_returned
           (scripted_env [r] [] no_profile no_grammar) 4 ctx0
           [SystemMessage []] empty_state (lit "<plan>p</plan>")
           (lit " Nice to meet you") eq_refl eq_refl eq_refl eq_refl).
Defined.

(** * Further properties of the grammar stage *)

Section GrammarExtras.

Import LanguageTool.

Context (requests_post : str -> outcome (list Match)).

Lemma insert_desc_not_nil (m : Match) (l : list Match) :
  insert_desc m l <> [].
Proof.
  destruct l as [|x l]; cbn; [discriminate|].
  destruct (m_offset x <=? m_offset m)%Z; discriminate.
Qed.

Lemma sorted_desc_nil (l : list Match) : sorted_desc l = [] <-> l = [].
Proof.
  split; [|now intros ->]. destruct l as [|m l]; [easy|].
  cbn [sorted_desc foldr]. intros H. now apply insert_desc_not_nil in H.
Qed.

Lemma errors_nil (text : str) :
  errors (check_text requests_post text) = []
  <-> requests_post text = Returned [] \/ exists e, requests_post text = Raised e.
Proof.
  unfold check_text. destruct (requests_post text) as [found|e].
  - cbn [errors]. split.
    + intros H. left. f_equal. apply sorted_desc_nil.
      now destruct (sorted_desc found).
    + intros [[= ->]|[e [=]]]. reflexivity.
  - split; [intros _; right; now exists e|].
    intros _. now destruct (exn_class_of e).
Qed.


End GrammarExtras.

(** X15: the stage answers with the text of the no-error case exactly
    when the proofreading call failed or flagged nothing, and this is
    exactly when [has_errors] is false: a service that cannot be reached
    and a text without errors give the same answers. *)
Theorem no_errors_or_unavailable
    (requests_post : str -> outcome (list LanguageTool.Match))
    (text : str) :
  (GrammarPipe.syntactic_check_node requests_post text
   = lit "Nenhum erro de sintaxe encontrado."
   <-> requests_post text = Returned []
       \/ exists e, requests_post text = Raised e)
  /\ (has_errors requests_post text = false
      <-> requests_post text = Returned []
          \/ exists e, requests_post text = Raised e).
Proof.
  split.
  - rewrite <- errors_nil. unfold GrammarPipe.syntactic_check_node.
    destruct (LanguageTool.errors _) as [|e es]; [easy|].
    split; [|discriminate]. intros H.
    apply (f_equal (hd 0%N)) in H. vm_compute in H. discriminate H.
  - rewrite <- errors_nil. unfold has_errors.
    destruct (LanguageTool.errors _) as [|e es]; [easy|].
    split; discriminate.
Qed.



(** * Text to speech *)

Section TTSFacts.

Import TTS.

Context {F : Type} (KEY : str) (lower : str -> str)
        (requests_post : Request F -> outcome Response).

Lemma dict_get_cases (d : list (str * str)) (key dflt : str) :
  dict_get d key dflt = dflt \/ dict_get d key dflt ∈ map snd d.
Proof.
  induction d as [|[k v] d IH]; [now left|]. cbn [dict_get map snd].
  case_bool_decide.
  - right. left.
  - destruct IH as [IH|IH]; [now left | right; now right].
Qed.

End TTSFacts.

(** X17: the speech service is called only for a text worth speaking:
    without an API key, or for a message that is empty or all whitespace,
    nothing is sent and the result is [None]; and audio is returned only
    when one request, carrying the message as it is, was answered with
    status 200, the audio being the body of that answer. *)
Theorem convert_text_to_speech_requests {F : Type} (KEY : str)
    (lower : str -> str)
    (requests_post : TTS.Request F -> outcome TTS.Response)
    (message voice : str) (stab sim : F) :
  let out :=
    TTS.convert_text_to_speech KEY lower requests_post message voice
      stab sim in
  (KEY = [] \/ PyStr.strip message = [] -> out = (None, []))
  /\ (forall audio, fst out = Some audio ->
        exists request,
          snd out = [request]
          /\ TTS.text request = message
          /\ requests_post request
             = Returned {| TTS.status_code := 200;
                           TTS.content_bytes := audio |}).
Proof.
  cbv zeta. unfold TTS.convert_text_to_speech. split.
  - intros [-> | Hm]; [reflexivity|]. rewrite Hm. now destruct KEY.
  - intros audio. destruct KEY as [|k KEY']; [discriminate|].
    destruct (PyStr.strip message) as [|c s]; [discriminate|].
    destruct (requests_post _) as [[code body]|e] eqn:E; [|discriminate].
    cbn [TTS.status_code TTS.content_bytes].
    destruct (Z.eqb_spec code 200) as [->|]; [|discriminate].
    cbn [fst snd]. intros [= ->]. eexists. split; [reflexivity|].
    split; [reflexivity | exact E].
Qed.

Lemma convert_text_to_speech_requests_witness :
  TTS.convert_text_to_speech (lit "key") (fun v => v)
    (fun _ : TTS.Request nat =>
       Returned {| TTS.status_code := 200; TTS.content_bytes := [1%N] |})
    (lit "   ") (lit "rachel") 1 2
  = (None, []).
Proof.
  exact (proj1 (convert_text_to_speech_requests (lit "key") (fun v => v)
                  (fun _ : TTS.Request nat =>
                     Returned {| TTS.status_code := 200;
                                 TTS.content_bytes := [1%N] |})
                  (lit "   ") (lit "rachel") 1 2)
           (or_intror eq_refl)).
Defined.

(** X18: every request goes to the endpoint of one of the three voices of
    [VOICE_IDS], whatever voice name is asked for; a name that, lowered,
    is not in the table is served by Rachel's voice. *)
Theorem convert_text_to_speech_voice {F : Type} (KEY : str)
    (lower : str -> str)
    (requests_post : TTS.Request F -> outcome TTS.Response)
    (message voice : str) (stab sim : F) :
  let out :=
    TTS.convert_text_to_speech KEY lower requests_post message voice
      stab sim in
  (forall request, request ∈ snd out ->
     exists voice_id,
       TTS.endpoint request
       = lit "https://api.elevenlabs.io/v1/text-to-speech/" ++ voice_id
       /\ voice_id ∈ map snd TTS.VOICE_IDS)
  /\ (lower voice ∉ map fst TTS.VOICE_IDS ->
      forall request, request ∈ snd out ->
        TTS.endpoint request
        = lit "https://api.elevenlabs.io/v1/text-to-speech/21m00Tcm4TlvDq8ikWAM").
Proof.
  cbv zeta. unfold TTS.convert_text_to_speech.
  destruct KEY as [|k KEY']; [split; intros; exfalso; simpl in *;
                              match goal with H : _ ∈ [] |- _ => inversion H end|].
  destruct (PyStr.strip message) as [|c s];
    [split; intros; exfalso; simpl in *;
     match goal with H : _ ∈ [] |- _ => inversion H end|].
  set (voice_id := TTS.dict_get TTS.VOICE_IDS (lower voice) _).
  set (request := {| TTS.endpoint := _ |}).
  assert (Hsnd : forall r, r ∈ snd (match requests_post request with
                                    | Returned response =>
                                        if (TTS.status_code response =? 200)%Z
                                        then (Some (TTS.content_bytes response),
                                              [request])
                                        else (None, [request])
                                    | Raised _ => (None, [request])
                                    end) -> r = request).
  { intros r. destruct (requests_post request) as [resp|e];
      [destruct (_ =? _)%Z|]; cbn [snd]; intros Hr;
      now apply list_elem_of_singleton in Hr. }
  split.
  - intros r Hr. apply Hsnd in Hr as ->. exists voice_id.
    split; [reflexivity|].
    destruct (dict_get_cases TTS.VOICE_IDS (lower voice)
                (TTS.dict_get TTS.VOICE_IDS (lit "rachel") []))
      as [E|E]; fold voice_id in E; [|exact E].
    rewrite E. left.
  - intros Hunknown r Hr. apply Hsnd in Hr as ->.
    unfold request. cbn [TTS.endpoint].
    assert (E : voice_id = lit "21m00Tcm4TlvDq8ikWAM"); [|now rewrite E].
    unfold voice_id. clear -Hunknown.
    unfold TTS.VOICE_IDS in *. cbn [map fst] in Hunknown.
    cbn [TTS.dict_get].
    rewrite !(bool_decide_eq_false_2 (_ = lower voice)).
    + now rewrite bool_decide_eq_true_2.
    + intros E. apply Hunknown. rewrite <- E. do 2 right. left.
    + intros E. apply Hunknown. rewrite <- E. right. left.
    + intros E. apply Hunknown. rewrite <- E. left.
Qed.

Lemma convert_text_to_speech_voice_witness :
  Forall
    (fun request =>
       TTS.endpoint request
       = lit "https://api.elevenlabs.io/v1/text-to-speech/21m00Tcm4TlvDq8ikWAM")
    (snd (TTS.convert_text_to_speech (lit "key") (fun v => v)
            (fun _ : TTS.Request nat => Raised (Exn OtherException []))
            (lit "Hello") (lit "Morgan") 1 2)).
Proof.
  apply Forall_forall.
  refine (proj2 (convert_text_to_speech_voice (lit "key") (fun v => v)
                   (fun _ : TTS.Request nat => Raised (Exn OtherException []))
                   (lit "Hello") (lit "Morgan") 1 2) _).
  intros H. cbn in H. apply list_elem_of_In in H. cbn in H.
  destruct H as [H|[H|[H|[]]]]; vm_compute in H; discriminate H.
Defined.

(** * The conversation service *)

Section OrderFacts.

Import Conversations.

Context {A : Type} (before : A -> A -> bool) (R : A -> A -> Prop).
Hypothesis before_true : forall x y, before x y = true -> R x y.
Hypothesis before_false : forall x y, before x y = false -> R y x.
Hypothesis R_trans : forall x y z, R x y -> R y z -> R x z.

Lemma insert_row_perm (x : A) (l : list A) :
  Permutation (insert_row before x l) (x :: l).
Proof.
  induction l as [|y l IH]; [reflexivity|]. cbn [insert_row].
  destruct (before x y); [reflexivity|]. rewrite IH. apply perm_swap.
Qed.

Lemma order_by_perm (l : list A) : Permutation (order_by before l) l.
Proof.
  induction l as [|x l IH]; [reflexivity|].
  cbn [order_by foldr]. fold (order_by before l).
  rewrite insert_row_perm. now constructor.
Qed.

Lemma insert_row_sorted (x : A) (l : list A) :
  StronglySorted R l -> StronglySorted R (insert_row before x l).
Proof.
  induction l as [|y l IH]; intros Hs.
  - repeat constructor.
  - apply StronglySorted_inv in Hs as [Hl Hy]. cbn [insert_row].
    destruct (before x y) eqn:E.
    + constructor; [now constructor|]. constructor; [now apply before_true|].
      eapply Forall_impl; [exact Hy|]. intros z Hz.
      eapply R_trans; [apply before_true; exact E | exact Hz].
    + constructor; [now apply IH|].
      eapply Permutation_Forall; [symmetry; apply insert_row_perm|].
      constructor; [now apply before_false | exact Hy].
Qed.

Lemma order_by_sorted (l : list A) : StronglySorted R (order_by before l).
Proof.
  induction l as [|x l IH]; [constructor|].
  cbn [order_by foldr]. now apply insert_row_sorted.
Qed.

End OrderFacts.

Lemma StronglySorted_map {A B} (f : A -> B) (R : B -> B -> Prop)
    (l : list A) :
  StronglySorted (fun a b => R (f a) (f b)) l -> StronglySorted R (map f l).
Proof.
  induction 1 as [|x l Hs IH Hall]; [constructor|].
  cbn [map]. constructor; [exact IH|]. now apply Forall_map.
Qed.

Section StripLength.

Import PyStr.

Lemma lstrip_length (s : str) : length (lstrip s) <= length s.
Proof.
  induction s as [|c s IH]; [reflexivity|]. cbn [lstrip].
  destruct (isspace c); cbn [length]; lia.
Qed.

Lemma strip_length (s : str) : length (strip s) <= length s.
Proof.
  unfold strip, rstrip. rewrite length_rev.
  etrans; [apply lstrip_length|]. rewrite length_rev. apply lstrip_length.
Qed.

Lemma slice_to_60 (s : str) : slice_to s 60 = firstn 60 s.
Proof.
  unfold slice_to, norm_index. cbn [Z.ltb Z.compare].
  destruct (Nat.le_gt_cases (length s) 60) as [Hle|Hgt].
  - replace (Z.to_nat _) with (length s) by lia.
    rewrite firstn_all. symmetry. now apply firstn_all2.
  - f_equal. lia.
Qed.

End StripLength.

(** X19: the title given to a new conversation has at most 63 characters;
    a first message of at most 60 characters is its own title, trimmed;
    of a longer one the first 60 characters are kept, trimmed, and
    followed by three dots. *)
Theorem new_title_bounded (content : str) :
  length (Conversations.new_title content) <= 63
  /\ (length content <= 60 ->
      Conversations.new_title content = PyStr.strip content)
  /\ (60 < length content ->
      Conversations.new_title content
      = PyStr.strip (firstn 60 content) ++ lit "...").
Proof.
  unfold Conversations.new_title. rewrite slice_to_60.
  pose proof (strip_length (firstn 60 content)) as Hs.
  rewrite length_firstn in Hs.
  repeat split.
  - rewrite length_app.
    destruct (60 <? length content); cbn [length lit map list_ascii_of_string];
      lia.
  - intros Hle. destruct (Nat.ltb_spec 60 (length content)); [lia|].
    rewrite app_nil_r. now rewrite firstn_all2.
  - intros Hlt. destruct (Nat.ltb_spec 60 (length content)); [|lia].
    reflexivity.
Qed.

(** X20: the list of a user's conversations holds the conversations of
    that user and no other, each one once, the most recently updated
    first. *)
Theorem get_user_conversations_list_sorted (db : Conversations.Database)
    (user_id : str) :
  let items := Conversations.get_user_conversations_list db user_id in
  Permutation items
    (map Conversations.to_item
       (filter (fun conv => Conversations.conv_user_id conv = user_id)
               (Conversations.conversations db)))
  /\ StronglySorted
       (fun a b => (Conversations.item_updated_at b
                    <= Conversations.item_updated_at a)%Z) items
  /\ forall item, item ∈ items ->
       exists conv, conv ∈ Conversations.conversations db
                    /\ Conversations.conv_user_id conv = user_id
                    /\ item = Conversations.to_item conv.
Proof.
  cbv zeta. unfold Conversations.get_user_conversations_list.
  assert (Hp : Permutation
                 (Conversations.order_by Conversations.updated_desc
                    (filter (fun conv => Conversations.conv_user_id conv
                                         = user_id)
                            (Conversations.conversations db)))
                 (filter (fun conv => Conversations.conv_user_id conv
                                      = user_id)
                         (Conversations.conversations db)))
    by apply order_by_perm.
  split; [now apply Permutation_map|]. split.
  - apply StronglySorted_map.
    apply (order_by_sorted Conversations.updated_desc).
    + unfold Conversations.updated_desc. intros x y H.
      apply Z.leb_le in H. exact H.
    + unfold Conversations.updated_desc. intros x y H.
      apply Z.leb_gt in H. cbn. lia.
    + cbn. intros x y z. lia.
  - intros item Hin. apply list_elem_of_fmap in Hin as [conv [-> Hin]].
    rewrite Hp in Hin. apply list_elem_of_filter in Hin as [Hu Hin].
    now exists conv.
Qed.

Section ConversationFacts.

Import Conversations.

Lemma owned_by_iff (uid cid : str) (conv : Conversation) :
  owned_by uid cid conv = true
  <-> conv_id conv = cid /\ conv_user_id conv = uid.
Proof.
  unfold owned_by. now rewrite andb_true_iff, !bool_decide_eq_true.
Qed.

Lemma find_owned_some (db : Database) (uid cid : str) (conv : Conversation) :
  find (owned_by uid cid) (conversations db) = Some conv ->
  conv ∈ conversations db /\ conv_id conv = cid /\ conv_user_id conv = uid.
Proof.
  intros H. apply find_some in H as [Hin Ho].
  apply owned_by_iff in Ho. split; [now apply list_elem_of_In | exact Ho].
Qed.

Lemma find_owned_none (db : Database) (uid cid : str) :
  find (owned_by uid cid) (conversations db) = None ->
  forall conv, conv ∈ conversations db -> conv_id conv = cid ->
               conv_user_id conv <> uid.
Proof.
  intros H conv Hin Hc Hu.
  pose proof (find_none _ _ H conv (proj1 (list_elem_of_In _ _) Hin)) as Hf.
  assert (owned_by uid cid conv = true) by now apply owned_by_iff.
  congruence.
Qed.

Lemma find_owned_is_some (db : Database) (uid cid : str) (conv : Conversation) :
  conv ∈ conversations db -> conv_id conv = cid -> conv_user_id conv = uid ->
  exists conv', find (owned_by uid cid) (conversations db) = Some conv'.
Proof.
  intros Hin Hc Hu.
  destruct (find (owned_by uid cid) (conversations db)) as [c|] eqn:E;
    [now exists c|].
  exfalso. now apply (find_owned_none db uid cid E conv).
Qed.

Lemma correction_of_none (db : Database) (mid : str) :
  correction_of db mid = None
  <-> forall c, c ∈ grammar_corrections (session db) ->
                correction_message_id c <> mid.
Proof.
  unfold correction_of. split.
  - intros H c Hin Hc.
    pose proof (find_none _ _ H c (proj1 (list_elem_of_In _ _) Hin)) as Hf.
    apply bool_decide_eq_false in Hf. contradiction.
  - intros H. destruct (find _ _) as [c|] eqn:E; [|reflexivity].
    apply find_some in E as [Hin Hc]. apply bool_decide_eq_true in Hc.
    exfalso. apply (H c); [now apply list_elem_of_In | exact Hc].
Qed.

Lemma in_conversation_iff (db : Database) (cid mid : str) :
  in_conversation db cid mid = true
  <-> exists m, m ∈ messages (session db) /\ message_id m = mid
                /\ message_conversation_id m = cid.
Proof.
  unfold in_conversation. rewrite existsb_exists. split.
  - intros [m [Hin H]]. apply andb_true_iff in H as [H1 H2].
    apply bool_decide_eq_true in H1. apply bool_decide_eq_true in H2.
    exists m. split; [now apply list_elem_of_In | easy].
  - intros [m [Hin [H1 H2]]]. exists m.
    split; [now apply list_elem_of_In|].
    apply andb_true_iff. now rewrite !bool_decide_eq_true.
Qed.

End ConversationFacts.

(** X21: the history of a conversation is given to its owner only: for a
    conversation that does not exist or belongs to someone else the call
    raises [ConversationNotFoundError], the same in both cases; for the
    owner it gives the title and the messages of that conversation, all
    of them and no other, oldest first, each one with its correction
    when, and only when, the corrections table has one for it. *)
Theorem get_conversation_history_for_owner (db : Conversations.Database)
    (user_id conversation_id : str) :
  match Conversations.get_conversation_history db user_id conversation_id
  with
  | Conversations.Err e =>
      e = Conversations.ConversationNotFoundError conversation_id
      /\ forall conv, conv ∈ Conversations.conversations db ->
                      Conversations.conv_id conv = conversation_id ->
                      Conversations.conv_user_id conv <> user_id
  | Conversations.Ok h =>
      Conversations.history_id h = conversation_id
      /\ (exists conv, conv ∈ Conversations.conversations db
                       /\ Conversations.conv_id conv = conversation_id
                       /\ Conversations.conv_user_id conv = user_id
                       /\ Conversations.history_title h
                          = Conversations.conv_title conv)
      /\ (exists ms,
            Conversations.history_messages h
            = map (Conversations.to_detail db) ms
            /\ Permutation ms
                 (filter (fun m => message_conversation_id m
                                   = conversation_id)
                         (messages (Conversations.session db)))
            /\ StronglySorted
                 (fun a b => (created_at a <= created_at b)%Z) ms)
      /\ forall d, d ∈ Conversations.history_messages h ->
           (Conversations.detail_correction d = None
            <-> forall c,
                  c ∈ grammar_corrections (Conversations.session db) ->
                  correction_message_id c <> Conversations.detail_id d)
  end.
Proof.
  unfold Conversations.get_conversation_history.
  destruct (find _ _) as [conv|] eqn:E.
  - apply find_owned_some in E as [Hin [Hc Hu]].
    cbn [Conversations.history_id Conversations.history_title
         Conversations.history_messages].
    split; [exact Hc|]. split; [now exists conv|]. split.
    + exists (Conversations.messages_of db (Conversations.conv_id conv)).
      split; [reflexivity|]. rewrite Hc. unfold Conversations.messages_of.
      split; [apply order_by_perm|].
      apply (order_by_sorted Conversations.created_asc).
      * unfold Conversations.created_asc. intros x y H.
        now apply Z.leb_le in H.
      * unfold Conversations.created_asc. intros x y H.
        apply Z.leb_gt in H. lia.
      * intros x y z. lia.
    + intros d Hd. apply list_elem_of_fmap in Hd as [m [-> _]].
      cbn [Conversations.detail_correction Conversations.detail_id].
      rewrite <- correction_of_none. apply fmap_None.
  - split; [reflexivity|]. now apply find_owned_none.
Qed.

(** X22: a conversation is deleted by its owner only: when the user owns
    no conversation of that id the database is left as it is and the call
    raises, [PermissionError] if a conversation of that id exists and
    [ConversationNotFoundError] if none does. *)
Theorem delete_conversation_not_owned (db : Conversations.Database)
    (user_id conversation_id : str) :
  (forall conv, conv ∈ Conversations.conversations db ->
                Conversations.conv_id conv = conversation_id ->
                Conversations.conv_user_id conv <> user_id) ->
  let out := Conversations.delete_conversation db user_id conversation_id in
  snd out = db
  /\ ((exists conv, conv ∈ Conversations.conversations db
                    /\ Conversations.conv_id conv = conversation_id) ->
      fst out
      = Conversations.Err
          (Conversations.PermissionError
             (lit "You don't have permission to delete this conversation")))
  /\ ((forall conv, conv ∈ Conversations.conversations db ->
                    Conversations.conv_id conv <> conversation_id) ->
      fst out
      = Conversations.Err
          (Conversations.ConversationNotFoundError conversation_id)).
Proof.
  intros Hno. cbv zeta. unfold Conversations.delete_conversation.
  destruct (find (Conversations.owned_by _ _) _) as [conv|] eqn:E.
  { apply find_owned_some in E as [Hin [Hc Hu]].
    exfalso. now apply (Hno conv). }
  destruct (find (fun conv => bool_decide _) _) as [conv|] eqn:E2.
  - apply find_some in E2 as [Hin Hc]. apply bool_decide_eq_true in Hc.
    split; [reflexivity|]. split; [reflexivity|].
    intros Hnone. exfalso. apply (Hnone conv); [|exact Hc].
    now apply list_elem_of_In.
  - split; [reflexivity|]. split; [|reflexivity].
    intros [conv [Hin Hc]]. exfalso.
    pose proof (find_none _ _ E2 conv (proj1 (list_elem_of_In _ _) Hin)) as Hf.
    apply bool_decide_eq_false in Hf. contradiction.
Qed.

Lemma delete_conversation_not_owned_witness :
  Conversations.delete_conversation two_users_db (lit "u1") (lit "c2")
  = (Conversations.Err
       (Conversations.PermissionError
          (lit "You don't have permission to delete this conversation")),
     two_users_db).
Proof.
  destruct (delete_conversation_not_owned two_users_db (lit "u1") (lit "c2"))
    as [Hdb [Hperm _]].
  - intros conv Hin Hc Hu. apply list_elem_of_In in Hin. cbn in Hin.
    destruct Hin as [<-|[<-|[<-|[]]]]; vm_compute in Hc, Hu;
      first [discriminate Hc | discriminate Hu].
  - rewrite (surjective_pairing (Conversations.delete_conversation _ _ _)).
    rewrite Hdb, Hperm; [reflexivity|].
    exists (conv_row "c2" "u2" "Chess" 30). split; [right; left | reflexivity].
Defined.

(** X23: when the owner deletes a conversation the call succeeds and the
    deletion cascades: the conversation is gone, its messages are gone,
    the corrections of its messages are gone; the other conversations,
    the messages of the other conversations, the corrections of the
    other messages and the users are as before; and if every correction
    had its message before, every correction has its message after. *)
Theorem delete_conversation_cascades (db : Conversations.Database)
    (user_id conversation_id : str) (conv : Conversations.Conversation) :
  conv ∈ Conversations.conversations db ->
  Conversations.conv_id conv = conversation_id ->
  Conversations.conv_user_id conv = user_id ->
  let out := Conversations.delete_conversation db user_id conversation_id in
  let db' := snd out in
  fst out = Conversations.Ok tt
  /\ (forall c, c ∈ Conversations.conversations db'
                <-> c ∈ Conversations.conversations db
                    /\ Conversations.conv_id c <> conversation_id)
  /\ (forall m, m ∈ messages (Conversations.session db')
                <-> m ∈ messages (Conversations.session db)
                    /\ message_conversation_id m <> conversation_id)
  /\ (forall c, c ∈ grammar_corrections (Conversations.session db')
                <-> c ∈ grammar_corrections (Conversations.session db)
                    /\ ~ exists m, m ∈ messages (Conversations.session db)
                                   /\ message_id m = correction_message_id c
                                   /\ message_conversation_id m
                                      = conversation_id)
  /\ users (Conversations.session db') = users (Conversations.session db)
  /\ ((forall c, c ∈ grammar_corrections (Conversations.session db) ->
         exists m, m ∈ messages (Conversations.session db)
                   /\ message_id m = correction_message_id c) ->
      forall c, c ∈ grammar_corrections (Conversations.session db') ->
        exists m, m ∈ messages (Conversations.session db')
                  /\ message_id m = correction_message_id c).
Proof.
  intros Hin Hc Hu. cbv zeta. unfold Conversations.delete_conversation.
  destruct (find_owned_is_some db user_id conversation_id conv Hin Hc Hu)
    as [conv' E].
  rewrite E. apply find_owned_some in E as [_ [Hc' _]].
  cbn [fst snd]. unfold Conversations.delete_cascade. rewrite Hc'.
  cbn [Conversations.session Conversations.conversations users messages
       grammar_corrections].
  assert (Hcorr : forall c,
            c ∈ filter (fun c => Conversations.in_conversation db
                                   conversation_id (correction_message_id c)
                                 = false)
                       (grammar_corrections (Conversations.session db))
            <-> c ∈ grammar_corrections (Conversations.session db)
                /\ ~ exists m, m ∈ messages (Conversations.session db)
                               /\ message_id m = correction_message_id c
                               /\ message_conversation_id m
                                  = conversation_id).
  { intros c. rewrite list_elem_of_filter, <- in_conversation_iff.
    rewrite not_true_iff_false. tauto. }
  split; [reflexivity|].
  split; [intros c; rewrite list_elem_of_filter; tauto|].
  split; [intros m; rewrite list_elem_of_filter; tauto|].
  split; [exact Hcorr|]. split; [reflexivity|].
  intros Href c Hcin. apply Hcorr in Hcin as [Hcin Hnot].
  destruct (Href c Hcin) as [m [Hm Hid]]. exists m. split; [|exact Hid].
  apply list_elem_of_filter. split; [|exact Hm].
  intros Hconv. apply Hnot. now exists m.
Qed.

Lemma delete_conversation_cascades_witness :
  let out := Conversations.delete_conversation two_users_db (lit "u1")
               (lit "c1") in
  fst out = Conversations.Ok tt
  /\ grammar_corrections (Conversations.session (snd out)) = []
  /\ messages (Conversations.session (snd out)) = [msg_row "m4" "c2" HUMAN 12].
Proof.
  intros out.
  split; [|split; reflexivity].
  refine (proj1 (delete_conversation_cascades two_users_db (lit "u1")
                   (lit "c1") (conv_row "c1" "u1" "Going home" 20)
                   _ eq_refl eq_refl)).
  left.
Defined.

(** * The message service *)

Section ServiceFacts.

Import Conversations Service.

Context (aenv : AppEnv).

Lemma valid_insert_fresh (db : Database) (m : Message) :
  valid_insert db m = true ->
  forall m', m' ∈ messages (session db) -> message_id m' <> message_id m.
Proof.
  unfold valid_insert. intros H m' Hin Heq.
  apply andb_true_iff in H as [H _]. apply negb_true_iff in H.
  assert (existsb (fun m' => bool_decide (message_id m' = message_id m))
                  (messages (session db)) = true); [|congruence].
  apply existsb_exists. exists m'.
  split; [now apply list_elem_of_In | now apply bool_decide_eq_true].
Qed.

Lemma find_owned_none_intro (db : Database) (uid cid : str) :
  (forall conv, conv ∈ conversations db -> conv_id conv = cid ->
                conv_user_id conv <> uid) ->
  find (owned_by uid cid) (conversations db) = None.
Proof.
  intros H. destruct (find _ _) as [conv|] eqn:E; [|reflexivity].
  apply find_owned_some in E as [Hin [Hc Hu]]. exfalso. now apply (H conv).
Qed.

(** The agent leaves the messages of the session as they are. *)
Lemma run_afm_cycle_messages (user_input : str) (history : list (str * str))
    (profile syn sem : str) (ctx : Context) (s : State) :
  messages (db_session
              (snd (Executor.run_afm_cycle (agent_env aenv) user_input
                      history profile syn sem ctx s)))
  = messages (db_session s).
Proof.
  unfold Executor.run_afm_cycle. cbv zeta.
  match goal with
  | |- context [Executor.afm_turns _ _ _ ?m s] =>
      destruct (keeps_afm_turns (agent_env aenv) ctx Executor.max_turns m s)
        as [Hm _]
  end.
  exact Hm.
Qed.

(** What the English branch has done to the database, however it ends,
    once the user's message was accepted. *)
Lemma answer_in_english_stores (a : AppState) (uid cid input : str) :
  let m0 := fst (fresh_row aenv cid HUMAN a) in
  valid_insert (database a) m0 = true ->
  let out := answer_in_english aenv a uid cid input in
  exists added,
    messages (session (database (snd out)))
    = messages (session (database a)) ++ m0 :: added
    /\ contents (database (snd out)) !! message_id m0 = Some input
    /\ (forall m, m ∈ messages (session (database a)) ->
          contents (database (snd out)) !! message_id m
          = contents (database a) !! message_id m)
    /\ (forall e, fst out = Err e ->
         added = []
         /\ conversations (database (snd out)) = conversations (database a))
    /\ forall answer, fst out = Ok answer ->
         PyStr.strip answer = answer
         /\ exists ma,
              added = [ma] /\ role ma = AI
              /\ message_conversation_id ma = cid
              /\ contents (database (snd out)) !! message_id ma
                 = Some answer
              /\ exists now,
                   conversations (database (snd out))
                   = touch now cid (conversations (database a)).
Proof.
  intros m0 Hvalid. cbv zeta. unfold answer_in_english.
  subst m0. cbn [fresh_row fst database] in *.
  set (m0 := {| message_id := _ |}) in *.
  rewrite Hvalid. cbn [negb].
  set (a2 := with_database _ _).
  assert (Hm2 : messages (session (database a2))
                = messages (session (database a)) ++ [m0]) by reflexivity.
  assert (Hc2 : contents (database a2) !! message_id m0 = Some input)
    by apply lookup_insert_eq.
  assert (Ho2 : forall m, m ∈ messages (session (database a)) ->
                  contents (database a2) !! message_id m
                  = contents (database a) !! message_id m).
  { intros m Hin. cbn [a2 with_database database write_message contents].
    apply lookup_insert_ne. intros E.
    now apply (valid_insert_fresh _ _ Hvalid m Hin). }
  destruct (get_conversation_history (database a2) uid cid) as [h|e].
  2:{ exists []. cbn [fst snd]. split; [exact Hm2|].
      split; [exact Hc2|]. split; [exact Ho2|].
      split; [now intros|discriminate]. }
  destruct (preprocess aenv _ input) as [[syn sem]|e].
  2:{ exists []. cbn [fst snd]. split; [exact Hm2|].
      split; [exact Hc2|]. split; [exact Ho2|].
      split; [now intros|discriminate]. }
  match goal with
  | |- context [Executor.run_afm_cycle ?e ?i ?h ?p ?sy ?se ?c ?s] =>
      pose proof (run_afm_cycle_messages i h p sy se c s) as Hkeep;
      pose proof (afm_turns_trimmed e c Executor.max_turns
                    [SystemMessage
                       (MASTER_PROMPT_TEMPLATE_format e
                          {| arg_syntactic_analysis := sy;
                             arg_semantic_analysis := se;
                             arg_history := Executor.history_str h;
                             arg_user_profile := p;
                             arg_user_input := i;
                             arg_conversation_id := conversation_id c |})]
                    s) as Htrim;
      change (Executor.afm_turns e Executor.max_turns c _ s)
        with (Executor.run_afm_cycle e i h p sy se c s) in Htrim;
      destruct (Executor.run_afm_cycle e i h p sy se c s) as [[v|e'] s']
  end; cbn [snd fst] in Hkeep, Htrim.
  2:{ exists []. cbn [fst snd of_state database session conversations].
      split; [now rewrite Hkeep|]. split; [exact Hc2|].
      split; [exact Ho2|]. split; [now intros|discriminate]. }
  cbn [fresh_row of_state database app_trace].
  set (ma := {| message_id := _ |}).
  set (db3 := {| session := db_session s' |}).
  destruct (valid_insert db3 ma) eqn:Hv; cbn [negb].
  2:{ exists []. cbn [fst snd database session conversations db3].
      split; [now rewrite Hkeep|]. split; [exact Hc2|].
      split; [exact Ho2|]. split; [now intros|discriminate]. }
  exists [ma]. cbn [fst snd with_database database session write_message
                   contents conversations db3 messages].
  assert (Hfresh : forall m,
            m ∈ messages (session (database a)) ++ [m0] ->
            message_id m <> message_id ma).
  { intros m Hin. apply (valid_insert_fresh db3 ma Hv). cbn [db3 session].
    rewrite Hkeep. cbn [to_state db_session]. now rewrite Hm2. }
  split; [rewrite Hkeep; cbn [to_state db_session]; rewrite Hm2;
          now rewrite <- app_assoc|].
  split; [|split; [|split; [discriminate|]]].
  - rewrite lookup_insert_ne; [exact Hc2|]. intros E. symmetry in E.
    revert E. apply Hfresh. apply elem_of_app. right. left.
  - intros m Hin. rewrite lookup_insert_ne; [now apply Ho2|].
    intros E. symmetry in E. revert E. apply Hfresh.
    apply elem_of_app. now left.
  - intros answer [= <-]. split; [now apply Htrim|].
    exists ma. split; [reflexivity|]. split; [reflexivity|].
    split; [reflexivity|]. split; [apply lookup_insert_eq|].
    eexists. reflexivity.
Qed.

(** The user's message is refused by the database: nothing is written. *)
Lemma answer_in_english_invalid (a : AppState) (uid cid input : str) :
  valid_insert (database a) (fst (fresh_row aenv cid HUMAN a)) = false ->
  let out := answer_in_english aenv a uid cid input in
  (exists e, fst out = Err e) /\ database (snd out) = database a.
Proof.
  intros Hv. cbv zeta. unfold answer_in_english.
  cbn [fresh_row fst database] in *. rewrite Hv. cbn [negb fst snd database].
  split; [eexists|]; reflexivity.
Qed.

(** The branch for another language writes both messages or none. *)
Lemma refuse_cases (a : AppState) (cid input : str) :
  let out := refuse aenv a cid input in
  app_store (snd out) = app_store a
  /\ conversations (database (snd out)) = conversations (database a)
  /\ users (session (database (snd out))) = users (session (database a))
  /\ grammar_corrections (session (database (snd out)))
     = grammar_corrections (session (database a))
  /\ ((exists e, fst out = Err e /\ database (snd out) = database a)
      \/ (fst out = Ok REFUSAL
          /\ exists mh ma,
               messages (session (database (snd out)))
               = messages (session (database a)) ++ [mh; ma]
               /\ role mh = HUMAN /\ role ma = AI
               /\ message_conversation_id mh = cid
               /\ message_conversation_id ma = cid
               /\ contents (database (snd out)) !! message_id mh
                  = Some input
               /\ contents (database (snd out)) !! message_id ma
                  = Some REFUSAL
               /\ forall m, m ∈ messages (session (database a)) ->
                    contents (database (snd out)) !! message_id m
                    = contents (database a) !! message_id m)).
Proof.
  cbv zeta. unfold refuse. cbn [fresh_row database app_trace].
  set (mh := {| message_id := _; role := HUMAN |}).
  set (ma := {| message_id := _; role := AI |}).
  destruct (valid_insert (database a) mh) eqn:Hh; cbn [negb].
  2:{ cbn [fst snd database app_store].
      repeat (split; [reflexivity|]). left. eexists. now split. }
  destruct (valid_insert (write_message (database a) mh input) ma) eqn:Ha;
    cbn [negb].
  2:{ cbn [fst snd database app_store].
      repeat (split; [reflexivity|]). left. eexists. now split. }
  cbn [fst snd with_database database app_store write_message session
       conversations users grammar_corrections messages contents].
  repeat (split; [reflexivity|]). right. split; [reflexivity|].
  exists mh, ma.
  assert (Hfresh : forall m,
            m ∈ messages (session (database a)) ++ [mh] ->
            message_id m <> message_id ma).
  { intros m Hin. now apply (valid_insert_fresh _ ma Ha). }
  split; [now rewrite <- app_assoc|].
  repeat (split; [reflexivity|]).
  split; [|split; [apply lookup_insert_eq|]].
  - rewrite lookup_insert_ne; [apply lookup_insert_eq|].
    intros E. symmetry in E. revert E. apply Hfresh.
    apply elem_of_app. right. left.
  - intros m Hin. rewrite !lookup_insert_ne; [reflexivity| |].
    + intros E. now apply (valid_insert_fresh _ mh Hh m Hin).
    + intros E. symmetry in E. revert E. apply Hfresh.
      apply elem_of_app. now left.
Qed.

Lemma touch_keys (now : Z) (cid : str) (l : list Conversation) :
  map conversation_key (touch now cid l) = map conversation_key l.
Proof.
  induction l as [|c l IH]; [reflexivity|]. cbn [touch].
  case_bool_decide; cbn [map]; [reflexivity | now rewrite IH].
Qed.

Lemma process_english (a : AppState) (uid cid input : str) :
  taken_as_english aenv a input ->
  process_new_message aenv a uid cid input
  = answer_in_english aenv a uid cid input.
Proof.
  intros H. unfold process_new_message.
  destruct (detect aenv _ input) as [lang|] eqn:E; [|reflexivity].
  now rewrite (bool_decide_eq_true_2 _ (H lang E)).
Qed.

Lemma process_other (a : AppState) (uid cid input lang : str) :
  detect aenv (length (app_trace a)) input = Detected lang ->
  lang <> lit "en" ->
  process_new_message aenv a uid cid input = refuse aenv a cid input.
Proof.
  intros E H. unfold process_new_message. rewrite E.
  now rewrite (bool_decide_eq_false_2 _ H).
Qed.

Lemma process_cases (a : AppState) (uid cid input : str) :
  (taken_as_english aenv a input
   /\ process_new_message aenv a uid cid input
      = answer_in_english aenv a uid cid input)
  \/ process_new_message aenv a uid cid input = refuse aenv a cid input.
Proof.
  destruct (detect aenv (length (app_trace a)) input) as [lang|] eqn:E.
  - destruct (decide (lang = lit "en")) as [->|Hne].
    + left. assert (H : taken_as_english aenv a input).
      { intros l El. congruence. }
      split; [exact H | now apply process_english].
    + right. now apply (process_other a uid cid input lang).
  - left. assert (H : taken_as_english aenv a input).
    { intros l El. congruence. }
    split; [exact H | now apply process_english].
Qed.

(** What a call that returns an answer has done. *)
Lemma process_success (a : AppState) (uid cid input answer : str) :
  let out := process_new_message aenv a uid cid input in
  fst out = Ok answer ->
  PyStr.strip answer = answer
  /\ (exists mh ma,
        messages (session (database (snd out)))
        = messages (session (database a)) ++ [mh; ma]
        /\ role mh = HUMAN /\ role ma = AI
        /\ message_conversation_id mh = cid
        /\ message_conversation_id ma = cid
        /\ contents (database (snd out)) !! message_id mh = Some input
        /\ contents (database (snd out)) !! message_id ma = Some answer)
  /\ (conversations (database (snd out)) = conversations (database a)
      \/ exists now,
           conversations (database (snd out))
           = touch now cid (conversations (database a))).
Proof.
  cbv zeta. destruct (process_cases a uid cid input) as [[_ E]|E];
    rewrite E; clear E; intros Hok.
  - destruct (valid_insert (database a) (fst (fresh_row aenv cid HUMAN a)))
      eqn:Hv.
    + destruct (answer_in_english_stores a uid cid input Hv)
        as [added [Hm [Hc [_ [_ H]]]]].
      destruct (H answer Hok) as [Hs [ma [-> [Hr [Hcid [Hca Hk]]]]]].
      split; [exact Hs|]. split; [|now right].
      exists (fst (fresh_row aenv cid HUMAN a)), ma.
      repeat split; assumption.
    + destruct (answer_in_english_invalid a uid cid input Hv) as [[e He] _].
      rewrite He in Hok. discriminate Hok.
  - destruct (refuse_cases a cid input)
      as [_ [Hk [_ [_ [[e [He _]] | [Hr [mh [ma H]]]]]]]].
    + rewrite He in Hok. discriminate Hok.
    + rewrite Hr in Hok. injection Hok as <-.
      split; [reflexivity|]. split; [|now left]. exists mh, ma.
      destruct H as [? [? [? [? [? [? [? _]]]]]]]. repeat split; assumption.
Qed.

(** [ConversationNotFoundError] comes from the look-up of the
    conversation and from nowhere else. *)
Lemma process_not_found (a : AppState) (uid cid input c : str) :
  fst (process_new_message aenv a uid cid input)
  = Err (ConversationNotFoundError c) ->
  find (owned_by uid cid) (conversations (database a)) = None.
Proof.
  destruct (process_cases a uid cid input) as [[_ E]|E]; rewrite E; clear E.
  - unfold answer_in_english. cbn [fresh_row database].
    destruct (valid_insert _ _); cbn [negb]; [|discriminate].
    unfold get_conversation_history.
    cbn [with_database database write_message conversations].
    destruct (find _ _) as [conv|]; [|reflexivity].
    destruct (preprocess aenv _ input) as [[syn sem]|e]; [|discriminate].
    destruct (Executor.run_afm_cycle _ _ _ _ _ _ _ _) as [[v|e] s'];
      [|discriminate].
    cbn [fresh_row database]. destruct (valid_insert _ _); discriminate.
  - unfold refuse. cbn [fresh_row database].
    destruct (valid_insert _ _); cbn [negb]; [|discriminate].
    destruct (valid_insert _ _); discriminate.
Qed.

Lemma touch_fresh (now : Z) (cid : str) (l : list Conversation)
    (c : Conversation) :
  (forall c', c' ∈ l -> conv_id c' <> cid) ->
  conv_id c = cid ->
  touch now cid (l ++ [c])
  = l ++ [{| conv_id := conv_id c; conv_user_id := conv_user_id c;
             conv_title := conv_title c; conv_updated_at := now |}].
Proof.
  intros Hl Hc. induction l as [|c' l IH]; cbn [touch app].
  - now rewrite (bool_decide_eq_true_2 _ Hc).
  - rewrite bool_decide_eq_false_2 by (apply Hl; left).
    rewrite IH; [reflexivity|]. intros c'' Hin. apply Hl. now right.
Qed.

Lemma valid_conversation_fresh (db : Database) (c : Conversation) :
  valid_conversation db c = true ->
  forall c', c' ∈ conversations db -> conv_id c' <> conv_id c.
Proof.
  unfold valid_conversation. intros H c' Hin Heq.
  apply andb_true_iff in H as [H _]. apply negb_true_iff in H.
  assert (existsb (fun c' => bool_decide (conv_id c' = conv_id c))
                  (conversations db) = true); [|congruence].
  apply existsb_exists. exists c'.
  split; [now apply list_elem_of_In | now apply bool_decide_eq_true].
Qed.

End ServiceFacts.

Import Conversations Service.

(** X24: a message in a language other than English is answered with the
    fixed refusal, and the two messages, the user's and the refusal, are
    written together or not at all; the profile store, the users, the
    corrections and the conversations (also their times of update) stay
    as they are, and so do the contents of the messages already there. *)
Theorem process_new_message_other_language (aenv : AppEnv) (a : AppState)
    (uid cid input lang : str) :
  detect aenv (length (app_trace a)) input = Detected lang ->
  lang <> lit "en" ->
  let out := process_new_message aenv a uid cid input in
  app_store (snd out) = app_store a
  /\ conversations (database (snd out)) = conversations (database a)
  /\ users (session (database (snd out))) = users (session (database a))
  /\ grammar_corrections (session (database (snd out)))
     = grammar_corrections (session (database a))
  /\ ((exists e, fst out = Err e /\ database (snd out) = database a)
      \/ (fst out = Ok REFUSAL
          /\ exists mh ma,
               messages (session (database (snd out)))
               = messages (session (database a)) ++ [mh; ma]
               /\ role mh = HUMAN /\ role ma = AI
               /\ message_conversation_id mh = cid
               /\ message_conversation_id ma = cid
               /\ contents (database (snd out)) !! message_id mh
                  = Some input
               /\ contents (database (snd out)) !! message_id ma
                  = Some REFUSAL
               /\ forall m, m ∈ messages (session (database a)) ->
                    contents (database (snd out)) !! message_id m
                    = contents (database a) !! message_id m)).
Proof.
  intros E Hne. cbv zeta.
  rewrite (process_other aenv a uid cid input lang E Hne).
  apply refuse_cases.
Qed.

Lemma process_new_message_other_language_witness :
  let out := process_new_message (app_env (Detected (lit "pt")) [])
               (app_state two_users_db) (lit "u1") (lit "c1")
               (lit "Eu fui para casa") in
  app_store (snd out) = ∅
  /\ conversations (database (snd out)) = conversations two_users_db.
Proof.
  intros out.
  destruct (process_new_message_other_language
              (app_env (Detected (lit "pt")) []) (app_state two_users_db)
              (lit "u1") (lit "c1") (lit "Eu fui para casa") (lit "pt"))
    as [Hs [Hc _]].
  - reflexivity.
  - intros H. vm_compute in H. discriminate H.
  - split; [exact Hs | exact Hc].
Defined.

(** X25: for a message in another language nothing is asked of the
    models, the proofreading service, the profile search or the agent's
    tools: the outcome and the state after the call are the same in any
    two environments that agree on the detector, the ids, the clock and
    the database's complaints. *)
Theorem process_new_message_other_language_asks_no_model
    (aenv aenv' : AppEnv) (a : AppState) (uid cid input lang : str) :
  same_outside_models aenv aenv' ->
  detect aenv (length (app_trace a)) input = Detected lang ->
  lang <> lit "en" ->
  process_new_message aenv' a uid cid input
  = process_new_message aenv a uid cid input.
Proof.
  intros [Hd [Hu [Hn He]]] E Hne.
  rewrite (process_other aenv a uid cid input lang E Hne).
  rewrite (process_other aenv' a uid cid input lang);
    [|now rewrite Hd | exact Hne].
  unfold refuse, fresh_row, integrity_error.
  cbn [database app_trace]. now rewrite !Hu, !Hn, !He.
Qed.

Lemma process_new_message_other_language_asks_no_model_witness :
  process_new_message (app_env (Detected (lit "pt")) [lit "Hello"])
    (app_state two_users_db) (lit "u1") (lit "c1") (lit "Eu fui para casa")
  = process_new_message (app_env (Detected (lit "pt")) [])
      (app_state two_users_db) (lit "u1") (lit "c1")
      (lit "Eu fui para casa").
Proof.
  apply (process_new_message_other_language_asks_no_model
           (app_env (Detected (lit "pt")) [])
           (app_env (Detected (lit "pt")) [lit "Hello"])
           (app_state two_users_db) (lit "u1") (lit "c1")
           (lit "Eu fui para casa") (lit "pt")).
  - repeat split.
  - reflexivity.
  - intros H. vm_compute in H. discriminate H.
Defined.

(** X26: a message taken as English is written to the database before
    anything else is done with it: once the database has accepted it, it
    is there with its text when the call ends, however the call ends,
    directly after the messages that were there; when the call fails no
    other message was added and no conversation changed, and the
    messages that were there keep their contents. *)
Theorem process_new_message_persists_user_message (aenv : AppEnv)
    (a : AppState) (uid cid input : str) :
  taken_as_english aenv a input ->
  let m0 := fst (fresh_row aenv cid HUMAN a) in
  valid_insert (database a) m0 = true ->
  let out := process_new_message aenv a uid cid input in
  exists added,
    messages (session (database (snd out)))
    = messages (session (database a)) ++ m0 :: added
    /\ role m0 = HUMAN /\ message_conversation_id m0 = cid
    /\ contents (database (snd out)) !! message_id m0 = Some input
    /\ (forall m, m ∈ messages (session (database a)) ->
          contents (database (snd out)) !! message_id m
          = contents (database a) !! message_id m)
    /\ (forall e, fst out = Err e ->
          added = []
          /\ conversations (database (snd out))
             = conversations (database a)).
Proof.
  intros Hen m0 Hv. cbv zeta.
  rewrite (process_english aenv a uid cid input Hen).
  destruct (answer_in_english_stores aenv a uid cid input Hv)
    as [added [Hm [Hc [Ho [He _]]]]].
  exists added. split; [exact Hm|]. do 2 (split; [reflexivity|]).
  split; [exact Hc|]. split; [exact Ho | exact He].
Qed.

Lemma process_new_message_persists_user_message_witness :
  exists added,
    messages (session (database (snd (process_new_message
       (app_env LangDetectException []) (app_state two_users_db)
       (lit "u2") (lit "c1") (lit "I goed home")))))
    = messages (session two_users_db)
      ++ {| message_id := lit "0"; message_conversation_id := lit "c1";
            role := HUMAN; created_at := 100 |} :: added.
Proof.
  destruct (process_new_message_persists_user_message
              (app_env LangDetectException []) (app_state two_users_db)
              (lit "u2") (lit "c1") (lit "I goed home"))
    as [added [Hm _]].
  - intros lang H. discriminate H.
  - vm_compute. reflexivity.
  - exists added. exact Hm.
Defined.

(** X27: whenever the call returns an answer, exactly two messages were
    added to those that were there, both in the conversation of the call:
    first the user's with the text sent, then the assistant's with the
    answer returned; the answer has no white space at its ends. *)
Theorem process_new_message_success (aenv : AppEnv) (a : AppState)
    (uid cid input answer : str) :
  let out := process_new_message aenv a uid cid input in
  fst out = Ok answer ->
  PyStr.strip answer = answer
  /\ exists mh ma,
       messages (session (database (snd out)))
       = messages (session (database a)) ++ [mh; ma]
       /\ role mh = HUMAN /\ role ma = AI
       /\ message_conversation_id mh = cid
       /\ message_conversation_id ma = cid
       /\ contents (database (snd out)) !! message_id mh = Some input
       /\ contents (database (snd out)) !! message_id ma = Some answer.
Proof.
  cbv zeta. intros Hok.
  destruct (process_success aenv a uid cid input answer Hok) as [Hs [H _]].
  split; [exact Hs | exact H].
Qed.

Lemma process_new_message_success_witness :
  let out := process_new_message
               (app_env (Detected (lit "en"))
                  [lit "<final_answer> Hello Ana </final_answer>"])
               (app_state two_users_db) (lit "u1") (lit "c1")
               (lit "I goed home") in
  exists mh ma,
    messages (session (database (snd out)))
    = messages (session two_users_db) ++ [mh; ma]
    /\ contents (database (snd out)) !! message_id ma
       = Some (lit "Hello Ana").
Proof.
  intros out.
  destruct (process_new_message_success
              (app_env (Detected (lit "en"))
                 [lit "<final_answer> Hello Ana </final_answer>"])
              (app_state two_users_db) (lit "u1") (lit "c1")
              (lit "I goed home") (lit "Hello Ana"))
    as [_ [mh [ma [Hm [_ [_ [_ [_ [_ Hc]]]]]]]]].
  - vm_compute. reflexivity.
  - exists mh, ma. split; [exact Hm | exact Hc].
Defined.

(** X28: the conversation is looked up for its owner only after the
    user's message was written: a message taken as English and sent to a
    conversation of somebody else ends in [ConversationNotFoundError],
    and the message is in that conversation. *)
Theorem process_new_message_foreign_conversation (aenv : AppEnv)
    (a : AppState) (uid cid input : str) :
  taken_as_english aenv a input ->
  let m0 := fst (fresh_row aenv cid HUMAN a) in
  valid_insert (database a) m0 = true ->
  (forall conv, conv ∈ conversations (database a) ->
                conv_id conv = cid -> conv_user_id conv <> uid) ->
  let out := process_new_message aenv a uid cid input in
  fst out = Err (ConversationNotFoundError cid)
  /\ messages (session (database (snd out)))
     = messages (session (database a)) ++ [m0]
  /\ message_conversation_id m0 = cid
  /\ contents (database (snd out)) !! message_id m0 = Some input.
Proof.
  intros Hen m0 Hv Hforeign. cbv zeta.
  rewrite (process_english aenv a uid cid input Hen).
  unfold answer_in_english. subst m0.
  cbn [fresh_row fst database] in *. rewrite Hv. cbn [negb].
  unfold get_conversation_history.
  cbn [with_database database write_message conversations].
  rewrite (find_owned_none_intro (database a) uid cid Hforeign).
  cbn [fst snd database session messages contents].
  repeat split. apply lookup_insert_eq.
Qed.

Lemma process_new_message_foreign_conversation_witness :
  fst (process_new_message (app_env (Detected (lit "en")) [])
         (app_state two_users_db) (lit "u2") (lit "c1") (lit "I goed home"))
  = Err (ConversationNotFoundError (lit "c1")).
Proof.
  refine (proj1 (process_new_message_foreign_conversation
                   (app_env (Detected (lit "en")) [])
                   (app_state two_users_db) (lit "u2") (lit "c1")
                   (lit "I goed home") _ _ _)).
  - intros lang H. injection H as <-. reflexivity.
  - vm_compute. reflexivity.
  - intros conv Hin Hc Hu.
    apply list_elem_of_In in Hin. cbn in Hin.
    destruct Hin as [<-|[<-|[<-|[]]]]; vm_compute in Hc, Hu; discriminate.
Defined.

(** X29: whatever the outcome, the call only appends: the messages that
    were there stay, in their order, at most two are added, all in the
    conversation of the call, and the conversations keep their ids,
    owners and titles. *)
Theorem process_new_message_only_appends (aenv : AppEnv) (a : AppState)
    (uid cid input : str) :
  let out := process_new_message aenv a uid cid input in
  (exists added,
     messages (session (database (snd out)))
     = messages (session (database a)) ++ added
     /\ length added <= 2
     /\ Forall (fun m => message_conversation_id m = cid) added)
  /\ map conversation_key (conversations (database (snd out)))
     = map conversation_key (conversations (database a)).
Proof.
  cbv zeta. destruct (process_cases aenv a uid cid input) as [[_ E]|E];
    rewrite E; clear E.
  - destruct (valid_insert (database a) (fst (fresh_row aenv cid HUMAN a)))
      eqn:Hv.
    + destruct (answer_in_english_stores aenv a uid cid input Hv)
        as [added [Hm [_ [_ [Herr Hok]]]]].
      destruct (fst (answer_in_english aenv a uid cid input)) as [v|e].
      * destruct (Hok v eq_refl) as [_ [ma [-> [_ [Hcid [_ [now Hk]]]]]]].
        split.
        -- eexists. split; [exact Hm|]. split; [cbn; lia|].
           repeat constructor. exact Hcid.
        -- rewrite Hk. apply touch_keys.
      * destruct (Herr e eq_refl) as [-> Hk]. split.
        -- eexists. split; [exact Hm|]. split; [cbn; lia|].
           repeat constructor.
        -- now rewrite Hk.
    + destruct (answer_in_english_invalid aenv a uid cid input Hv)
        as [_ Hdb].
      rewrite Hdb. split; [|reflexivity].
      exists []. rewrite app_nil_r. split; [reflexivity|].
      split; [cbn; lia | constructor].
  - destruct (refuse_cases aenv a cid input)
      as [_ [Hk [_ [_ [[e [_ Hdb]] | [_ [mh [ma H]]]]]]]].
    + rewrite Hdb. split; [|reflexivity].
      exists []. rewrite app_nil_r. split; [reflexivity|].
      split; [cbn; lia | constructor].
    + destruct H as [Hm [_ [_ [Hc1 [Hc2 _]]]]]. split; [|now rewrite Hk].
      eexists. split; [exact Hm|]. split; [cbn; lia|].
      repeat constructor; assumption.
Qed.

(** X30: a new conversation is created for the caller and then given the
    first message, so the call never ends in [ConversationNotFoundError];
    when it returns, the title is the one made from the first message,
    the conversation is the only one added, under an id no conversation
    had, owned by the caller, and the two messages added, the first
    message and the answer returned, are in it. *)
Theorem create_new_conversation_owned (aenv : AppEnv) (a : AppState)
    (uid content : str) :
  let out := create_new_conversation aenv a uid content in
  (forall c, fst out <> Err (ConversationNotFoundError c))
  /\ forall r, fst out = Ok r ->
       response_title r = new_title content
       /\ PyStr.strip (response r) = response r
       /\ (forall c, c ∈ conversations (database a) ->
             conv_id c <> response_conversation_id r)
       /\ (exists now,
             conversations (database (snd out))
             = conversations (database a)
               ++ [{| conv_id := response_conversation_id r;
                      conv_user_id := uid;
                      conv_title := new_title content;
                      conv_updated_at := now |}])
       /\ exists mh ma,
            messages (session (database (snd out)))
            = messages (session (database a)) ++ [mh; ma]
            /\ role mh = HUMAN /\ role ma = AI
            /\ message_conversation_id mh = response_conversation_id r
            /\ message_conversation_id ma = response_conversation_id r
            /\ contents (database (snd out)) !! message_id mh
               = Some content
            /\ contents (database (snd out)) !! message_id ma
               = Some (response r).
Proof.
  cbv zeta. unfold create_new_conversation.
  set (newc := {| conv_id := _ |}). cbn [database].
  destruct (valid_conversation (database a) newc) eqn:Hv; cbn [negb].
  2:{ cbn [fst]. split; [intros c H|intros r H]; discriminate H. }
  set (a2 := with_database _ _).
  pose proof (valid_conversation_fresh _ _ Hv) as Hfresh.
  destruct (process_new_message aenv a2 uid (conv_id newc) content)
    as [[answer|e] a3] eqn:E; cbn [fst snd].
  - split; [intros c H; discriminate H|]. intros r [= <-].
    cbn [response response_title response_conversation_id].
    destruct (process_success aenv a2 uid (conv_id newc) content answer)
      as [Hs [Hm Hk]]; [now rewrite E|].
    rewrite E in Hm, Hk. cbn [snd] in Hm, Hk.
    split; [reflexivity|]. split; [exact Hs|]. split; [exact Hfresh|].
    split; [|exact Hm].
    destruct Hk as [Hk | [now Hk]]; rewrite Hk;
      cbn [a2 with_database database conversations].
    + eexists. reflexivity.
    + exists now. now rewrite (touch_fresh now _ _ newc Hfresh).
  - split; [|intros r H; discriminate H]. intros c [= ->].
    pose proof (process_not_found aenv a2 uid (conv_id newc) content c) as H.
    rewrite E in H. specialize (H eq_refl).
    destruct (find_owned_is_some (database a2) uid (conv_id newc) newc)
      as [conv Hc]; [|reflexivity|reflexivity|congruence].
    cbn [a2 with_database database conversations].
    apply elem_of_app. right. left.
Qed.

Lemma create_new_conversation_owned_witness :
  let out := create_new_conversation
               (app_env (Detected (lit "en"))
                  [lit "<final_answer>Tell me more!</final_answer>"])
               (app_state two_users_db) (lit "u1")
               (lit "  I like chess  ") in
  exists now,
    conversations (database (snd out))
    = conversations two_users_db
      ++ [{| conv_id := lit "0"; conv_user_id := lit "u1";
             conv_title := lit "I like chess";
             conv_updated_at := now |}].
Proof.
  intros out.
  destruct (create_new_conversation_owned
              (app_env (Detected (lit "en"))
                 [lit "<final_answer>Tell me more!</final_answer>"])
              (app_state two_users_db) (lit "u1")
              (lit "  I like chess  ")) as [_ H].
  destruct (H {| response := lit "Tell me more!";
                 response_conversation_id := lit "0";
                 response_title := lit "I like chess" |})
    as [_ [_ [_ [[now Hk] _]]]].
  - vm_compute. reflexivity.
  - exists now. exact Hk.
Defined.
